(** * BRD Generator: the storage layer and the form wizard

    A shallow embedding of [js/storage.js] (class [StorageManager]) and of
    [js/form-generator.js] (class [FormGenerator]), and the properties of
    the record store and of the wizard proved on it.

    JavaScript objects with string-valued properties are finite maps from
    property names to strings; an absent property ([undefined]) is an absent
    key.  Asynchronous methods are run to completion: a rejected promise and
    a thrown exception are both the outcome [Throw]. *)

From Stdlib Require Import ZArith String Ascii List Lia Bool Sorted Permutation.
From stdpp Require Import base option list gmap strings pretty.

Local Open Scope Z_scope.
Local Open Scope nat_scope.

(** ** JavaScript values *)

(** A plain object whose properties hold strings (every property the two
    classes read is a string: ids, titles, ISO timestamps, input values). *)
Abbreviation Obj := (gmap string string).

(** Truthiness of a property read: [undefined] and the empty string are
    falsy, every other string is truthy. *)
Definition truthy (v : option string) : bool :=
  match v with
  | Some s => negb (String.eqb s "")
  | None => false
  end.

(** [v || d] for a property read [v] and a string [d]. *)
Definition orElse (v : option string) (d : string) : string :=
  match v with
  | Some s => if String.eqb s "" then d else s
  | None => d
  end.

(** A JavaScript number used as a condition: [undefined] and [0] are falsy. *)
Definition truthyNumber (n : option nat) : bool :=
  match n with
  | Some v => negb (v =? 0)
  | None => false
  end.

(** [a === b] on two property reads. *)
Definition strictEq (a b : option string) : bool := bool_decide (a = b).

(** [Array.prototype.findIndex]. *)
Fixpoint findIndex {A} (p : A -> bool) (l : list A) : option nat :=
  match l with
  | [] => None
  | x :: l' => if p x then Some 0 else S <$> findIndex p l'
  end.

(** [Array.prototype.some]. *)
Definition some {A} (p : A -> bool) (l : list A) : bool := existsb p l.

(** [Array.prototype.sort(compareFn)].  ECMAScript requires the sort to be
    stable and reads a comparator result [v] as "a goes after b" when
    [v > 0]; a [NaN] result counts as [+0].  The order is determined by
    these two rules whenever the comparator is consistent; the model is the
    insertion sort that satisfies them. *)
Section Sort.
Context {A : Type} (compareFn : A -> A -> Z).

Fixpoint sortInsert (x : A) (l : list A) : list A :=
  match l with
  | [] => [x]
  | y :: l' => if (compareFn x y <=? 0)%Z then x :: y :: l' else y :: sortInsert x l'
  end.

Definition sort (l : list A) : list A := foldr sortInsert [] l.
End Sort.

(** [Number.prototype.toString(36)] on an integer. *)
Definition digit36 (d : N) : ascii :=
  if (d <? 10)%N then ascii_of_N (48 + d) else ascii_of_N (87 + d).

Fixpoint digits36 (fuel : nat) (n : N) (acc : string) : string :=
  let acc' := String (digit36 (n mod 36)) acc in
  match fuel with
  | O => acc'
  | S fuel' => if (n / 36 =? 0)%N then acc' else digits36 fuel' (n / 36) acc'
  end.

Definition toString36 (n : Z) : string :=
  let m := Z.abs_N n in
  let s := digits36 (N.to_nat (N.size m)) m "" in
  if (n <? 0)%Z then String "-" s else s.

(** ** Outcomes and the state monad of a method call *)

Inductive Result (A : Type) : Type :=
| Ok (a : A)
| Throw (message : string).
Arguments Ok {A} a.
Arguments Throw {A} message.

Definition M (S A : Type) : Type := S -> Result A * S.

Definition ret {S A} (a : A) : M S A := fun s => (Ok a, s).
Definition throw {S A} (message : string) : M S A := fun s => (Throw message, s).
Definition bind {S A B} (m : M S A) (k : A -> M S B) : M S B :=
  fun s => match m s with
           | (Ok a, s') => k a s'
           | (Throw e, s') => (Throw e, s')
           end.
(** [try { m } catch (error) { h error.message }] *)
Definition tryCatch {S A} (m : M S A) (h : string -> M S A) : M S A :=
  fun s => match m s with
           | (Ok a, s') => (Ok a, s')
           | (Throw e, s') => h e s'
           end.
Definition gets {S A} (f : S -> A) : M S A := fun s => (Ok (f s), s).
Definition modify {S} (f : S -> S) : M S unit := fun s => (Ok tt, f s).
Definition when {S} (b : bool) (m : M S unit) : M S unit := if b then m else ret tt.

Notation "'let*' x := m 'in' k" := (bind m (fun x => k))
  (at level 10, x name, m at level 100, k at level 200).
Notation "m >> k" := (bind m (fun _ => k))
  (at level 100, k at level 200, right associativity).

(** [for (const x of l) { body x }], and [l.forEach(body)]. *)
Fixpoint forOf {S A} (l : list A) (body : A -> M S unit) : M S unit :=
  match l with
  | [] => ret tt
  | x :: l' => body x >> forOf l' body
  end.

(** ** The host: clock, random numbers and [Date]

    [clock n] is the instant (milliseconds since the epoch) that the [n]-th
    reading of the system clock returns, [random n] what the [n]-th
    evaluation of [Math.random().toString(36).substr(2, 9)] returns.
    [toISOString] and [dateValue] are [Date.prototype.toISOString] and the
    time value of [new Date(string)], [None] standing for [NaN]. *)
Record Runtime : Type := {
  clock : nat -> Z;
  random : nat -> string;
  toISOString : Z -> string;
  dateValue : string -> option Z
}.

(** A reference implementation of the two [Date] functions on the format
    [YYYY-MM-DDTHH:mm:ss.sssZ], for years 0000 to 9999. *)
Module IsoDate.
Local Open Scope Z_scope.

Definition civilFromDays (z : Z) : Z * Z * Z :=
  let z := z + 719468 in
  let era := z / 146097 in
  let doe := z - era * 146097 in
  let yoe := (doe - doe / 1460 + doe / 36524 - doe / 146096) / 365 in
  let doy := doe - (365 * yoe + yoe / 4 - yoe / 100) in
  let mp := (5 * doy + 2) / 153 in
  let d := doy - (153 * mp + 2) / 5 + 1 in
  let m := if mp <? 10 then mp + 3 else mp - 9 in
  (if m <=? 2 then yoe + era * 400 + 1 else yoe + era * 400, m, d).

Definition daysFromCivil (y m d : Z) : Z :=
  let y := if m <=? 2 then y - 1 else y in
  let era := y / 400 in
  let yoe := y - era * 400 in
  let doy := (153 * (if m >? 2 then m - 3 else m + 9) + 2) / 5 + d - 1 in
  let doe := yoe * 365 + yoe / 4 - yoe / 100 + doy in
  era * 146097 + doe - 719468.

Definition digit (n : Z) : ascii := ascii_of_N (48 + Z.to_N (n mod 10)).

Fixpoint pad (width : nat) (n : Z) (acc : string) : string :=
  match width with
  | O => acc
  | S w => pad w (n / 10) (String (digit n) acc)
  end.

Definition format (t : Z) : string :=
  let '(y, m, d) := civilFromDays (t / 86400000) in
  let ms := t mod 86400000 in
  pad 4 y ("-" +:+ pad 2 m ("-" +:+ pad 2 d ("T" +:+
  pad 2 (ms / 3600000) (":" +:+ pad 2 (ms / 60000 mod 60) (":" +:+
  pad 2 (ms / 1000 mod 60) ("." +:+ pad 3 (ms mod 1000) "Z")))))).

Definition digitValue (c : ascii) : option Z :=
  let n := Z.of_N (N_of_ascii c) in
  if (48 <=? n) && (n <=? 57) then Some (n - 48) else None.

(** Reads [width] digits, then expects the separator [sep]. *)
Fixpoint number (width : nat) (acc : Z) (s : string) : option (Z * string) :=
  match width, s with
  | O, _ => Some (acc, s)
  | S w, String c s' => v ← digitValue c; number w (10 * acc + v) s'
  | S _, EmptyString => None
  end.

Definition field (width : nat) (sep : ascii) (s : string) : option (Z * string) :=
  '(v, s') ← number width 0 s;
  match s' with
  | String c s'' => if Ascii.eqb c sep then Some (v, s'') else None
  | EmptyString => None
  end.

Definition parse (s : string) : option Z :=
  '(y, s) ← field 4 "-" s;
  '(m, s) ← field 2 "-" s;
  '(d, s) ← field 2 "T" s;
  '(h, s) ← field 2 ":" s;
  '(mi, s) ← field 2 ":" s;
  '(sec, s) ← field 2 "." s;
  '(ms, s) ← field 3 "Z" s;
  if String.eqb s "" && (1 <=? m) && (m <=? 12) && (1 <=? d) && (d <=? 31)
     && (h <=? 23) && (mi <=? 59) && (sec <=? 59)
  then Some (daysFromCivil y m d * 86400000 + h * 3600000 + mi * 60000 + sec * 1000 + ms)
  else None.
End IsoDate.


(** ** The state [StorageManager] works on

    [cloudAvailable] is the value of [this.firestore && firebase.auth().currentUser];
    [cloud] is the Firestore collection [users/<uid>/brds], document id to
    document data; [drafts] and [tempData] are the [localStorage] entries
    [brd_drafts] and [brd_temp_data].  [remoteFaults] and [localFaults] give
    the outcome of the successive Firestore requests, and of the successive
    [localStorage.setItem] calls, from now on: [Some message] is a rejection
    (an exception) with that message, [None] and the end of the list are
    success.  [console] collects the [console.error] lines. *)

Inductive Slot (A : Type) : Type :=
| Absent                  (* [getItem] returns [null] *)
| Corrupt                 (* the stored text is not JSON: [JSON.parse] throws *)
| Stored (value : A).     (* the stored text is [JSON.stringify value] *)
Arguments Absent {A}.
Arguments Corrupt {A}.
Arguments Stored {A} value.

Record Store : Type := {
  runtime : Runtime;
  ticks : nat;
  draws : nat;
  cloudAvailable : bool;
  cloud : gmap string Obj;
  remoteFaults : list (option string);
  drafts : Slot (list Obj);
  tempData : Slot Obj;
  localFaults : list (option string);
  console : list string
}.

Definition set_ticks (v : nat) (s : Store) : Store :=
  {| runtime := runtime s; ticks := v; draws := draws s;
     cloudAvailable := cloudAvailable s; cloud := cloud s;
     remoteFaults := remoteFaults s; drafts := drafts s; tempData := tempData s;
     localFaults := localFaults s; console := console s |}.
Definition set_draws (v : nat) (s : Store) : Store :=
  {| runtime := runtime s; ticks := ticks s; draws := v;
     cloudAvailable := cloudAvailable s; cloud := cloud s;
     remoteFaults := remoteFaults s; drafts := drafts s; tempData := tempData s;
     localFaults := localFaults s; console := console s |}.
Definition set_cloud (v : gmap string Obj) (s : Store) : Store :=
  {| runtime := runtime s; ticks := ticks s; draws := draws s;
     cloudAvailable := cloudAvailable s; cloud := v;
     remoteFaults := remoteFaults s; drafts := drafts s; tempData := tempData s;
     localFaults := localFaults s; console := console s |}.
Definition set_remoteFaults (v : list (option string)) (s : Store) : Store :=
  {| runtime := runtime s; ticks := ticks s; draws := draws s;
     cloudAvailable := cloudAvailable s; cloud := cloud s;
     remoteFaults := v; drafts := drafts s; tempData := tempData s;
     localFaults := localFaults s; console := console s |}.
Definition set_drafts (v : Slot (list Obj)) (s : Store) : Store :=
  {| runtime := runtime s; ticks := ticks s; draws := draws s;
     cloudAvailable := cloudAvailable s; cloud := cloud s;
     remoteFaults := remoteFaults s; drafts := v; tempData := tempData s;
     localFaults := localFaults s; console := console s |}.
Definition set_tempData (v : Slot Obj) (s : Store) : Store :=
  {| runtime := runtime s; ticks := ticks s; draws := draws s;
     cloudAvailable := cloudAvailable s; cloud := cloud s;
     remoteFaults := remoteFaults s; drafts := drafts s; tempData := v;
     localFaults := localFaults s; console := console s |}.
Definition set_localFaults (v : list (option string)) (s : Store) : Store :=
  {| runtime := runtime s; ticks := ticks s; draws := draws s;
     cloudAvailable := cloudAvailable s; cloud := cloud s;
     remoteFaults := remoteFaults s; drafts := drafts s; tempData := tempData s;
     localFaults := v; console := console s |}.
Definition set_console (v : list string) (s : Store) : Store :=
  {| runtime := runtime s; ticks := ticks s; draws := draws s;
     cloudAvailable := cloudAvailable s; cloud := cloud s;
     remoteFaults := remoteFaults s; drafts := drafts s; tempData := tempData s;
     localFaults := localFaults s; console := v |}.

(** *** Host operations *)

(** One reading of the system clock. *)
Definition readClock : M Store Z :=
  fun s => (Ok (clock (runtime s) (ticks s)), set_ticks (S (ticks s)) s).

(** [new Date().toISOString()] *)
Definition newDateISO : M Store string :=
  let* t := readClock in
  let* rt := gets runtime in
  ret (toISOString rt t).

(** [Math.random().toString(36).substr(2, 9)] *)
Definition randomSuffix : M Store string :=
  fun s => (Ok (random (runtime s) (draws s)), set_draws (S (draws s)) s).

(** [console.error(label, error)] *)
Definition consoleError (line : string) : M Store unit :=
  modify (fun s => set_console (console s ++ [line]) s).

(** The next entry of a fault script decides a request. *)
Definition nextOutcome (faults : list (option string)) : option string * list (option string) :=
  match faults with
  | [] => (None, [])
  | o :: rest => (o, rest)
  end.

(** A round trip to Firestore: resolves or rejects. *)
Definition firestoreRequest : M Store unit :=
  fun s => match nextOutcome (remoteFaults s) with
           | (Some e, rest) => (Throw e, set_remoteFaults rest s)
           | (None, rest) => (Ok tt, set_remoteFaults rest s)
           end.

(** The exception test of [localStorage.setItem] (storage full or disabled). *)
Definition setItemRequest : M Store unit :=
  fun s => match nextOutcome (localFaults s) with
           | (Some e, rest) => (Throw e, set_localFaults rest s)
           | (None, rest) => (Ok tt, set_localFaults rest s)
           end.

(** [DocumentReference.set(data, { merge })]: with [merge] the fields of
    [data] are written over those of the document, without it the document
    is replaced. *)
Definition docSet (docId : string) (data : Obj) (merge : bool) : M Store unit :=
  firestoreRequest >>
  modify (fun s =>
    set_cloud (<[docId := if merge then data ∪ default ∅ (cloud s !! docId) else data]> (cloud s)) s).

(** The comparison of [orderBy(field, "desc")] on two documents: strings
    are ordered by their bytes. *)
Definition orderDesc (field : string) (a b : string * Obj) : Z :=
  match String.compare (default "" (b.2 !! field)) (default "" (a.2 !! field)) with
  | Lt => (-1)%Z
  | Eq => 0%Z
  | Gt => 1%Z
  end.

(** [collection.orderBy(field, "desc").get()]: the documents that have the
    field, largest first.  (Which of two documents with equal values comes
    first is Firestore's business; here it is their order in the map.) *)
Definition orderByDesc (field : string) (c : gmap string Obj) : list (string * Obj) :=
  sort (orderDesc field)
    (List.filter (fun d : string * Obj => bool_decide (is_Some (d.2 !! field)))
                 (map_to_list c)).

Definition orderByDescGet (field : string) : M Store (list (string * Obj)) :=
  firestoreRequest >>
  let* c := gets cloud in
  ret (orderByDesc field c).

(** ** [StorageManager] (js/storage.js) *)

Module StorageManager.

(** [canUseCloudStorage()] *)
Definition canUseCloudStorage : M Store bool := gets cloudAvailable.

(** [generateUniqueId()]:
    [Date.now().toString(36) + Math.random().toString(36).substr(2, 9)] *)
Definition generateUniqueId : M Store string :=
  let* t := readClock in
  let* r := randomSuffix in
  ret (toString36 t +:+ r).

(** [getLocalBRDs()] *)
Definition getLocalBRDs : M Store (list Obj) :=
  let* stored := gets drafts in
  match stored with
  | Stored brds => ret brds
  | Absent => ret []
  | Corrupt => consoleError "Error parsing localStorage BRDs:" >> ret []
  end.

(** [saveBRDToFirestore(brdData, mode)].  [collection.doc(id)] throws on an
    id that is not a non-empty string. *)
Definition saveBRDToFirestore (brdData : Obj) (mode : string) : M Store unit :=
  let* can := canUseCloudStorage in
  if negb can then throw "Cloud storage not available"
  else
    if truthy (brdData !! "id") then
      docSet (orElse (brdData !! "id") "") brdData (String.eqb mode "edit")
    else throw "Function CollectionReference.doc() requires a non-empty string".

(** The array that [saveBRDToLocalStorage] writes back: [brdData] put at
    [editIndex] when editing an index that holds a record, else over the
    first record with the same id, else at the end.  [editIndex] is [None]
    for [null]. *)
Definition upsertDraft (brdData : Obj) (mode : string) (editIndex : option nat)
    (brds : list Obj) : list Obj :=
  let byId :=
    match findIndex (fun d : Obj => strictEq (d !! "id") (brdData !! "id")) brds with
    | Some existingIndex => <[existingIndex := brdData]> brds
    | None => brds ++ [brdData]
    end in
  match editIndex with
  | Some i =>
      if String.eqb mode "edit" && bool_decide (is_Some (brds !! i))
      then <[i := brdData]> brds else byId
  | None => byId
  end.

(** [saveBRDToLocalStorage(brdData, mode, editIndex)] *)
Definition saveBRDToLocalStorage (brdData : Obj) (mode : string) (editIndex : option nat)
  : M Store unit :=
  let* brds := getLocalBRDs in
  setItemRequest >>
  modify (set_drafts (Stored (upsertDraft brdData mode editIndex brds))).

(** The object [brdWithMeta] of [saveBRD], for the id and the time it has
    settled on:
    [{ ...brdData, id, lastUpdated: currentTime,
       createdAt: brdData.createdAt || currentTime,
       title: brdData.title || "BRD Tanpa Judul" }] *)
Definition brdWithMeta (brdData : Obj) (id currentTime : string) : Obj :=
  <["title" := orElse (brdData !! "title") "BRD Tanpa Judul"]>
  (<["createdAt" := orElse (brdData !! "createdAt") currentTime]>
  (<["lastUpdated" := currentTime]>
  (<["id" := id]> brdData))).

(** [saveBRD(brdData, mode, editIndex)] *)
Definition saveBRD (brdData : Obj) (mode : string) (editIndex : option nat) : M Store string :=
  tryCatch
    (let* currentTime := newDateISO in
     let* id :=
       (if truthy (brdData !! "id") then ret (orElse (brdData !! "id") "")
        else generateUniqueId) in
     let* can := canUseCloudStorage in
     when can (saveBRDToFirestore (brdWithMeta brdData id currentTime) mode) >>
     saveBRDToLocalStorage (brdWithMeta brdData id currentTime) mode editIndex >>
     ret id)
    (fun error =>
       consoleError ("Error saving BRD: " +:+ error) >>
       throw ("Gagal menyimpan BRD: " +:+ error)).

(** [{ id: doc.id, ...doc.data() }] *)
Definition docObject (doc : string * Obj) : Obj := doc.2 ∪ {["id" := doc.1]}.

(** [loadBRDsFromFirestore()] *)
Definition loadBRDsFromFirestore : M Store (list Obj) :=
  let* can := canUseCloudStorage in
  if negb can then ret []
  else
    let* snapshot := orderByDescGet "lastUpdated" in
    ret (docObject <$> snapshot).

(** [syncBRDsToLocalStorage(brds)] *)
Definition syncBRDsToLocalStorage (brds : list Obj) : M Store unit :=
  tryCatch
    (setItemRequest >> modify (set_drafts (Stored brds)))
    (fun error => consoleError ("Error syncing to localStorage: " +:+ error)).

(** The time value of [new Date(v)] for a property read [v]. *)
Definition newDate (rt : Runtime) (v : option string) : option Z :=
  v ≫= dateValue rt.

(** [(a, b) => new Date(b.lastUpdated) - new Date(a.lastUpdated)], a [NaN]
    difference read as [+0]. *)
Definition byLastUpdated (rt : Runtime) (a b : Obj) : Z :=
  match newDate rt (b !! "lastUpdated"), newDate rt (a !! "lastUpdated") with
  | Some tb, Some ta => (tb - ta)%Z
  | _, _ => 0%Z
  end.

(** [loadBRDs()] *)
Definition loadBRDs : M Store (list Obj) :=
  tryCatch
    (let* can := canUseCloudStorage in
     let* brds :=
       (if can then
          let* fetched := loadBRDsFromFirestore in
          syncBRDsToLocalStorage fetched >>
          ret fetched
        else getLocalBRDs) in
     let* rt := gets runtime in
     ret (sort (byLastUpdated rt) brds))
    (fun error =>
       consoleError ("Error loading BRDs: " +:+ error) >>
       getLocalBRDs).

(** [getTempData()] *)
Definition getTempData : M Store Obj :=
  let* stored := gets tempData in
  match stored with
  | Stored data => ret data
  | Absent => ret ∅
  | Corrupt => consoleError "Error getting temp data:" >> ret ∅
  end.

(** [saveTempData(data)]; [{ ...existing, ...data }] is [data ∪ existing]. *)
Definition saveTempData (data : Obj) : M Store unit :=
  tryCatch
    (let* existing := getTempData in
     setItemRequest >>
     modify (set_tempData (Stored (data ∪ existing))))
    (fun error => consoleError ("Error saving temp data: " +:+ error)).

(** [clearTempData()] *)
Definition clearTempData : M Store unit := modify (set_tempData Absent).

(** [existsInCloud] of [migrateLocalToCloud] for one local record. *)
Definition existsInCloud (cloudBRDs : list Obj) (localBRD : Obj) : bool :=
  some (fun cloudBRD : Obj =>
          strictEq (cloudBRD !! "title") (localBRD !! "title")
          && strictEq (cloudBRD !! "createdAt") (localBRD !! "createdAt"))
       cloudBRDs.

(** The loop of [migrateLocalToCloud] over the local records left, with
    [migratedCount] so far. *)
Fixpoint migrateEach (cloudBRDs : list Obj) (localBRDs : list Obj) (migratedCount : nat)
  : M Store nat :=
  match localBRDs with
  | [] => ret migratedCount
  | localBRD :: rest =>
      if negb (existsInCloud cloudBRDs localBRD) then
        saveBRDToFirestore localBRD "new" >>
        migrateEach cloudBRDs rest (S migratedCount)
      else migrateEach cloudBRDs rest migratedCount
  end.

(** [migrateLocalToCloud()] *)
Definition migrateLocalToCloud : M Store nat :=
  let* can := canUseCloudStorage in
  if negb can then ret 0
  else
    tryCatch
      (let* localBRDs := getLocalBRDs in
       let* cloudBRDs := loadBRDsFromFirestore in
       migrateEach cloudBRDs localBRDs 0)
      (fun error =>
         consoleError ("Error migrating to cloud: " +:+ error) >>
         ret 0).

(** *** The rest of the class *)

(** What [loadBRD] and [deleteBRD] are given: a number, read as an index
    into the list of [loadBRDs], or a string, read as an id. *)
Inductive Identifier : Type :=
| Index (i : Z)
| Id (id : string).

(** [brds[i]] for an integer [i]. *)
Definition at_ {A} (brds : list A) (i : Z) : option A :=
  if (i <? 0)%Z then None else brds !! Z.to_nat i.

(** [loadBRD(identifier)] *)
Definition loadBRD (identifier : Identifier) : M Store (option Obj) :=
  tryCatch
    (let* brds := loadBRDs in
     match identifier with
     | Index i => ret (at_ brds i)
     | Id id => ret (List.find (fun brd : Obj => strictEq (brd !! "id") (Some id)) brds)
     end)
    (fun error =>
       consoleError ("Error loading BRD: " +:+ error) >>
       ret None).

(** [deleteBRDFromFirestore(brdId)]; as in [saveBRDToFirestore],
    [collection.doc(id)] throws on an id that is not a non-empty string. *)
Definition deleteBRDFromFirestore (brdId : option string) : M Store unit :=
  let* can := canUseCloudStorage in
  if negb can then ret tt
  else
    if truthy brdId then
      firestoreRequest >>
      modify (fun s => set_cloud (delete (orElse brdId "") (cloud s)) s)
    else throw "Function CollectionReference.doc() requires a non-empty string".

(** [deleteBRD(identifier)]; [indexToDelete] is [-1] when [findIndex]
    finds nothing. *)
Definition deleteBRD (identifier : Identifier) : M Store bool :=
  tryCatch
    (let* brds := loadBRDs in
     let indexToDelete : Z :=
       match identifier with
       | Index i => i
       | Id id =>
           match findIndex (fun brd : Obj => strictEq (brd !! "id") (Some id)) brds with
           | Some i => Z.of_nat i
           | None => (-1)%Z
           end
       end in
     match at_ brds indexToDelete with
     | None => throw "BRD tidak ditemukan"
     | Some brdToDelete =>
         let* can := canUseCloudStorage in
         when can (deleteBRDFromFirestore (brdToDelete !! "id")) >>
         let* localBRDs := getLocalBRDs in
         match findIndex (fun brd : Obj => strictEq (brd !! "id") (brdToDelete !! "id"))
                         localBRDs with
         | Some localIndex =>
             setItemRequest >>
             modify (set_drafts (Stored (delete localIndex localBRDs))) >>
             ret true
         | None => ret true
         end
     end)
    (fun error =>
       consoleError ("Error deleting BRD: " +:+ error) >>
       throw ("Gagal menghapus BRD: " +:+ error)).

(** [loadTempDataForEditing(brdData)] *)
Definition loadTempDataForEditing (brdData : Obj) : M Store unit :=
  tryCatch
    (setItemRequest >> modify (set_tempData (Stored brdData)))
    (fun error => consoleError ("Error loading data for editing: " +:+ error)).

(** [clearAllLocalData()] *)
Definition clearAllLocalData : M Store unit :=
  modify (fun s => set_tempData Absent (set_drafts Absent s)).

(** What the first statements of [importBRDs] make of the text they are
    given: [JSON.parse] throws (or the value is [null], and reading its
    [brds] throws), with this message; or the value has no array [brds];
    or it has one, whose elements are the records. *)
Inductive ImportFile : Type :=
| NotJSON (message : string)
| NoBRDs
| BRDs (brds : list Obj).

(** The loop of [importBRDs] over the records left, with [importedCount]
    so far. *)
Fixpoint importEach (brds : list Obj) (importedCount : nat) : M Store nat :=
  match brds with
  | [] => ret importedCount
  | brdData :: rest =>
      let* imported :=
        tryCatch
          (let* id := generateUniqueId in
           let* importedAt := newDateISO in
           saveBRD (<["importedAt" := importedAt]> (<["id" := id]> brdData)) "new" None >>
           ret true)
          (fun error =>
             consoleError ("Error importing individual BRD: " +:+ error) >>
             ret false) in
      importEach rest (if imported then S importedCount else importedCount)
  end.

(** [importBRDs(jsonString)] *)
Definition importBRDs (file : ImportFile) : M Store nat :=
  tryCatch
    (match file with
     | NotJSON message => throw message
     | NoBRDs => throw "Format file tidak valid"
     | BRDs brds => importEach brds 0
     end)
    (fun error =>
       consoleError ("Error importing BRDs: " +:+ error) >>
       throw ("Gagal mengimpor BRD: " +:+ error)).

End StorageManager.

(** ** The form schema, the page and the state of [FormGenerator] *)

(** [validation: { minLength, maxLength }] of a field definition. *)
Record Validation : Type := {
  minLength : option nat;
  maxLength : option nat
}.

(** A field definition; the properties that only shape the markup
    ([label], [placeholder], [rows]) are left out. *)
Record Field : Type := {
  field_type : string;
  field_id : string;
  field_name : string;
  field_required : bool;
  field_validation : option Validation;
  field_defaultValue : option string
}.

Record Section : Type := {
  section_id : string;
  section_title : string;
  fields : list Field
}.

(** An input, textarea or select of the form, with the two things
    [markFieldInvalid] changes: the class [invalid-field] and the text of
    the [.field-error] paragraph next to it ([None]: no such paragraph). *)
Record Element : Type := {
  el_id : string;
  el_name : string;
  el_value : string;
  el_invalid : bool;
  el_error : option string
}.

(** [brdForm] is the content of the element [#brd-form], its inputs in
    document order, or [None] when the page has no such element;
    [toasts] are the calls of [window.showToast], message and type;
    [storage] is the global [storage] object. *)
Record Wizard : Type := {
  currentStep : nat;
  sections : list Section;
  mode : string;
  editIndex : option nat;
  formData : Obj;
  brdForm : option (list Element);
  toasts : list (string * string);
  storage : Store
}.

Definition set_currentStep (v : nat) (w : Wizard) : Wizard :=
  {| currentStep := v; sections := sections w; mode := mode w; editIndex := editIndex w;
     formData := formData w; brdForm := brdForm w; toasts := toasts w; storage := storage w |}.
Definition set_formData (v : Obj) (w : Wizard) : Wizard :=
  {| currentStep := currentStep w; sections := sections w; mode := mode w; editIndex := editIndex w;
     formData := v; brdForm := brdForm w; toasts := toasts w; storage := storage w |}.
Definition set_brdForm (v : option (list Element)) (w : Wizard) : Wizard :=
  {| currentStep := currentStep w; sections := sections w; mode := mode w; editIndex := editIndex w;
     formData := formData w; brdForm := v; toasts := toasts w; storage := storage w |}.
Definition set_toasts (v : list (string * string)) (w : Wizard) : Wizard :=
  {| currentStep := currentStep w; sections := sections w; mode := mode w; editIndex := editIndex w;
     formData := formData w; brdForm := brdForm w; toasts := v; storage := storage w |}.
Definition set_storage (v : Store) (w : Wizard) : Wizard :=
  {| currentStep := currentStep w; sections := sections w; mode := mode w; editIndex := editIndex w;
     formData := formData w; brdForm := brdForm w; toasts := toasts w; storage := v |}.

(** A call into the global [storage] object. *)
Definition onStorage {A} (m : M Store A) : M Wizard A :=
  fun w => let '(r, s') := m (storage w) in (r, set_storage s' w).

(** [window.showToast(message, type)] *)
Definition showToast (message type : string) : M Wizard unit :=
  modify (fun w => set_toasts (toasts w ++ [(message, type)]) w).

(** *** Strings *)

(** White space and line terminators among the code units below 256. *)
Definition isWhiteSpace (c : ascii) : bool :=
  let n := N_of_ascii c in
  ((9 <=? n) && (n <=? 13) || (n =? 32) || (n =? 160))%N.

Fixpoint trimStart (s : string) : string :=
  match s with
  | String c s' => if isWhiteSpace c then trimStart s' else s
  | EmptyString => EmptyString
  end.

Fixpoint trimEnd (s : string) : string :=
  match s with
  | String c s' =>
      match trimEnd s' with
      | EmptyString => if isWhiteSpace c then EmptyString else String c EmptyString
      | rest => String c rest
      end
  | EmptyString => EmptyString
  end.

(** [String.prototype.trim] *)
Definition trim (s : string) : string := trimEnd (trimStart s).

(** *** [FormGenerator] (js/form-generator.js) *)

Module FormGenerator.

Definition field (type id : string) (required : bool) (validation : option Validation)
    (defaultValue : option string) : Field :=
  {| field_type := type; field_id := id; field_name := id; field_required := required;
     field_validation := validation; field_defaultValue := defaultValue |}.

(** The table of [initializeSections()]; [today] is the value of
    [new Date().toISOString().split("T")[0]] when the object is built. *)
Definition initializeSections (today : string) : list Section := [
  {| section_id := "document-info";
     section_title := "Informasi Dokumen";
     fields := [
      field "text" "title" true (Some {| minLength := Some 5; maxLength := Some 100 |}) None;
      field "text" "nama-perusahaan" true (Some {| minLength := Some 2; maxLength := Some 100 |}) None;
      field "text" "versi" true None (Some "1.0");
      field "date" "tanggal" true None (Some today);
      field "textarea" "deskripsi-singkat" false (Some {| minLength := None; maxLength := Some 500 |}) None ] |};
  {| section_id := "project-overview";
     section_title := "Gambaran Umum Proyek";
     fields := [
      field "textarea" "latar-belakang" true (Some {| minLength := Some 50; maxLength := Some 2000 |}) None;
      field "textarea" "tujuan" true (Some {| minLength := Some 30; maxLength := Some 1500 |}) None;
      field "textarea" "ruang-lingkup" false (Some {| minLength := None; maxLength := Some 1500 |}) None;
      field "textarea" "manfaat" false (Some {| minLength := None; maxLength := Some 1000 |}) None ] |};
  {| section_id := "stakeholders";
     section_title := "Stakeholder";
     fields := [
      field "text" "project-sponsor" true None None;
      field "text" "project-manager" true None None;
      field "text" "business-analyst" false None None;
      field "textarea" "stakeholder-lain" false None None ] |};
  {| section_id := "requirements";
     section_title := "Kebutuhan Fungsional";
     fields := [
      field "textarea" "kebutuhan-utama" true (Some {| minLength := Some 50; maxLength := None |}) None;
      field "textarea" "kebutuhan-tambahan" false None None;
      field "textarea" "proses-bisnis" false None None ] |};
  {| section_id := "non-functional";
     section_title := "Kebutuhan Non-Fungsional";
     fields := [
      field "textarea" "performa" false None None;
      field "textarea" "keamanan" false None None;
      field "textarea" "skalabilitas" false None None;
      field "textarea" "kompatibilitas" false None None ] |};
  {| section_id := "constraints";
     section_title := "Batasan dan Asumsi";
     fields := [
      field "textarea" "batasan-teknis" false None None;
      field "textarea" "batasan-anggaran" false None None;
      field "textarea" "batasan-waktu" false None None;
      field "textarea" "asumsi" false None None ] |};
  {| section_id := "timeline";
     section_title := "Timeline dan Milestone";
     fields := [
      field "date" "tanggal-mulai" true None None;
      field "date" "tanggal-selesai" true None None;
      field "textarea" "milestone" false None None;
      field "textarea" "deliverables" false None None ] |};
  {| section_id := "approval";
     section_title := "Persetujuan";
     fields := [
      field "text" "prepared-by" true None None;
      field "text" "reviewed-by" false None None;
      field "text" "approved-by" false None None;
      field "textarea" "catatan-persetujuan" false None None ] |}
].

(** [`input-${field.id}`], the id of the input of a field. *)
Definition fieldId (field : Field) : string := "input-" +:+ field_id field.

(** [markFieldInvalid(element, message)] *)
Definition markFieldInvalid (element : Element) (message : string) : Element :=
  {| el_id := el_id element; el_name := el_name element; el_value := el_value element;
     el_invalid := true; el_error := Some message |}.

(** What [validateField] has done so far: the value of [isValid], and the
    messages of its [markFieldInvalid(element, _)] calls, in order. *)
Definition Verdict : Type := bool * list string.

(** [this.markFieldInvalid(element, message); isValid = false;] *)
Definition invalid (message : string) (v : Verdict) : Verdict :=
  (false, v.2 ++ [message]).

(** [validateField(field, element)] *)
Definition validateField (field : Field) (element : Element) : Verdict :=
  let value := trim (el_value element) in
  let v : Verdict := (true, []) in
  let v :=
    if field_required field && negb (truthy (Some value))
    then invalid "Field ini wajib diisi" v else v in
  match field_validation field with
  | Some validation =>
      if truthy (Some value) then
        let v :=
          if truthyNumber (minLength validation)
             && (String.length value <? default 0 (minLength validation))
          then invalid ("Minimal " +:+ pretty (default 0 (minLength validation)) +:+ " karakter") v
          else v in
        let v :=
          if truthyNumber (maxLength validation)
             && (default 0 (maxLength validation) <? String.length value)
          then invalid ("Maksimal " +:+ pretty (default 0 (maxLength validation)) +:+ " karakter") v
          else v in
        v
      else v
  | None => v
  end.

(** [document.getElementById(id)] among the inputs of the form. *)
Definition getElementById (id : string) (inputs : list Element) : option Element :=
  List.find (fun e => String.eqb (el_id e) id) inputs.

(** The inputs after the element with this id, the first in document
    order, has been changed by [f]. *)
Fixpoint updateElement (id : string) (f : Element -> Element) (inputs : list Element)
  : list Element :=
  match inputs with
  | [] => []
  | e :: rest => if String.eqb (el_id e) id then f e :: rest
                 else e :: updateElement id f rest
  end.

Definition inputsOf (w : Wizard) : list Element := default [] (brdForm w).

Definition setInputs (inputs : list Element) (w : Wizard) : Wizard :=
  match brdForm w with
  | Some _ => set_brdForm (Some inputs) w
  | None => w
  end.

(** [el.classList.remove("invalid-field")] *)
Definition clearInvalid (e : Element) : Element :=
  {| el_id := el_id e; el_name := el_name e; el_value := el_value e;
     el_invalid := false; el_error := el_error e |}.

(** The body of [currentSection.fields.forEach] in [validateCurrentSection],
    over the fields left, with [isValid] so far. *)
Fixpoint validateEach (fields : list Field) (isValid : bool) : M Wizard bool :=
  match fields with
  | [] => ret isValid
  | field :: rest =>
      let* inputs := gets inputsOf in
      match getElementById (fieldId field) inputs with
      | Some element =>
          let '(ok, messages) := validateField field element in
          modify (setInputs
                    (updateElement (fieldId field)
                       (fun e => foldl markFieldInvalid e messages) inputs)) >>
          validateEach rest (if negb ok then false else isValid)
      | None => validateEach rest isValid
      end
  end.

(** [validateCurrentSection()] *)
Definition validateCurrentSection : M Wizard bool :=
  let* w := gets (fun w => w) in
  modify (fun w => setInputs (clearInvalid <$> inputsOf w) w) >>
  match sections w !! currentStep w with
  | None => throw "Cannot read properties of undefined (reading 'fields')"
  | Some currentSection =>
      let* isValid := validateEach (fields currentSection) true in
      when (negb isValid)
        (showToast "Mohon isi semua kolom yang diperlukan dengan benar" "error") >>
      ret isValid
  end.

(** The object [getCurrentFormData] builds from the inputs of the form:
    [if (input.name) data[input.name] = input.value] for each in turn. *)
Definition formDataOf (inputs : list Element) : Obj :=
  foldl (fun (data : Obj) input =>
           if negb (String.eqb (el_name input) "")
           then <[el_name input := el_value input]> data else data)
        ∅ inputs.

(** [getCurrentFormData()] *)
Definition getCurrentFormData : M Wizard Obj :=
  let* inputs := gets inputsOf in
  ret (formDataOf inputs).

(** [saveCurrentSectionData()]; [Object.assign(this.formData, currentFormData)]
    is [currentFormData ∪ this.formData]. *)
Definition saveCurrentSectionData : M Wizard unit :=
  let* currentFormData := getCurrentFormData in
  modify (fun w => set_formData (currentFormData ∪ formData w) w) >>
  let* data := gets formData in
  onStorage (StorageManager.saveTempData data).

(** The input that [createFieldElement(field)] builds.  A select starts on
    its empty option, the other kinds on the default value if there is one. *)
Definition createFieldElement (field : Field) : Element :=
  {| el_id := fieldId field;
     el_name := field_name field;
     el_value := if String.eqb (field_type field) "select" then ""
                 else orElse (field_defaultValue field) "";
     el_invalid := false;
     el_error := None |}.

(** [buildSectionForm(section)] *)
Definition buildSectionForm (section : Section) : M Wizard unit :=
  modify (setInputs (createFieldElement <$> fields section)).

(** The body of [section.fields.forEach] in [loadSavedSectionData].  The
    assignment [element.value = tempData[field.name]] is modelled as
    storing the string; what the element makes of a string it does not
    accept (its value sanitization) is not: see [keptBy] below for the
    values on which the two agree. *)
Definition loadSavedField (tempData : Obj) (field : Field) : M Wizard unit :=
  let* inputs := gets inputsOf in
  match getElementById (fieldId field) inputs with
  | Some _ =>
      when (truthy (tempData !! field_name field))
        (modify (setInputs
           (updateElement (fieldId field)
              (fun e => {| el_id := el_id e; el_name := el_name e;
                           el_value := orElse (tempData !! field_name field) "";
                           el_invalid := el_invalid e; el_error := el_error e |})
              inputs)))
  | None => ret tt
  end.

(** [loadSavedSectionData(section)] *)
Definition loadSavedSectionData (section : Section) : M Wizard unit :=
  let* tempData := onStorage StorageManager.getTempData in
  forOf (fields section) (loadSavedField tempData).

(** [loadFormSection(index)]; the sidebar and the buttons it repaints are
    not part of the state. *)
Definition loadFormSection (index : nat) : M Wizard unit :=
  let* secs := gets sections in
  match secs !! index with
  | None => onStorage (consoleError "Invalid section index:")
  | Some section =>
      modify (set_currentStep index) >>
      buildSectionForm section >>
      loadSavedSectionData section
  end.

(** [navigatePrevious()] *)
Definition navigatePrevious : M Wizard unit :=
  let* step := gets currentStep in
  when (0 <? step)
    (saveCurrentSectionData >> loadFormSection (step - 1)).

(** [saveBRD()]; the delayed return to the main menu is not part of the
    state. *)
Definition saveBRD : M Wizard string :=
  tryCatch
    (saveCurrentSectionData >>
     let* data := gets formData in
     let* id :=
       (if truthy (data !! "id") then ret (orElse (data !! "id") "")
        else onStorage StorageManager.generateUniqueId) in
     let* lastUpdated := onStorage newDateISO in
     let* createdAt :=
       (if truthy (data !! "createdAt") then ret (orElse (data !! "createdAt") "")
        else onStorage newDateISO) in
     let brdData : Obj :=
       <["createdAt" := createdAt]> (<["lastUpdated" := lastUpdated]> (<["id" := id]> data)) in
     let* w := gets (fun w => w) in
     let* brdId := onStorage (StorageManager.saveBRD brdData (mode w) (editIndex w)) in
     onStorage StorageManager.clearTempData >>
     showToast "BRD berhasil disimpan!" "success" >>
     ret brdId)
    (fun error =>
       onStorage (consoleError ("Error saving BRD: " +:+ error)) >>
       showToast ("Gagal menyimpan BRD: " +:+ error) "error" >>
       throw error).

(** [navigateNext()] *)
Definition navigateNext : M Wizard unit :=
  let* valid := validateCurrentSection in
  when valid
    (saveCurrentSectionData >>
     let* w := gets (fun w => w) in
     if (Z.of_nat (currentStep w) <? Z.of_nat (length (sections w)) - 1)%Z
     then loadFormSection (currentStep w + 1)
     else saveBRD >> ret tt).

(** The click listener that [buildSidebarNav()] puts on the sidebar item
    of section [index], for every index of [this.sections]. *)
Definition sidebarItemClick (index : nat) : M Wizard unit :=
  let* step := gets currentStep in
  when (negb (step =? index))
    (saveCurrentSectionData >> loadFormSection index).

(** *** Starting and leaving the wizard *)

Definition set_mode (v : string) (w : Wizard) : Wizard :=
  {| currentStep := currentStep w; sections := sections w; mode := v; editIndex := editIndex w;
     formData := formData w; brdForm := brdForm w; toasts := toasts w; storage := storage w |}.
Definition set_editIndex (v : option nat) (w : Wizard) : Wizard :=
  {| currentStep := currentStep w; sections := sections w; mode := mode w; editIndex := v;
     formData := formData w; brdForm := brdForm w; toasts := toasts w; storage := storage w |}.

(** [loadBRDForEditing(index)] *)
Definition loadBRDForEditing (index : nat) : M Wizard unit :=
  tryCatch
    (let* brdData := onStorage (StorageManager.loadBRD (StorageManager.Index (Z.of_nat index))) in
     match brdData with
     | Some brdData =>
         modify (set_formData brdData) >>
         onStorage (StorageManager.loadTempDataForEditing brdData)
     | None => ret tt
     end)
    (fun error =>
       onStorage (consoleError ("Error loading BRD for editing: " +:+ error)) >>
       showToast "Gagal memuat data BRD untuk edit" "error").

(** [generateForm(mode, editIndex)]; the sidebar, the buttons and the user
    area it paints are not part of the state, and painting them is taken
    not to throw (the page has loaded the Firebase script that
    [updateSidebarUserInfo] consults). *)
Definition generateForm (mode : string) (editIndex : option nat) : M Wizard unit :=
  modify (set_mode mode) >>
  modify (set_editIndex editIndex) >>
  modify (set_currentStep 0) >>
  tryCatch
    (modify (setInputs []) >>
     match editIndex with
     | Some index => when (String.eqb mode "edit") (loadBRDForEditing index)
     | None => ret tt
     end >>
     loadFormSection 0)
    (fun error =>
       onStorage (consoleError ("Error generating form: " +:+ error)) >>
       throw ("Gagal membuat form: " +:+ error)).

(** [reset()] *)
Definition reset : M Wizard unit :=
  modify (set_currentStep 0) >>
  modify (set_formData ∅) >>
  modify (set_mode "new") >>
  modify (set_editIndex None) >>
  onStorage StorageManager.clearTempData.

(** [clearFieldValidation(element)], what the [input] listener of an
    input does. *)
Definition clearFieldValidation (element : Element) : Element :=
  {| el_id := el_id element; el_name := el_name element; el_value := el_value element;
     el_invalid := false; el_error := None |}.

End FormGenerator.

(** ** Vocabulary of the statements *)

(** *** The store *)

(** What the next request of a fault script does: [None] is success. *)
Definition nextFault (faults : list (option string)) : option string :=
  (nextOutcome faults).1.

(** The records of the local cache, as [getLocalBRDs] reads them. *)
Definition localList (s : Store) : list Obj :=
  match drafts s with
  | Stored brds => brds
  | _ => []
  end.

(** The Draft, as [getTempData] reads it. *)
Definition draftOf (s : Store) : Obj :=
  match tempData s with
  | Stored data => data
  | _ => ∅
  end.

(** What [loadBRDsFromFirestore] reads from a collection. *)
Definition fetched (c : gmap string Obj) : list Obj :=
  StorageManager.docObject <$> orderByDesc "lastUpdated" c.

(** *** Saving *)

(** The string [new Date().toISOString()] gives at the next reading of the
    clock. *)
Definition currentTimeAt (s : Store) : string :=
  toISOString (runtime s) (clock (runtime s) (ticks s)).

(** The id [saveBRD] settles on in state [s]: the one of the record if it
    is truthy, else the one [generateUniqueId] makes after the clock has
    been read once. *)
Definition idFor (brdData : Obj) (s : Store) : string :=
  if truthy (brdData !! "id") then orElse (brdData !! "id") ""
  else toString36 (clock (runtime s) (S (ticks s))) +:+ random (runtime s) (draws s).

(** The state once [saveBRD] has read the clock and settled the id. *)
Definition stamped (brdData : Obj) (s : Store) : Store :=
  if truthy (brdData !! "id") then set_ticks (S (ticks s)) s
  else set_draws (S (draws s)) (set_ticks (S (S (ticks s))) s).

(** *** Listing *)

(** The time value of the [lastUpdated] of a record. *)
Definition lastUpdatedTime (rt : Runtime) (brd : Obj) : option Z :=
  StorageManager.newDate rt (brd !! "lastUpdated").

(** [a] may stand just before [b] in a list that has the newest first. *)
Definition newestFirst (rt : Runtime) (a b : Obj) : Prop :=
  ∃ ta tb, lastUpdatedTime rt a = Some ta ∧ lastUpdatedTime rt b = Some tb ∧ (tb <= ta)%Z.

(** *** Migrating *)

(** The local records [migrateLocalToCloud] does not find in the cloud,
    in the order of the local cache. *)
Definition toMigrate (cloudBRDs localBRDs : list Obj) : list Obj :=
  List.filter (fun localBRD => negb (StorageManager.existsInCloud cloudBRDs localBRD)) localBRDs.

(** The collection after [doc(brd.id).set(brd)] for each of the records
    in turn. *)
Definition pushAll (c : gmap string Obj) (brds : list Obj) : gmap string Obj :=
  foldl (fun (c : gmap string Obj) (brd : Obj) => <[orElse (brd !! "id") "" := brd]> c) c brds.

(** *** Validating *)

(** The two bounds of a field definition, [None] where it has none. *)
Definition minOf (field : Field) : option nat := field_validation field ≫= minLength.
Definition maxOf (field : Field) : option nat := field_validation field ≫= maxLength.

(** The three tests of [validateField] on a trimmed value. *)
Definition missingRequired (field : Field) (value : string) : bool :=
  field_required field && negb (truthy (Some value)).
Definition tooShort (field : Field) (value : string) : bool :=
  truthy (Some value) && truthyNumber (minOf field)
  && (String.length value <? default 0 (minOf field)).
Definition tooLong (field : Field) (value : string) : bool :=
  truthy (Some value) && truthyNumber (maxOf field)
  && (default 0 (maxOf field) <? String.length value).

(** Whether the input of a field exists among [inputs] and fails
    [validateField]. *)
Definition fieldFails (inputs : list Element) (field : Field) : bool :=
  match FormGenerator.getElementById (FormGenerator.fieldId field) inputs with
  | Some element => negb (FormGenerator.validateField field element).1
  | None => false
  end.

(** The fields of a section that are invalid on the page. *)
Definition invalidFields (section : Section) (inputs : list Element) : list Field :=
  List.filter (fieldFails inputs) (fields section).

(** The inputs that carry the class [invalid-field]. *)
Definition flagged (inputs : list Element) : list Element := List.filter el_invalid inputs.

(** No input carries it. *)
Definition clean (inputs : list Element) : Prop :=
  Forall (fun e => el_invalid e = false) inputs.

(** The failures the page shows: the inputs that carry the class
    [invalid-field], each with its id and the text of its error paragraph.
    (An error paragraph next to an input without the class is a leftover
    of an earlier validation: [validateCurrentSection] removes the class
    from every input before it validates, not the paragraphs.) *)
Definition failures (w : Wizard) : list (string * string) :=
  (fun e => (el_id e, default "" (el_error e))) <$> flagged (FormGenerator.inputsOf w).

(** The inputs after one round of the loop of [validateCurrentSection],
    and after the loop. *)
Definition markField (field : Field) (inputs : list Element) : list Element :=
  match FormGenerator.getElementById (FormGenerator.fieldId field) inputs with
  | Some element =>
      FormGenerator.updateElement (FormGenerator.fieldId field)
        (fun e => foldl FormGenerator.markFieldInvalid e
                        (FormGenerator.validateField field element).2)
        inputs
  | None => inputs
  end.

Definition markEach (fields : list Field) (inputs : list Element) : list Element :=
  foldl (fun inputs field => markField field inputs) inputs fields.

(** What validation reads of an input: its id and its value. *)
Definition shape (e : Element) : string * string := (el_id e, el_value e).

(** *** Looking up and deleting *)

(** [brd.id === id] *)
Definition hasId (id : string) (brd : Obj) : bool := strictEq (brd !! "id") (Some id).

(** The ids of a list of records, [None] for a record without one. *)
Definition idsOf (brds : list Obj) : list (option string) :=
  (fun brd : Obj => brd !! "id") <$> brds.

(** The list [loadBRDs] returns in state [s]. *)
Definition shown (s : Store) : list Obj :=
  if cloudAvailable s then
    match nextFault (remoteFaults s) with
    | None => sort (StorageManager.byLastUpdated (runtime s)) (fetched (cloud s))
    | Some _ => localList s
    end
  else sort (StorageManager.byLastUpdated (runtime s)) (localList s).

(** The fault script once its next request has been decided. *)
Definition afterRequest (faults : list (option string)) : list (option string) :=
  (nextOutcome faults).2.
(** The record an identifier designates in a list: the one at the index,
    or the first one with the id. *)
Definition designated (identifier : StorageManager.Identifier) (brds : list Obj) : option Obj :=
  match identifier with
  | StorageManager.Index i => StorageManager.at_ brds i
  | StorageManager.Id id => List.find (hasId id) brds
  end.

(** [brd.id === other.id] *)
Definition sameId (other brd : Obj) : bool := strictEq (brd !! "id") (other !! "id").
(** *** Importing *)

(** No request of a fault script fails. *)
Definition allSucceed (faults : list (option string)) : Prop :=
  Forall (fun o => o = None) faults.

(** How many of the next [n] requests of a fault script succeed. *)
Fixpoint successes (n : nat) (faults : list (option string)) : nat :=
  match n with
  | O => O
  | S n' =>
      (match nextFault faults with None => 1 | Some _ => 0 end)
      + successes n' (afterRequest faults)
  end.

(** The record that [importBRDs], started in state [s], stores for the
    [k]-th record of the file when no request fails: each record takes
    three readings of the clock (for the id, for [importedAt] and for the
    time of the save) and one random suffix. *)
Definition importedRecord (s : Store) (k : nat) (brdData : Obj) : Obj :=
  let rt := runtime s in
  let id := toString36 (clock rt (ticks s + 3 * k)) +:+ random rt (draws s + k) in
  StorageManager.brdWithMeta
    (<["importedAt" := toISOString rt (clock rt (ticks s + 3 * k + 1))]> (<["id" := id]> brdData))
    id
    (toISOString rt (clock rt (ticks s + 3 * k + 2))).

(** The records of the file, from position [k] on, that an import started
    in state [s] stores, when Firestore and [localStorage] answer by the
    scripts [remote] and [local].  Signed in, a record costs a Firestore
    request, and a [localStorage] write only when that request went
    through; signed out it costs the write alone.  A record of which one of
    the two fails is left out; the clock and the random numbers it used are
    spent all the same. *)
Fixpoint importedRecords (s : Store) (k : nat) (remote local : list (option string))
    (brds : list Obj) : list Obj :=
  match brds with
  | [] => []
  | brdData :: rest =>
      match (if cloudAvailable s then nextFault remote else None) with
      | Some _ => importedRecords s (S k) (afterRequest remote) local rest
      | None =>
          let remote' := if cloudAvailable s then afterRequest remote else remote in
          match nextFault local with
          | Some _ => importedRecords s (S k) remote' (afterRequest local) rest
          | None =>
              importedRecord s k brdData
              :: importedRecords s (S k) remote' (afterRequest local) rest
          end
      end
  end.

(** The records of the file, from position [k] on, that an import started
    in state [s] writes to the remote collection when Firestore answers by
    the script [remote]: those whose request goes through. *)
Fixpoint pushedRecords (s : Store) (k : nat) (remote : list (option string))
    (brds : list Obj) : list Obj :=
  match brds with
  | [] => []
  | brdData :: rest =>
      match nextFault remote with
      | Some _ => pushedRecords s (S k) (afterRequest remote) rest
      | None => importedRecord s k brdData :: pushedRecords s (S k) (afterRequest remote) rest
      end
  end.

(** The local cache once the records [brds] have been saved one after the
    other, each as a new record. *)
Definition savedInto (cache brds : list Obj) : list Obj :=
  foldl (fun cache brd => StorageManager.upsertDraft brd "new" None cache) cache brds.

(** *** Moving through the wizard *)

(** What the user can do on a page of the wizard: press "Selanjutnya" (or
    "Simpan BRD" on the last page), press the button back, click an item
    of the sidebar. *)
Inductive Action : Type :=
| Next
| Previous
| Jump (index : nat).

Definition perform (action : Action) : M Wizard unit :=
  match action with
  | Next => FormGenerator.navigateNext
  | Previous => FormGenerator.navigatePrevious
  | Jump index => FormGenerator.sidebarItemClick index
  end.

(** The wizard after a series of actions, each in the state the one
    before has left, whether it returned or threw. *)
Definition performAll (actions : list Action) (w : Wizard) : Wizard :=
  foldl (fun w action => (perform action w).2) w actions.

(** The current step is a section of the wizard. *)
Definition inRange (w : Wizard) : Prop := currentStep w < length (sections w).

(** A method keeps a property of the wizard, however it ends. *)
Definition preserves {A} (P : Wizard → Prop) (m : M Wizard A) : Prop :=
  ∀ w, P w → P (m w).2.

(** A property that reads only the current step and the sections. *)
Definition stepOnly (P : Wizard → Prop) : Prop :=
  ∀ w w', currentStep w' = currentStep w → sections w' = sections w → P w → P w'.

(** The form data once the values on the page have been merged into it. *)
Definition merged (w : Wizard) : Obj :=
  FormGenerator.formDataOf (FormGenerator.inputsOf w) ∪ formData w.

(** Two states of the storage that differ at most in the Draft, in what
    [localStorage] does next and in the console. *)
Definition sameButDraft (s s' : Store) : Prop :=
  runtime s' = runtime s ∧ ticks s' = ticks s ∧ draws s' = draws s
  ∧ cloudAvailable s' = cloudAvailable s ∧ cloud s' = cloud s
  ∧ remoteFaults s' = remoteFaults s ∧ drafts s' = drafts s.

(** Two states of the storage that differ at most in the readings taken
    from the clock and the random numbers. *)
Definition sameButClock (s s' : Store) : Prop :=
  runtime s' = runtime s ∧ cloudAvailable s' = cloudAvailable s ∧ cloud s' = cloud s
  ∧ remoteFaults s' = remoteFaults s ∧ drafts s' = drafts s ∧ tempData s' = tempData s
  ∧ localFaults s' = localFaults s ∧ console s' = console s.
(** *** The page of a section *)

(** The inputs are those of the fields, in order: each has the id and
    the name [createFieldElement] gives it. *)
Definition pageOf (fields : list Field) (inputs : list Element) : Prop :=
  Forall2 (fun field e => el_id e = FormGenerator.fieldId field ∧ el_name e = field_name field)
          fields inputs.

(** The input [loadFormSection] shows for a field when the Draft is
    [data]: the one [createFieldElement] builds, with the value of the
    Draft when that is not empty. *)
Definition restored (data : Obj) (field : Field) : Element :=
  let e := FormGenerator.createFieldElement field in
  if truthy (data !! field_name field)
  then {| el_id := el_id e; el_name := el_name e;
          el_value := orElse (data !! field_name field) "";
          el_invalid := el_invalid e; el_error := el_error e |}
  else e.

(** *** What an input keeps of a value *)

(** An assignment [element.value = value] goes through the value
    sanitization of the element, which the definitions above leave out:
    they store the string as it is.  An input of type [text] (the kind
    [createFieldElement] also builds for an unknown type) drops line feeds
    and carriage returns, the value read back from a [textarea] has its
    carriage returns normalised, and an input of type [date] keeps a valid
    date string [YYYY-MM-DD] and turns anything else into the empty
    string. *)

Fixpoint contains (c : ascii) (s : string) : bool :=
  match s with
  | EmptyString => false
  | String x s' => Ascii.eqb x c || contains c s'
  end.

Definition leapYear (y : Z) : bool :=
  ((y mod 4 =? 0) && negb (y mod 100 =? 0) || (y mod 400 =? 0))%Z.

Definition daysInMonth (y m : Z) : Z :=
  if (m =? 2)%Z then (if leapYear y then 29 else 28)%Z
  else if ((m =? 4) || (m =? 6) || (m =? 9) || (m =? 11))%Z then 30%Z
  else 31%Z.

(** Four digits of a year from 1 on, two of a month and two of a day of
    that month, with [-] between them. *)
Definition validDateString (value : string) : bool :=
  match IsoDate.field 4 "-" value with
  | Some (y, s) =>
      match IsoDate.field 2 "-" s with
      | Some (m, s) =>
          match IsoDate.number 2 0 s with
          | Some (d, s) =>
              (String.eqb s "" && (1 <=? y) && (1 <=? m) && (m <=? 12)
               && (1 <=? d) && (d <=? daysInMonth y m))%Z
          | None => false
          end
      | None => false
      end
  | None => false
  end.

(** [keptBy type value]: the element [createFieldElement] builds for a
    field of this type holds [value] unchanged once it has been assigned to
    it.  What a [select] and an input of type [number] keep depends on the
    options and on the syntax of numbers, which are not part of this
    development: no value but the empty one counts as kept by them. *)
Definition keptBy (type value : string) : bool :=
  String.eqb value ""
  || (if String.eqb type "textarea" then negb (contains "013" value)
      else if String.eqb type "date" then validDateString value
      else if String.eqb type "select" then false
      else if String.eqb type "number" then false
      else negb (contains "010" value) && negb (contains "013" value)).

(** The real page shows for [field] what [restored data field] holds:
    the value that [restored] gives the input is one the input keeps. *)
Definition shownAsIs (data : Obj) (field : Field) : bool :=
  keptBy (field_type field) (el_value (restored data field)).

(** ** Sample states *)

(** A browser whose clock starts on 30 September 2025 and advances by a
    second at each reading. *)
Definition browser : Runtime :=
  {| clock := fun n => (1759236130123 + 1000 * Z.of_nat n)%Z;
     random := fun n => "k3j9x0q2" +:+ pretty n;
     toISOString := IsoDate.format;
     dateValue := IsoDate.parse |}.

(** Nobody signed in, nothing stored. *)
Definition offline : Store :=
  {| runtime := browser; ticks := 0; draws := 0; cloudAvailable := false; cloud := ∅;
     remoteFaults := []; drafts := Absent; tempData := Absent; localFaults := [];
     console := [] |}.

(** Signed in, nothing stored. *)
Definition online : Store :=
  {| runtime := browser; ticks := 0; draws := 0; cloudAvailable := true; cloud := ∅;
     remoteFaults := []; drafts := Absent; tempData := Absent; localFaults := [];
     console := [] |}.

(** Two saved records. *)
Definition brd (id title createdAt lastUpdated : string) : Obj :=
  {[ "id" := id; "title" := title; "createdAt" := createdAt; "lastUpdated" := lastUpdated ]}.

Definition older : Obj :=
  brd "a1" "Payroll" "2025-09-01T08:00:00.000Z" "2025-09-01T08:00:00.000Z".
Definition newer : Obj :=
  brd "b2" "Billing" "2025-09-02T08:00:00.000Z" "2025-09-03T09:30:00.000Z".

(** Signed in, and Firestore rejects the next request. *)
Definition onlineRejecting : Store :=
  set_remoteFaults [Some "permission-denied"%string] online.

(** Signed in, Firestore rejecting the next request, and a local cache
    that holds the older record before the newer one. *)
Definition onlineRejectingWithCache : Store :=
  set_drafts (Stored [older; newer]) onlineRejecting.

(** Nobody signed in, the same local cache. *)
Definition offlineWithCache : Store :=
  set_drafts (Stored [older; newer]) offline.

(** Signed in, the cloud empty, the two records in the local cache, and
    Firestore rejecting its third request. *)
Definition onlineThirdRequestFails : Store :=
  set_remoteFaults [None; None; Some "unavailable"%string]
    (set_drafts (Stored [older; newer]) online).

(** Signed in, the older record already in the cloud, both in the local
    cache. *)
Definition onlineHalfMigrated : Store :=
  set_cloud {[ "a1"%string := older ]} (set_drafts (Stored [older; newer]) online).

(** A text input holding [value]. *)
Definition input (id value : string) : Element :=
  {| el_id := "input-" +:+ id; el_name := id; el_value := value;
     el_invalid := false; el_error := None |}.

(** A field definition whose maximum length is 0. *)
Definition zeroMaxField : Field :=
  FormGenerator.field "text" "note" false (Some {| minLength := None; maxLength := Some 0 |}) None.

(** The first section of the schema and its page with the five inputs. *)
Definition documentInfo : Section :=
  hd {| section_id := ""; section_title := ""; fields := [] |}
     (FormGenerator.initializeSections "2025-09-30").

Definition documentInfoPage (title company : string) : list Element :=
  [ input "title" title; input "nama-perusahaan" company; input "versi" "1.0";
    input "tanggal" "2025-09-30"; input "deskripsi-singkat" "" ].

(** A new wizard on the page of section [step], nothing saved yet. *)
Definition wizardAt (step : nat) (inputs : list Element) : Wizard :=
  {| currentStep := step; sections := FormGenerator.initializeSections "2025-09-30";
     mode := "new"; editIndex := None; formData := ∅; brdForm := Some inputs;
     toasts := []; storage := offline |}.

(** On the first page with the title left empty, and with the page filled
    in. *)
Definition titleMissing : Wizard := wizardAt 0 (documentInfoPage "" "Acme").
Definition firstPageFilled : Wizard := wizardAt 0 (documentInfoPage "Payroll system" "Acme").



(** The same first page with [localStorage] taking the next write and
    refusing the one after. *)
Definition firstPageSecondWriteFails : Wizard :=
  set_storage (set_localFaults [None; Some "QuotaExceededError"%string] offline) firstPageFilled.
(** The wizard as an edit of the newer record leaves it: nobody signed
    in, the two records in the local cache, the edited record in the form
    data. *)
Definition afterEditing : Wizard :=
  set_formData newer (set_storage offlineWithCache firstPageFilled).

(** Signed in, the two records in the remote collection, the local cache
    empty, and [localStorage] refusing the next write. *)
Definition onlineCacheFull : Store :=
  set_localFaults [Some "QuotaExceededError"%string]
    (set_cloud {[ "a1"%string := older; "b2"%string := newer ]} online).

(** On the second page, the first page filled in and merged. *)
Definition secondPage : Wizard := (FormGenerator.navigateNext firstPageFilled).2.

(** Signed in, the two records in the remote collection and nothing in
    the local cache. *)
Definition onlineWithRecords : Store :=
  set_cloud {[ "a1"%string := older; "b2"%string := newer ]} online.

(** Signed in with the two records in the local cache; Firestore takes
    the next request and rejects the one after, and [localStorage] refuses
    the next write. *)
Definition importFaulty : Store :=
  set_localFaults [Some "QuotaExceededError"%string]
    (set_remoteFaults [None; Some "unavailable"%string]
       (set_drafts (Stored [older; newer]) online)).

(** * Properties *)

(** ** The host functions on examples *)
Example iso_format : IsoDate.format 1759236130123 = "2025-09-30T12:42:10.123Z"%string.
Proof. vm_compute. reflexivity. Qed.
Example iso_parse : IsoDate.parse "2025-09-30T12:42:10.123Z" = Some 1759236130123%Z.
Proof. vm_compute. reflexivity. Qed.
Example iso_parse_bad : IsoDate.parse "yesterday" = None.
Proof. vm_compute. reflexivity. Qed.

Example toString36_35 : toString36 35 = "z"%string. Proof. reflexivity. Qed.
Example toString36_36 : toString36 36 = "10"%string. Proof. reflexivity. Qed.
Example toString36_0 : toString36 0 = "0"%string. Proof. reflexivity. Qed.
Example toString36_big : toString36 1759210930000 = "mg64rl1s"%string. Proof. vm_compute. reflexivity. Qed.

(** ** [Array.prototype.sort] with a comparator that subtracts keys *)

Section SortFacts.
Context {A : Type} (compareFn : A → A → Z) (key : A → Z) (P : A → Prop).
Hypothesis compare_key : ∀ a b, P a → P b → compareFn a b = (key b - key a)%Z.

Lemma sortInsert_perm x l : sortInsert compareFn x l ≡ₚ x :: l.
Proof.
  induction l as [|y l IH]; simpl; [done|].
  destruct (compareFn x y <=? 0)%Z; [done|].
  rewrite IH. apply Permutation_swap.
Qed.

Lemma sort_perm l : sort compareFn l ≡ₚ l.
Proof.
  induction l as [|x l IH]; simpl; [done|].
  by rewrite sortInsert_perm, IH.
Qed.

Lemma sort_Forall (Q : A → Prop) l : Forall Q l → Forall Q (sort compareFn l).
Proof. intros H. by rewrite sort_perm. Qed.

Lemma sortInsert_HdRel (R : A → A → Prop) a x l :
  R a x → HdRel R a l → HdRel R a (sortInsert compareFn x l).
Proof.
  intros Hax Hal. destruct l as [|y l]; simpl; [by constructor|].
  destruct (compareFn x y <=? 0)%Z; constructor; [done|].
  by inversion Hal.
Qed.

Lemma sortInsert_sorted x l :
  P x → Forall P l →
  Sorted (fun a b => key b <= key a)%Z l →
  Sorted (fun a b => key b <= key a)%Z (sortInsert compareFn x l).
Proof.
  intros Px Pl Hs. induction l as [|y l IH]; simpl; [by repeat constructor|].
  inversion Pl as [|? ? Py Pl']; subst. inversion Hs as [|? ? Hs' Hhd]; subst.
  destruct (compareFn x y <=? 0)%Z eqn:E.
  - apply Z.leb_le in E. rewrite compare_key in E by done.
    constructor; [done|]. constructor. lia.
  - apply Z.leb_gt in E. rewrite compare_key in E by done.
    constructor; [by apply IH|].
    apply sortInsert_HdRel; [lia|done].
Qed.

Lemma sort_sorted l :
  Forall P l → Sorted (fun a b => key b <= key a)%Z (sort compareFn l).
Proof.
  induction l as [|x l IH]; intros Hl; simpl; [constructor|].
  inversion Hl; subst.
  apply sortInsert_sorted; [done|by apply sort_Forall|by apply IH].
Qed.

(** Stability: a class [q] of elements that all have the same key comes
    out of the sort in the order it went in. *)
Lemma sortInsert_stable (q : A → bool) x l :
  (∀ a b, P a → P b → q a = true → q b = true → key a = key b) →
  P x → Forall P l →
  List.filter q (sortInsert compareFn x l) = List.filter q (x :: l).
Proof.
  intros Hq Px Pl. induction l as [|y l IH]; [done|].
  inversion Pl as [|? ? Py Pl']; subst. simpl.
  destruct (compareFn x y <=? 0)%Z eqn:E; [done|].
  apply Z.leb_gt in E. rewrite compare_key in E by done.
  simpl. rewrite (IH Pl'). simpl.
  destruct (q x) eqn:Qx, (q y) eqn:Qy; try done.
  specialize (Hq x y Px Py Qx Qy). lia.
Qed.

Lemma sort_stable (q : A → bool) l :
  (∀ a b, P a → P b → q a = true → q b = true → key a = key b) →
  Forall P l →
  List.filter q (sort compareFn l) = List.filter q l.
Proof.
  intros Hq. induction l as [|x l IH]; intros Hl; [done|].
  inversion Hl; subst. simpl sort.
  rewrite sortInsert_stable; [|done|done|by apply sort_Forall].
  simpl. by rewrite IH.
Qed.
End SortFacts.

(** ** [saveBRD] *)

Lemma digits36_nonempty fuel n acc : digits36 fuel n acc ≠ ""%string.
Proof.
  revert n acc. induction fuel as [|fuel IH]; intros n acc; simpl; [done|].
  destruct (n / 36 =? 0)%N; [done|apply IH].
Qed.

Lemma toString36_nonempty n r : truthy (Some (toString36 n +:+ r)) = true.
Proof.
  unfold toString36. destruct (n <? 0)%Z; [done|].
  pose proof (digits36_nonempty (N.to_nat (N.size (Z.abs_N n))) (Z.abs_N n) "") as H.
  destruct (digits36 _ _ _); [done|reflexivity].
Qed.

Lemma truthy_orElse v d : truthy v = true → v = Some (orElse v d).
Proof.
  destruct v as [s|]; simpl; [|done]. by destruct (String.eqb s "").
Qed.

Lemma truthy_idFor brdData s : truthy (Some (idFor brdData s)) = true.
Proof.
  unfold idFor. destruct (truthy (brdData !! "id")) eqn:E.
  - by rewrite <- (truthy_orElse _ "" E).
  - apply toString36_nonempty.
Qed.

Example saveBRD_offline_new :
  (StorageManager.saveBRD {[ "title" := "Payroll"%string ]} "new" None offline).1
  = Ok "mg6jrqczk3j9x0q20"%string.
Proof. vm_compute. reflexivity. Qed.

Lemma brdWithMeta_id brdData id t : StorageManager.brdWithMeta brdData id t !! "id" = Some id.
Proof. unfold StorageManager.brdWithMeta. by simplify_map_eq. Qed.

Lemma brdWithMeta_lastUpdated brdData id t :
  StorageManager.brdWithMeta brdData id t !! "lastUpdated" = Some t.
Proof. unfold StorageManager.brdWithMeta. by simplify_map_eq. Qed.

Lemma brdWithMeta_createdAt brdData id t :
  StorageManager.brdWithMeta brdData id t !! "createdAt"
  = Some (orElse (brdData !! "createdAt") t).
Proof. unfold StorageManager.brdWithMeta. by simplify_map_eq. Qed.

Lemma brdWithMeta_title brdData id t :
  StorageManager.brdWithMeta brdData id t !! "title"
  = Some (orElse (brdData !! "title") "BRD Tanpa Judul").
Proof. unfold StorageManager.brdWithMeta. by simplify_map_eq. Qed.

(** The document a successful [saveBRDToFirestore] leaves under the id. *)
Lemma saveBRDToFirestore_run brdData mode s id :
  cloudAvailable s = true →
  brdData !! "id" = Some id →
  truthy (Some id) = true →
  StorageManager.saveBRDToFirestore brdData mode s =
    match nextOutcome (remoteFaults s) with
    | (Some e, rest) => (Throw e, set_remoteFaults rest s)
    | (None, rest) =>
        (Ok tt,
         set_cloud (<[id := if String.eqb mode "edit"
                            then brdData ∪ default ∅ (cloud s !! id) else brdData]> (cloud s))
                   (set_remoteFaults rest s))
    end.
Proof.
  intros Hc Hid Ht.
  unfold StorageManager.saveBRDToFirestore, StorageManager.canUseCloudStorage,
    docSet, firestoreRequest, bind, gets, modify.
  simpl in Ht. destruct (String.eqb id "") eqn:E; [done|].
  rewrite Hc, Hid. simpl. rewrite E. simpl.
  by destruct (nextOutcome (remoteFaults s)) as [[e|] rest].
Qed.

Lemma getLocalBRDs_run s :
  ∃ s', StorageManager.getLocalBRDs s = (Ok (localList s), s')
        ∧ set_console (console s) s' = s.
Proof.
  unfold StorageManager.getLocalBRDs, localList, bind, gets, ret, consoleError, modify.
  destruct s as [rt tk dr ca c rf d td lf co]; simpl.
  destruct d; eexists; (split; [reflexivity|reflexivity]).
Qed.

Lemma stamp_run {A} brdData (k : string → string → M Store A) s :
  (let* currentTime := newDateISO in
   let* id := (if truthy (brdData !! "id") then ret (orElse (brdData !! "id") "")
               else StorageManager.generateUniqueId) in
   k currentTime id) s
  = k (currentTimeAt s) (idFor brdData s) (stamped brdData s).
Proof.
  unfold bind, newDateISO, StorageManager.generateUniqueId, readClock, randomSuffix,
    gets, ret, bind, currentTimeAt, idFor, stamped.
  simpl. by destruct (truthy (brdData !! "id")).
Qed.

Lemma stamped_proj brdData s :
  cloudAvailable (stamped brdData s) = cloudAvailable s
  ∧ remoteFaults (stamped brdData s) = remoteFaults s
  ∧ localFaults (stamped brdData s) = localFaults s
  ∧ drafts (stamped brdData s) = drafts s
  ∧ cloud (stamped brdData s) = cloud s
  ∧ tempData (stamped brdData s) = tempData s
  ∧ console (stamped brdData s) = console s
  ∧ runtime (stamped brdData s) = runtime s.
Proof. unfold stamped. by destruct (truthy (brdData !! "id")). Qed.

(** What the writes of [saveBRD] meet: the remote write is rejected, or
    the local write throws, or neither. *)
Lemma saveBRD_remote_rejected brdData mode editIndex s e :
  cloudAvailable s = true →
  nextFault (remoteFaults s) = Some e →
  ∃ s', StorageManager.saveBRD brdData mode editIndex s
        = (Throw ("Gagal menyimpan BRD: " +:+ e), s')
        ∧ drafts s' = drafts s
        ∧ localFaults s' = localFaults s
        ∧ cloud s' = cloud s
        ∧ console s' = console s ++ ["Error saving BRD: " +:+ e].
Proof.
  intros Hc Hf.
  destruct (stamped_proj brdData s) as (Pc & Pr & Pl & Pd & Pcl & Pt & Pco & Prt).
  unfold StorageManager.saveBRD, tryCatch. rewrite stamp_run.
  unfold bind at 1. unfold StorageManager.canUseCloudStorage at 1, gets at 1.
  rewrite Pc, Hc. unfold when, bind at 1.
  rewrite (saveBRDToFirestore_run _ _ _ (idFor brdData s));
    [|by rewrite Pc|apply brdWithMeta_id|apply truthy_idFor].
  rewrite Pr. unfold nextFault in Hf.
  destruct (nextOutcome (remoteFaults s)) as [o rest]; simpl in Hf; subst o.
  unfold bind, consoleError, modify, throw. simpl.
  eexists; split; [reflexivity|]. simpl. by rewrite Pd, Pl, Pcl, Pco.
Qed.

Lemma saveBRDToLocalStorage_run brdData mode editIndex s :
  ∃ s', StorageManager.saveBRDToLocalStorage brdData mode editIndex s
        = (match nextFault (localFaults s) with Some e => Throw e | None => Ok tt end, s')
        ∧ drafts s' = match nextFault (localFaults s) with
                      | Some _ => drafts s
                      | None => Stored (StorageManager.upsertDraft brdData mode editIndex (localList s))
                      end
        ∧ cloud s' = cloud s ∧ tempData s' = tempData s
        ∧ cloudAvailable s' = cloudAvailable s ∧ runtime s' = runtime s
        ∧ remoteFaults s' = remoteFaults s.
Proof.
  unfold StorageManager.saveBRDToLocalStorage, StorageManager.getLocalBRDs, localList,
    nextFault, setItemRequest, bind, gets, ret, consoleError, modify.
  destruct s as [rt tk dr ca c rf d td lf co]; simpl.
  destruct d; simpl; destruct (nextOutcome lf) as [[e|] rest]; simpl;
    eexists; (split; [reflexivity|done]).
Qed.

Lemma saveBRD_remote_fine brdData mode editIndex s :
  (cloudAvailable s = true → nextFault (remoteFaults s) = None) →
  let id := idFor brdData s in
  let saved := StorageManager.brdWithMeta brdData id (currentTimeAt s) in
  ∃ s', StorageManager.saveBRD brdData mode editIndex s
        = (match nextFault (localFaults s) with
           | Some e => Throw ("Gagal menyimpan BRD: " +:+ e)
           | None => Ok id
           end, s')
        ∧ drafts s' = match nextFault (localFaults s) with
                      | Some _ => drafts s
                      | None => Stored (StorageManager.upsertDraft saved mode editIndex (localList s))
                      end
        ∧ cloud s' = (if cloudAvailable s
                      then <[id := if String.eqb mode "edit"
                                   then saved ∪ default ∅ (cloud s !! id) else saved]> (cloud s)
                      else cloud s)
        ∧ tempData s' = tempData s
        ∧ cloudAvailable s' = cloudAvailable s ∧ runtime s' = runtime s.
Proof.
  intros Hf id saved.
  destruct (stamped_proj brdData s) as (Pc & Pr & Pl & Pd & Pcl & Pt & Pco & Prt).
  unfold StorageManager.saveBRD, tryCatch. rewrite stamp_run. fold id. fold saved.
  unfold bind at 1. unfold StorageManager.canUseCloudStorage at 1, gets at 1.
  rewrite Pc. unfold when.
  assert (∃ s1, (if cloudAvailable s then StorageManager.saveBRDToFirestore saved mode
                 else ret tt) (stamped brdData s) = (Ok tt, s1)
                ∧ drafts s1 = drafts s ∧ localFaults s1 = localFaults s
                ∧ cloud s1 = (if cloudAvailable s
                      then <[id := if String.eqb mode "edit"
                                   then saved ∪ default ∅ (cloud s !! id) else saved]> (cloud s)
                      else cloud s)
                ∧ tempData s1 = tempData s ∧ cloudAvailable s1 = cloudAvailable s
                ∧ runtime s1 = runtime s) as (s1 & E1 & Qd & Ql & Qc & Qt & Qa & Qr).
  { destruct (cloudAvailable s) eqn:Hc.
    - rewrite (saveBRDToFirestore_run _ _ _ id);
        [|by rewrite Pc|apply brdWithMeta_id|apply truthy_idFor].
      rewrite Pr. specialize (Hf eq_refl). unfold nextFault in Hf.
      destruct (nextOutcome (remoteFaults s)) as [o rest]; simpl in Hf; subst o.
      eexists; split; [reflexivity|]. simpl. by rewrite Pd, Pl, Pcl, Pt, Pc, Prt.
    - eexists; split; [reflexivity|]. by rewrite Pd, Pl, Pcl, Pt, Pc, Prt. }
  unfold bind at 1. rewrite E1. unfold bind at 1.
  destruct (saveBRDToLocalStorage_run saved mode editIndex s1)
    as (s2 & E2 & Rd & Rc & Rt & Ra & Rr & _).
  rewrite E2, Ql. unfold localList in Rd. rewrite Qd in Rd. fold (localList s) in Rd.
  rewrite Ql in Rd.
  destruct (nextFault (localFaults s)) as [e|].
  - unfold bind, consoleError, modify, throw. simpl.
    eexists; split; [reflexivity|]. simpl. by rewrite Rd, Rc, Rt, Ra, Rr, Qc, Qt, Qa, Qr.
  - unfold ret. eexists; split; [reflexivity|].
    by rewrite Rd, Rc, Rt, Ra, Rr, Qc, Qt, Qa, Qr.
Qed.

Lemma findIndex_lt {A} (p : A → bool) l i : findIndex p l = Some i → i < length l.
Proof.
  revert i. induction l as [|x l IH]; intros i; simpl; [done|].
  destruct (p x); [intros [= <-]; lia|].
  destruct (findIndex p l) as [j|]; simpl; [|done].
  intros [= <-]. specialize (IH j eq_refl). lia.
Qed.

Lemma upsertDraft_elem brdData mode editIndex brds :
  brdData ∈ StorageManager.upsertDraft brdData mode editIndex brds.
Proof.
  assert (∀ i, i < length brds → brdData ∈ <[i := brdData]> brds) as Hin.
  { intros i Hi. apply list_elem_of_lookup. exists i. by apply list_lookup_insert_eq. }
  assert (brdData ∈ match findIndex (fun d : Obj => strictEq (d !! "id") (brdData !! "id")) brds with
                    | Some existingIndex => <[existingIndex := brdData]> brds
                    | None => brds ++ [brdData]
                    end) as HbyId.
  { destruct (findIndex _ brds) as [i|] eqn:E.
    - apply Hin. by eapply findIndex_lt.
    - apply elem_of_app. right. by apply list_elem_of_singleton. }
  unfold StorageManager.upsertDraft. destruct editIndex as [i|]; [|done].
  destruct (String.eqb mode "edit"); simpl; [|done].
  case_bool_decide as Hi; [|done].
  apply Hin. by apply lookup_lt_is_Some.
Qed.

(** C1 fails on the code: signed in, with Firestore rejecting the write and
    [localStorage] ready to take it, [saveBRD] does not return the id but
    throws, and the local cache has not been written, against the comment
    "Always save to localStorage as backup" above the local write. *)
Lemma saveBRD_remote_failure_is_surfaced :
  cloudAvailable onlineRejecting = true
  ∧ nextFault (remoteFaults onlineRejecting) = Some "permission-denied"%string
  ∧ nextFault (localFaults onlineRejecting) = None
  ∧ (StorageManager.saveBRD {[ "title" := "Payroll"%string ]} "new" None onlineRejecting).1
    = Throw "Gagal menyimpan BRD: permission-denied"
  ∧ drafts (StorageManager.saveBRD {[ "title" := "Payroll"%string ]} "new" None
              onlineRejecting).2
    = drafts onlineRejecting.
Proof. by vm_compute. Qed.

(** C1, what the code does instead: while remote storage is available, a
    failure of the remote write aborts the save: the local cache is not
    written and the call throws "Gagal menyimpan BRD: " followed by the
    remote error.  When the remote write succeeds the local write takes
    place; the call returns the id of the record if it succeeds and throws
    its error if it fails. *)
Theorem saveBRD_remote_failure_aborts brdData mode editIndex s :
  cloudAvailable s = true →
  ∃ r s',
    StorageManager.saveBRD brdData mode editIndex s = (r, s') ∧
    match nextFault (remoteFaults s), nextFault (localFaults s) with
    | Some e, _ =>
        r = Throw ("Gagal menyimpan BRD: " +:+ e)
        ∧ drafts s' = drafts s ∧ localFaults s' = localFaults s
    | None, Some e =>
        r = Throw ("Gagal menyimpan BRD: " +:+ e) ∧ drafts s' = drafts s
    | None, None =>
        r = Ok (idFor brdData s)
        ∧ drafts s' = Stored (StorageManager.upsertDraft
                                (StorageManager.brdWithMeta brdData (idFor brdData s)
                                                            (currentTimeAt s))
                                mode editIndex (localList s))
    end.
Proof.
  intros Hc. destruct (nextFault (remoteFaults s)) as [e|] eqn:Hr.
  - destruct (saveBRD_remote_rejected brdData mode editIndex s e Hc Hr)
      as (s' & E & Hd & Hl & _).
    by exists (Throw ("Gagal menyimpan BRD: " +:+ e)), s'.
  - destruct (saveBRD_remote_fine brdData mode editIndex s (fun _ => Hr))
      as (s' & E & Hd & _).
    eexists _, s'. split; [exact E|].
    by destruct (nextFault (localFaults s)).
Qed.

Lemma saveBRD_remote_failure_aborts_witness :
  cloudAvailable onlineRejecting = true
  ∧ ∃ r s',
      StorageManager.saveBRD {[ "title" := "Payroll"%string ]} "new" None onlineRejecting = (r, s')
      ∧ r = Throw "Gagal menyimpan BRD: permission-denied"
      ∧ drafts s' = Absent ∧ localFaults s' = [].
Proof.
  split; [reflexivity|].
  destruct (saveBRD_remote_failure_aborts {[ "title" := "Payroll"%string ]} "new" None
              onlineRejecting eq_refl) as (r & s' & E & H).
  exists r, s'. split; [exact E|exact H].
Defined.

(** C3: a save whose writes go through returns the id of the record it
    stores; the stored record carries the current time as [lastUpdated];
    its id is the one of the input when that is present, a generated one
    when it is absent, and likewise its [createdAt] is the one of the input
    or the current time; and saving the stored record again, at any later
    time, keeps both and only renews [lastUpdated]. *)
Theorem saveBRD_stamps_metadata brdData mode editIndex s :
  (cloudAvailable s = true → nextFault (remoteFaults s) = None) →
  nextFault (localFaults s) = None →
  currentTimeAt s ≠ ""%string →
  ∃ id s',
    StorageManager.saveBRD brdData mode editIndex s = (Ok id, s') ∧
    let saved := StorageManager.brdWithMeta brdData id (currentTimeAt s) in
    drafts s' = Stored (StorageManager.upsertDraft saved mode editIndex (localList s))
    ∧ saved ∈ StorageManager.upsertDraft saved mode editIndex (localList s)
    ∧ saved !! "id" = Some id
    ∧ saved !! "lastUpdated" = Some (currentTimeAt s)
    ∧ (truthy (brdData !! "id") = true → brdData !! "id" = Some id)
    ∧ (truthy (brdData !! "id") = false →
       id = toString36 (clock (runtime s) (S (ticks s))) +:+ random (runtime s) (draws s))
    ∧ (truthy (brdData !! "createdAt") = true → saved !! "createdAt" = brdData !! "createdAt")
    ∧ (truthy (brdData !! "createdAt") = false → saved !! "createdAt" = Some (currentTimeAt s))
    ∧ ∀ mode2 editIndex2 s2,
        (cloudAvailable s2 = true → nextFault (remoteFaults s2) = None) →
        nextFault (localFaults s2) = None →
        ∃ s2',
          StorageManager.saveBRD saved mode2 editIndex2 s2 = (Ok id, s2') ∧
          let again := StorageManager.brdWithMeta saved id (currentTimeAt s2) in
          drafts s2' = Stored (StorageManager.upsertDraft again mode2 editIndex2 (localList s2))
          ∧ again !! "id" = Some id
          ∧ again !! "createdAt" = saved !! "createdAt"
          ∧ again !! "lastUpdated" = Some (currentTimeAt s2).
Proof.
  intros Hr Hl Ht.
  destruct (saveBRD_remote_fine brdData mode editIndex s Hr) as (s' & E & Hd & _).
  rewrite Hl in E, Hd.
  exists (idFor brdData s), s'. split; [exact E|]. cbv zeta.
  set (saved := StorageManager.brdWithMeta brdData (idFor brdData s) (currentTimeAt s)).
  assert (truthy (saved !! "createdAt") = true) as Hcreated.
  { unfold saved. rewrite brdWithMeta_createdAt.
    destruct (brdData !! "createdAt") as [c|]; simpl.
    - destruct (String.eqb c "") eqn:Ec; [|by rewrite Ec].
      by destruct (String.eqb_spec (currentTimeAt s) "").
    - by destruct (String.eqb_spec (currentTimeAt s) ""). }
  split; [exact Hd|]. split; [apply upsertDraft_elem|].
  split; [apply brdWithMeta_id|]. split; [apply brdWithMeta_lastUpdated|].
  split. { intros H. unfold idFor. rewrite H. by apply truthy_orElse. }
  split. { intros H. unfold idFor. by rewrite H. }
  split. { intros H. unfold saved. rewrite brdWithMeta_createdAt. symmetry.
           by apply truthy_orElse. }
  split. { intros H. unfold saved. rewrite brdWithMeta_createdAt.
           destruct (brdData !! "createdAt") as [c|]; simpl in *; [|done].
           by destruct (String.eqb c ""). }
  intros mode2 editIndex2 s2 Hr2 Hl2.
  destruct (saveBRD_remote_fine saved mode2 editIndex2 s2 Hr2) as (s2' & E2 & Hd2 & _).
  rewrite Hl2 in E2, Hd2.
  assert (idFor saved s2 = idFor brdData s) as Hid.
  { unfold idFor at 1. unfold saved at 1 2. rewrite brdWithMeta_id.
    pose proof (truthy_idFor brdData s) as Hi. rewrite Hi.
    simpl in *. by destruct (String.eqb (idFor brdData s) ""). }
  rewrite Hid in E2, Hd2.
  exists s2'. split; [exact E2|]. cbv zeta.
  split; [exact Hd2|]. split; [apply brdWithMeta_id|].
  split; [|apply brdWithMeta_lastUpdated].
  rewrite brdWithMeta_createdAt. symmetry. by apply truthy_orElse.
Qed.

Lemma saveBRD_stamps_metadata_witness :
  nextFault (localFaults online) = None
  ∧ currentTimeAt online ≠ ""%string
  ∧ ∃ id s',
      StorageManager.saveBRD {[ "title" := "Payroll"%string ]} "new" None online = (Ok id, s')
      ∧ id = "mg6jrqczk3j9x0q20"%string
      ∧ StorageManager.brdWithMeta {[ "title" := "Payroll"%string ]} id (currentTimeAt online)
          !! "lastUpdated" = Some "2025-09-30T12:42:10.123Z"%string.
Proof.
  split; [reflexivity|]. split; [by vm_compute|].
  destruct (saveBRD_stamps_metadata {[ "title" := "Payroll"%string ]} "new" None online)
    as (id & s' & E & _ & _ & _ & Hlu & _ & Hgen & _).
  - intros _. reflexivity.
  - reflexivity.
  - by vm_compute.
  - exists id, s'. split; [exact E|]. split; [|exact Hlu].
    rewrite Hgen by reflexivity. vm_compute. reflexivity.
Defined.

(** C10: the record a successful save stores has a title that is not
    empty: the title of the input, or "BRD Tanpa Judul" when the input has
    none or an empty one.  That record is in the local cache afterwards
    and, when remote storage is available, the remote document of its id
    has the same title. *)
Theorem saveBRD_title_never_empty brdData mode editIndex s :
  (cloudAvailable s = true → nextFault (remoteFaults s) = None) →
  nextFault (localFaults s) = None →
  ∃ id s' saved title,
    StorageManager.saveBRD brdData mode editIndex s = (Ok id, s')
    ∧ saved = StorageManager.brdWithMeta brdData id (currentTimeAt s)
    ∧ drafts s' = Stored (StorageManager.upsertDraft saved mode editIndex (localList s))
    ∧ saved ∈ StorageManager.upsertDraft saved mode editIndex (localList s)
    ∧ saved !! "title" = Some title
    ∧ title ≠ ""%string
    ∧ (truthy (brdData !! "title") = false → title = "BRD Tanpa Judul"%string)
    ∧ (truthy (brdData !! "title") = true → brdData !! "title" = Some title)
    ∧ (cloudAvailable s = true →
       ∃ doc, cloud s' !! id = Some doc ∧ doc !! "title" = Some title).
Proof.
  intros Hr Hl.
  destruct (saveBRD_remote_fine brdData mode editIndex s Hr) as (s' & E & Hd & Hc & _).
  rewrite Hl in E, Hd.
  eexists (idFor brdData s), s', _, _. split; [exact E|]. split; [reflexivity|].
  split; [exact Hd|]. split; [apply upsertDraft_elem|].
  split; [apply brdWithMeta_title|].
  split. { destruct (brdData !! "title") as [t|]; simpl; [|done].
           destruct (String.eqb_spec t ""); done. }
  split. { destruct (brdData !! "title") as [t|]; simpl; [|done].
           by destruct (String.eqb t ""). }
  split. { intros H. by apply truthy_orElse. }
  intros Ha. rewrite Ha in Hc. rewrite Hc, lookup_insert_eq. eexists. split; [reflexivity|].
  destruct (String.eqb mode "edit"); [|apply brdWithMeta_title].
  apply lookup_union_Some_l, brdWithMeta_title.
Qed.

Lemma saveBRD_title_never_empty_witness :
  nextFault (localFaults online) = None
  ∧ ∃ id s' saved,
      StorageManager.saveBRD {[ "title" := ""%string ]} "new" None online = (Ok id, s')
      ∧ saved !! "title" = Some "BRD Tanpa Judul"%string
      ∧ drafts s' = Stored [saved].
Proof.
  split; [reflexivity|].
  destruct (saveBRD_title_never_empty {[ "title" := ""%string ]} "new" None online)
    as (id & s' & saved & title & E & Hs & Hd & _ & Ht & _ & Hdef & _).
  - intros _. reflexivity.
  - reflexivity.
  - exists id, s', saved. split; [exact E|]. split.
    + rewrite Ht. f_equal. apply Hdef. reflexivity.
    + rewrite Hd. reflexivity.
Defined.

(** ** [loadBRDs] *)

Lemma loadBRDsFromFirestore_run s :
  cloudAvailable s = true →
  StorageManager.loadBRDsFromFirestore s =
    match nextOutcome (remoteFaults s) with
    | (Some e, rest) => (Throw e, set_remoteFaults rest s)
    | (None, rest) => (Ok (fetched (cloud s)), set_remoteFaults rest s)
    end.
Proof.
  intros Hc.
  unfold StorageManager.loadBRDsFromFirestore, StorageManager.canUseCloudStorage,
    orderByDescGet, firestoreRequest, fetched, bind, gets, ret.
  rewrite Hc. simpl.
  by destruct (nextOutcome (remoteFaults s)) as [[e|] rest].
Qed.

Lemma syncBRDsToLocalStorage_run brds s :
  ∃ s', StorageManager.syncBRDsToLocalStorage brds s = (Ok tt, s')
        ∧ runtime s' = runtime s ∧ cloud s' = cloud s
        ∧ cloudAvailable s' = cloudAvailable s.
Proof.
  unfold StorageManager.syncBRDsToLocalStorage, tryCatch, setItemRequest, bind,
    consoleError, modify.
  destruct (nextOutcome (localFaults s)) as [[e|] rest]; simpl; by eexists.
Qed.

Lemma Sorted_newestFirst rt l :
  Forall (fun brd => is_Some (lastUpdatedTime rt brd)) l →
  Sorted (fun a b => default 0 (lastUpdatedTime rt b) <= default 0 (lastUpdatedTime rt a))%Z l →
  Sorted (newestFirst rt) l.
Proof.
  intros Hv Hs. induction Hs as [|a l Hs IH Hhd]; [constructor|].
  inversion Hv as [|? ? [ta Ha] Hv']; subst.
  constructor; [by apply IH|].
  destruct Hhd as [|b l Hab]; constructor.
  inversion Hv' as [|? ? [tb Hb] _]; subst.
  exists ta, tb. rewrite Ha, Hb in Hab. done.
Qed.

(** C2, as stated, fails: when the remote fetch throws, [loadBRDs] hands
    back the local cache as it is stored, here the older record first. *)
Lemma loadBRDs_fallback_not_sorted :
  (StorageManager.loadBRDs onlineRejectingWithCache).1 = Ok [older; newer]
  ∧ ¬ Sorted (newestFirst (runtime onlineRejectingWithCache)) [older; newer].
Proof.
  split; [vm_compute; reflexivity|].
  intros H. inversion H as [|? ? _ Hhd]; subst.
  inversion Hhd as [|? ? (ta & tb & Ha & Hb & Hle)]; subst.
  vm_compute in Ha, Hb. injection Ha as <-. injection Hb as <-. lia.
Qed.

(** C2, amended: whenever the remote fetch does not throw (remote storage
    is unavailable, or the fetch succeeds) and the records read carry a
    valid [lastUpdated], [loadBRDs] returns them newest first, each
    record's [lastUpdated] being at least that of the next one, and records
    with equal [lastUpdated] in the order in which they were read. *)
Theorem loadBRDs_newest_first s :
  (cloudAvailable s = true → nextFault (remoteFaults s) = None) →
  let source := if cloudAvailable s then fetched (cloud s) else localList s in
  Forall (fun brd => is_Some (lastUpdatedTime (runtime s) brd)) source →
  ∃ brds s',
    StorageManager.loadBRDs s = (Ok brds, s')
    ∧ brds ≡ₚ source
    ∧ Sorted (newestFirst (runtime s)) brds
    ∧ ∀ t, List.filter (fun brd => bool_decide (lastUpdatedTime (runtime s) brd = Some t)) brds
           = List.filter (fun brd => bool_decide (lastUpdatedTime (runtime s) brd = Some t))
                         source.
Proof.
  intros Hr source Hv.
  assert (∃ s1, (if cloudAvailable s then
                   let* fetched := StorageManager.loadBRDsFromFirestore in
                   StorageManager.syncBRDsToLocalStorage fetched >> ret fetched
                 else StorageManager.getLocalBRDs) s = (Ok source, s1)
                ∧ runtime s1 = runtime s) as (s1 & E & Hrt).
  { unfold source. destruct (cloudAvailable s) eqn:Hc.
    - unfold bind at 1. rewrite loadBRDsFromFirestore_run by done.
      specialize (Hr eq_refl). unfold nextFault in Hr.
      destruct (nextOutcome (remoteFaults s)) as [o rest]; simpl in Hr; subst o.
      unfold bind.
      destruct (syncBRDsToLocalStorage_run (fetched (cloud s)) (set_remoteFaults rest s))
        as (s1 & E1 & Hrt & _).
      rewrite E1. by exists s1.
    - destruct (getLocalBRDs_run s) as (s1 & E1 & Hs1). exists s1. split; [done|].
      by rewrite <- Hs1. }
  unfold StorageManager.loadBRDs, tryCatch. unfold bind at 1.
  unfold StorageManager.canUseCloudStorage at 1, gets at 1.
  unfold bind at 1. rewrite E.
  unfold bind, gets, ret. rewrite Hrt.
  eexists _, s1. split; [reflexivity|].
  set (P := fun brd : Obj => is_Some (lastUpdatedTime (runtime s) brd)).
  set (key := fun brd : Obj => default 0%Z (lastUpdatedTime (runtime s) brd)).
  assert (∀ a b, P a → P b →
            StorageManager.byLastUpdated (runtime s) a b = (key b - key a)%Z) as Hcmp.
  { intros a b [ta Ha] [tb Hb]. unfold StorageManager.byLastUpdated, key.
    unfold lastUpdatedTime in Ha, Hb |- *. by rewrite Ha, Hb. }
  split; [apply sort_perm|]. split.
  - apply Sorted_newestFirst; [by apply sort_Forall|].
    by apply (sort_sorted _ key P Hcmp).
  - intros t. apply (sort_stable _ key P Hcmp); [|done].
    intros a b _ _ Qa Qb. apply bool_decide_eq_true in Qa, Qb.
    unfold key. by rewrite Qa, Qb.
Qed.

Lemma loadBRDs_newest_first_witness :
  Forall (fun brd => is_Some (lastUpdatedTime (runtime offlineWithCache) brd)) [older; newer]
  ∧ ∃ brds s',
      StorageManager.loadBRDs offlineWithCache = (Ok brds, s')
      ∧ brds ≡ₚ [older; newer]
      ∧ Sorted (newestFirst (runtime offlineWithCache)) brds.
Proof.
  assert (Forall (fun brd => is_Some (lastUpdatedTime (runtime offlineWithCache) brd))
                 [older; newer]) as Hv.
  { apply (bool_decide_unpack _). vm_compute. exact I. }
  split; [exact Hv|].
  destruct (loadBRDs_newest_first offlineWithCache) as (brds & s' & E & Hp & Hs & _).
  - intros H. discriminate H.
  - exact Hv.
  - by exists brds, s'.
Defined.

(** C4: with remote storage available and the remote fetch throwing,
    [loadBRDs] returns the records of the local cache as they are stored,
    throws nothing, and leaves the cache as it was. *)
Theorem loadBRDs_falls_back_to_local s e :
  cloudAvailable s = true →
  nextFault (remoteFaults s) = Some e →
  ∃ s',
    StorageManager.loadBRDs s = (Ok (localList s), s')
    ∧ drafts s' = drafts s
    ∧ tempData s' = tempData s
    ∧ cloud s' = cloud s.
Proof.
  intros Hc Hf.
  unfold StorageManager.loadBRDs, tryCatch. unfold bind at 1.
  unfold StorageManager.canUseCloudStorage at 1, gets at 1. rewrite Hc.
  unfold bind at 1. unfold bind at 1. rewrite loadBRDsFromFirestore_run by done.
  unfold nextFault in Hf.
  destruct (nextOutcome (remoteFaults s)) as [o rest]; simpl in Hf; subst o.
  unfold bind, consoleError, modify.
  set (s1 := set_console _ _).
  destruct (getLocalBRDs_run s1) as (s' & E & Hs').
  rewrite E. exists s'. split; [done|].
  assert (drafts s' = drafts s1 ∧ tempData s' = tempData s1 ∧ cloud s' = cloud s1)
    as (-> & -> & ->); [|done].
  rewrite <- Hs'. by destruct s'.
Qed.

Lemma loadBRDs_falls_back_to_local_witness :
  cloudAvailable onlineRejectingWithCache = true
  ∧ nextFault (remoteFaults onlineRejectingWithCache) = Some "permission-denied"%string
  ∧ ∃ s', StorageManager.loadBRDs onlineRejectingWithCache = (Ok [older; newer], s')
          ∧ drafts s' = Stored [older; newer].
Proof.
  split; [reflexivity|]. split; [reflexivity|].
  destruct (loadBRDs_falls_back_to_local onlineRejectingWithCache "permission-denied"
              eq_refl eq_refl) as (s' & E & Hd & _).
  exists s'. split; [exact E|exact Hd].
Defined.

(** ** [migrateLocalToCloud] *)

Lemma existsInCloud_spec cloudBRDs localBRD :
  StorageManager.existsInCloud cloudBRDs localBRD = true ↔
  ∃ cloudBRD, cloudBRD ∈ cloudBRDs
              ∧ cloudBRD !! "title" = localBRD !! "title"
              ∧ cloudBRD !! "createdAt" = localBRD !! "createdAt".
Proof.
  unfold StorageManager.existsInCloud, some, strictEq. rewrite existsb_exists.
  split.
  - intros (c & Hin & Hc). apply andb_true_iff in Hc as [H1 H2].
    apply bool_decide_eq_true in H1, H2. exists c. by rewrite list_elem_of_In.
  - intros (c & Hin & H1 & H2). exists c. rewrite <- list_elem_of_In.
    split; [done|]. apply andb_true_iff. by rewrite !bool_decide_eq_true.
Qed.

Lemma toMigrate_spec cloudBRDs localBRDs brd :
  brd ∈ toMigrate cloudBRDs localBRDs ↔
  brd ∈ localBRDs ∧ StorageManager.existsInCloud cloudBRDs brd = false.
Proof.
  unfold toMigrate. rewrite !list_elem_of_In, filter_In, negb_true_iff. done.
Qed.

Lemma pushAll_snoc c brds brd :
  pushAll c (brds ++ [brd]) = <[orElse (brd !! "id") "" := brd]> (pushAll c brds).
Proof. unfold pushAll. by rewrite foldl_app. Qed.

(** After the pushes, the document under the id of a pushed record is a
    pushed record with that id. *)
Lemma pushAll_lookup c brds brd :
  brd ∈ brds →
  ∃ doc, pushAll c brds !! orElse (brd !! "id") "" = Some doc
         ∧ doc ∈ brds
         ∧ orElse (doc !! "id") "" = orElse (brd !! "id") "".
Proof.
  induction brds as [|last brds IH] using rev_ind; [by intros ?%elem_of_nil|].
  intros Hin. rewrite pushAll_snoc.
  destruct (decide (orElse (last !! "id") "" = orElse (brd !! "id") "")) as [E|N].
  - exists last. rewrite E, lookup_insert_eq. split; [done|].
    split; [|done]. apply elem_of_app. right. by apply list_elem_of_singleton.
  - apply elem_of_app in Hin as [Hin|Hin].
    + destruct (IH Hin) as (doc & Hl & Hd & Hid). exists doc.
      rewrite lookup_insert_ne by done. split; [done|]. split; [|done].
      apply elem_of_app. by left.
    + apply list_elem_of_singleton in Hin. by subst.
Qed.

Lemma forall_tail_none (o : option string) rest :
  Forall (fun o => o = None) (o :: rest) →
  nextOutcome (o :: rest) = (None, rest) ∧ Forall (fun o => o = None) rest.
Proof. intros H. inversion H; subst. done. Qed.

Lemma nextOutcome_none faults :
  Forall (fun o : option string => o = None) faults →
  ∃ rest, nextOutcome faults = (None, rest) ∧ Forall (fun o => o = None) rest.
Proof.
  destruct faults as [|o rest]; intros H; [by exists []|].
  exists rest. by apply forall_tail_none.
Qed.

Lemma migrateEach_ok cloudBRDs localBRDs :
  ∀ migratedCount s,
    cloudAvailable s = true →
    Forall (fun o => o = None) (remoteFaults s) →
    Forall (fun brd : Obj => truthy (brd !! "id") = true) (toMigrate cloudBRDs localBRDs) →
    ∃ s', StorageManager.migrateEach cloudBRDs localBRDs migratedCount s
          = (Ok (migratedCount + length (toMigrate cloudBRDs localBRDs)), s')
          ∧ cloud s' = pushAll (cloud s) (toMigrate cloudBRDs localBRDs)
          ∧ drafts s' = drafts s ∧ tempData s' = tempData s ∧ console s' = console s.
Proof.
  induction localBRDs as [|brd rest IH]; intros n s Hc Hf Hids; simpl in *.
  - exists s. unfold ret. by rewrite Nat.add_0_r.
  - unfold toMigrate in Hids |- *. simpl in *.
    destruct (StorageManager.existsInCloud cloudBRDs brd) eqn:Ex; simpl in *.
    + by apply IH.
    + inversion Hids as [|? ? Hid Hids']; subst.
      destruct (brd !! "id") as [id|] eqn:Eid; [|done].
      unfold bind at 1.
      rewrite (saveBRDToFirestore_run brd "new" s id) by done.
      destruct (nextOutcome_none _ Hf) as (faults & -> & Hf').
      set (s1 := set_cloud _ _).
      destruct (IH (S n) s1) as (s' & E & Hcl & Hd & Ht & Hco); [done|done|done|].
      unfold toMigrate in E, Hcl.
      exists s'. rewrite E. split; [f_equal; f_equal; lia|].
      rewrite Hcl, Hd, Ht, Hco. split; [|done].
      subst s1. simpl in *. by destruct (String.eqb id "").
Qed.

Lemma migrateEach_fails cloudBRDs localBRDs :
  ∀ migratedCount s succeeded e faults,
    cloudAvailable s = true →
    remoteFaults s = replicate succeeded None ++ Some e :: faults →
    succeeded < length (toMigrate cloudBRDs localBRDs) →
    Forall (fun brd : Obj => truthy (brd !! "id") = true) (toMigrate cloudBRDs localBRDs) →
    ∃ s', StorageManager.migrateEach cloudBRDs localBRDs migratedCount s = (Throw e, s')
          ∧ cloud s' = pushAll (cloud s) (take succeeded (toMigrate cloudBRDs localBRDs))
          ∧ remoteFaults s' = faults
          ∧ drafts s' = drafts s ∧ console s' = console s.
Proof.
  induction localBRDs as [|brd rest IH]; intros n s k e faults Hc Hf Hk Hids; simpl in *.
  - lia.
  - unfold toMigrate in Hk, Hids |- *. simpl in *.
    destruct (StorageManager.existsInCloud cloudBRDs brd) eqn:Ex; simpl in *.
    + by eapply IH.
    + inversion Hids as [|? ? Hid Hids']; subst.
      destruct (brd !! "id") as [id|] eqn:Eid; [|done].
      unfold bind at 1.
      rewrite (saveBRDToFirestore_run brd "new" s id) by done.
      rewrite Hf. destruct k as [|k]; simpl.
      * by eexists.
      * set (s1 := set_cloud _ _).
        destruct (IH (S n) s1 k e faults) as (s' & E & Hcl & Hr & Hd & Hco);
          [done|done|unfold toMigrate; lia|done|].
        unfold toMigrate in Hcl.
        exists s'. rewrite E. split; [done|]. rewrite Hcl, Hr, Hd, Hco.
        split; [|done]. subst s1. rewrite Eid. simpl in *.
        by destruct (String.eqb id "").
Qed.

Example migrate_skips_the_matching_record :
  (StorageManager.migrateLocalToCloud
     (set_cloud {[ "a1"%string := older ]} (set_drafts (Stored [older]) online))).1 = Ok 0.
Proof. vm_compute. reflexivity. Qed.

Example migrate_pushes_the_other_record :
  (StorageManager.migrateLocalToCloud onlineHalfMigrated).1 = Ok 1
  ∧ cloud (StorageManager.migrateLocalToCloud onlineHalfMigrated).2 !! "b2" = Some newer.
Proof. split; vm_compute; reflexivity. Qed.

Lemma getLocalBRDs_proj s :
  ∃ s', StorageManager.getLocalBRDs s = (Ok (localList s), s')
        ∧ cloudAvailable s' = cloudAvailable s ∧ remoteFaults s' = remoteFaults s
        ∧ cloud s' = cloud s ∧ drafts s' = drafts s ∧ tempData s' = tempData s
        ∧ (∃ lines, console s' = console s ++ lines
                    ∧ (∀ brds, drafts s = Stored brds → lines = [])).
Proof.
  unfold StorageManager.getLocalBRDs, localList, bind, gets, ret, consoleError, modify.
  destruct (drafts s) eqn:E; simpl; eexists; (split; [reflexivity|]); simpl;
    rewrite ?E; repeat (split; [reflexivity|]).
  - exists []. by rewrite app_nil_r.
  - (exists ["Error parsing localStorage BRDs:"%string]). done.
  - exists []. by rewrite app_nil_r.
Qed.

(** C5: with remote storage available and no Firestore request failing,
    [migrateLocalToCloud] skips a local record exactly when a record read
    from the cloud has the same [title] and the same [createdAt], writes
    every other local record to the cloud under its id, and returns how many
    it wrote. *)
Theorem migrateLocalToCloud_pushes_local_only s :
  cloudAvailable s = true →
  Forall (fun o => o = None) (remoteFaults s) →
  let cloudBRDs := fetched (cloud s) in
  let migrated := toMigrate cloudBRDs (localList s) in
  Forall (fun brd : Obj => truthy (brd !! "id") = true) migrated →
  ∃ s',
    StorageManager.migrateLocalToCloud s = (Ok (length migrated), s')
    ∧ cloud s' = pushAll (cloud s) migrated
    ∧ drafts s' = drafts s
    ∧ (∀ brd, brd ∈ localList s →
         (brd ∉ migrated ↔
          ∃ cloudBRD, cloudBRD ∈ cloudBRDs
                      ∧ cloudBRD !! "title" = brd !! "title"
                      ∧ cloudBRD !! "createdAt" = brd !! "createdAt"))
    ∧ (∀ brd, brd ∈ migrated →
         ∃ id doc, brd !! "id" = Some id ∧ cloud s' !! id = Some doc
                   ∧ doc ∈ migrated ∧ doc !! "id" = Some id).
Proof.
  intros Hc Hf cloudBRDs migrated Hids.
  unfold StorageManager.migrateLocalToCloud. unfold bind at 1.
  unfold StorageManager.canUseCloudStorage at 1, gets at 1. rewrite Hc.
  unfold tryCatch. unfold bind at 1. cbn [negb]. cbv beta iota.
  destruct (getLocalBRDs_proj s) as (s1 & -> & Hc1 & Hf1 & Hcl1 & Hd1 & Ht1 & _).
  unfold bind at 1. rewrite loadBRDsFromFirestore_run by by rewrite Hc1.
  rewrite Hf1, Hcl1. fold cloudBRDs.
  destruct (nextOutcome_none _ Hf) as (faults & -> & Hf').
  destruct (migrateEach_ok cloudBRDs (localList s) 0 (set_remoteFaults faults s1))
    as (s' & -> & Hcl & Hd & _); [simpl; congruence|done|done|].
  exists s'. simpl in Hcl, Hd. rewrite Hcl, Hd, Hcl1, Hd1. fold migrated.
  split; [done|]. split; [done|]. split; [done|]. split.
  - intros brd Hin. unfold migrated. rewrite toMigrate_spec, <- existsInCloud_spec.
    destruct (StorageManager.existsInCloud cloudBRDs brd); split; try done.
    + by intros _ [_ ?].
    + intros H. by destruct H.
  - intros brd Hin. destruct (pushAll_lookup (cloud s) migrated brd Hin) as (doc & Hl & Hd' & Hid).
    assert (∀ b : Obj, b ∈ migrated → b !! "id" = Some (orElse (b !! "id") "")) as Hsome.
    { intros b Hb. apply truthy_orElse. by eapply Forall_forall in Hids. }
    exists (orElse (brd !! "id") ""), doc.
    split; [by apply Hsome|]. split; [done|]. split; [done|].
    rewrite <- Hid. by apply Hsome.
Qed.

Lemma migrateLocalToCloud_pushes_local_only_witness :
  cloudAvailable onlineHalfMigrated = true
  ∧ Forall (fun o => o = None) (remoteFaults onlineHalfMigrated)
  ∧ toMigrate (fetched (cloud onlineHalfMigrated)) (localList onlineHalfMigrated) = [newer]
  ∧ ∃ s', StorageManager.migrateLocalToCloud onlineHalfMigrated = (Ok 1, s')
          ∧ cloud s' = <["b2"%string := newer]> (cloud onlineHalfMigrated).
Proof.
  assert (toMigrate (fetched (cloud onlineHalfMigrated)) (localList onlineHalfMigrated)
          = [newer]) as Hm by (vm_compute; reflexivity).
  split; [reflexivity|]. split; [constructor|]. split; [exact Hm|].
  destruct (migrateLocalToCloud_pushes_local_only onlineHalfMigrated eq_refl)
    as (s' & E & Hcl & _).
  - constructor.
  - rewrite Hm. repeat constructor.
  - rewrite Hm in E, Hcl. exists s'. split; [exact E|exact Hcl].
Defined.

(** C6 fails on the code: the first push succeeds, the second is rejected,
    and the call returns 0 although one record is in the cloud, against the
    docstring "@returns Number of migrated BRDs". *)
Lemma migrateLocalToCloud_partial_returns_zero :
  (StorageManager.migrateLocalToCloud onlineThirdRequestFails).1 = Ok 0
  ∧ cloud (StorageManager.migrateLocalToCloud onlineThirdRequestFails).2 !! "a1" = Some older
  ∧ cloud onlineThirdRequestFails !! "a1" = None.
Proof. repeat split; vm_compute; reflexivity. Qed.

(** C6, what the code does instead: when a push is rejected after
    [succeeded] earlier pushes went through, [migrateLocalToCloud] returns
    0; the records pushed before stay in the cloud, the error is logged,
    the rejected push is not tried again and the remaining local records
    are not pushed. *)
Theorem migrateLocalToCloud_failure_returns_zero s succeeded e faults :
  cloudAvailable s = true →
  remoteFaults s = None :: replicate succeeded None ++ Some e :: faults →
  let migrated := toMigrate (fetched (cloud s)) (localList s) in
  succeeded < length migrated →
  Forall (fun brd : Obj => truthy (brd !! "id") = true) migrated →
  ∃ s',
    StorageManager.migrateLocalToCloud s = (Ok 0, s')
    ∧ cloud s' = pushAll (cloud s) (take succeeded migrated)
    ∧ remoteFaults s' = faults
    ∧ drafts s' = drafts s
    ∧ last (console s') = Some ("Error migrating to cloud: " +:+ e).
Proof.
  intros Hc Hf migrated Hk Hids.
  unfold StorageManager.migrateLocalToCloud. unfold bind at 1.
  unfold StorageManager.canUseCloudStorage at 1, gets at 1. rewrite Hc.
  unfold tryCatch. unfold bind at 1. cbn [negb]. cbv beta iota.
  destruct (getLocalBRDs_proj s) as (s1 & -> & Hc1 & Hf1 & Hcl1 & Hd1 & Ht1 & _).
  unfold bind at 1. rewrite loadBRDsFromFirestore_run by by rewrite Hc1.
  rewrite Hf1, Hcl1, Hf. simpl nextOutcome. cbv iota.
  destruct (migrateEach_fails (fetched (cloud s)) (localList s) 0
              (set_remoteFaults (replicate succeeded None ++ Some e :: faults) s1)
              succeeded e faults)
    as (s' & -> & Hcl & Hr & Hd & Hco); [simpl; congruence|done|done|done|].
  unfold bind, consoleError, modify, ret.
  eexists. split; [reflexivity|]. simpl in *.
  rewrite Hcl, Hr, Hd, Hcl1, Hd1. repeat (split; [done|]).
  by rewrite last_snoc.
Qed.

Lemma migrateLocalToCloud_failure_returns_zero_witness :
  cloudAvailable onlineThirdRequestFails = true
  ∧ remoteFaults onlineThirdRequestFails = None :: replicate 1 None ++ [Some "unavailable"%string]
  ∧ toMigrate (fetched (cloud onlineThirdRequestFails)) (localList onlineThirdRequestFails)
    = [older; newer]
  ∧ ∃ s', StorageManager.migrateLocalToCloud onlineThirdRequestFails = (Ok 0, s')
          ∧ cloud s' = <["a1"%string := older]> ∅.
Proof.
  assert (toMigrate (fetched (cloud onlineThirdRequestFails))
                    (localList onlineThirdRequestFails) = [older; newer]) as Hm
    by (vm_compute; reflexivity).
  split; [reflexivity|]. split; [reflexivity|]. split; [exact Hm|].
  destruct (migrateLocalToCloud_failure_returns_zero onlineThirdRequestFails 1
              "unavailable" [] eq_refl eq_refl) as (s' & E & Hcl & _).
  - rewrite Hm. simpl. lia.
  - rewrite Hm. repeat constructor.
  - rewrite Hm in Hcl. exists s'. split; [exact E|exact Hcl].
Defined.

(** ** [validateField] *)

Example trim_both_ends : trim "  Payroll system  " = "Payroll system"%string.
Proof. reflexivity. Qed.
Example trim_blank : trim (String "009" (String " " EmptyString)) = ""%string.
Proof. reflexivity. Qed.

Example title_too_short :
  FormGenerator.validateField
    (FormGenerator.field "text" "title" true (Some {| minLength := Some 5; maxLength := Some 100 |}) None)
    (input "title" " BRD ")
  = (false, ["Minimal 5 karakter"%string]).
Proof. reflexivity. Qed.

Example title_missing :
  FormGenerator.validateField
    (FormGenerator.field "text" "title" true (Some {| minLength := Some 5; maxLength := Some 100 |}) None)
    (input "title" "   ")
  = (false, ["Field ini wajib diisi"%string]).
Proof. reflexivity. Qed.

Lemma truthy_nonempty value : truthy (Some value) = true ↔ value ≠ ""%string.
Proof.
  simpl. destruct (String.eqb_spec value "") as [->|N]; simpl; split; done.
Qed.

Lemma truthy_empty value : truthy (Some value) = false ↔ value = ""%string.
Proof.
  simpl. destruct (String.eqb_spec value "") as [->|N]; simpl; split; done.
Qed.

(** C8, as stated, fails: a maximum of 0 is not enforced, a value of
    length 1 passes a field whose maximum length is 0. *)
Lemma validateField_ignores_zero_maximum :
  maxOf zeroMaxField = Some 0
  ∧ trim (el_value (input "note" "a")) = "a"%string
  ∧ 0 < String.length (trim (el_value (input "note" "a")))
  ∧ FormGenerator.validateField zeroMaxField (input "note" "a") = (true, []).
Proof. repeat split. simpl. lia. Qed.

Lemma validateField_eq field element :
  FormGenerator.validateField field element
  = (negb (missingRequired field (trim (el_value element))
           || tooShort field (trim (el_value element))
           || tooLong field (trim (el_value element))),
     (if missingRequired field (trim (el_value element))
      then ["Field ini wajib diisi"%string] else [])
     ++ (if tooShort field (trim (el_value element))
         then ["Minimal " +:+ pretty (default 0 (minOf field)) +:+ " karakter"] else [])
     ++ (if tooLong field (trim (el_value element))
         then ["Maksimal " +:+ pretty (default 0 (maxOf field)) +:+ " karakter"] else [])).
Proof.
  unfold FormGenerator.validateField, FormGenerator.invalid, missingRequired, tooShort,
    tooLong, minOf, maxOf.
  destruct (field_required field), (truthy (Some (trim (el_value element)))),
    (field_validation field) as [[[min|] [max|]]|]; simpl;
    repeat match goal with |- context [if ?b then _ else _] => destruct b end;
    reflexivity.
Qed.

(** C8, amended: [validateField] marks the field with the required-field
    message exactly when the field is required and the trimmed value is
    empty, with the minimum-length message exactly when the trimmed value is
    not empty and shorter than the minimum, and with the maximum-length
    message exactly when the trimmed value is not empty and longer than a
    maximum that is not 0 (a maximum of 0 counts as none); it makes no other
    mark, and it returns true exactly when it makes none.  On an empty
    trimmed value neither length message is produced. *)
Theorem validateField_reasons field element :
  ∃ missing short long : bool,
    FormGenerator.validateField field element
    = (negb (missing || short || long),
       (if missing then ["Field ini wajib diisi"%string] else [])
       ++ (if short then ["Minimal " +:+ pretty (default 0 (minOf field)) +:+ " karakter"] else [])
       ++ (if long then ["Maksimal " +:+ pretty (default 0 (maxOf field)) +:+ " karakter"] else []))
    ∧ (missing = true ↔
       field_required field = true ∧ trim (el_value element) = ""%string)
    ∧ (short = true ↔
       trim (el_value element) ≠ ""%string
       ∧ ∃ min, minOf field = Some min ∧ String.length (trim (el_value element)) < min)
    ∧ (long = true ↔
       trim (el_value element) ≠ ""%string
       ∧ ∃ max, maxOf field = Some max ∧ max ≠ 0
                ∧ max < String.length (trim (el_value element)))
    ∧ (trim (el_value element) = ""%string → short = false ∧ long = false).
Proof.
  set (value := trim (el_value element)).
  exists (missingRequired field value), (tooShort field value), (tooLong field value).
  unfold missingRequired, tooShort, tooLong.
  split; [|split; [|split; [|split]]].
  - apply validateField_eq.
  - by rewrite andb_true_iff, negb_true_iff, truthy_empty.
  - rewrite !andb_true_iff, truthy_nonempty, Nat.ltb_lt.
    unfold truthyNumber. destruct (minOf field) as [min|]; simpl; split.
    + intros [[Hv _] Hlt]. split; [done|]. by exists min.
    + intros (Hv & m & [= <-] & Hlt).
      repeat split; [done| |done]. apply negb_true_iff, Nat.eqb_neq. lia.
    + by intros [[_ ?] _].
    + by intros (_ & m & ? & _).
  - rewrite !andb_true_iff, truthy_nonempty, Nat.ltb_lt.
    unfold truthyNumber. destruct (maxOf field) as [max|]; simpl; split.
    + intros [[Hv Hn] Hlt]. split; [done|]. exists max.
      by rewrite negb_true_iff, Nat.eqb_neq in Hn.
    + intros (Hv & m & [= <-] & Hn & Hlt).
      repeat split; [done| |done]. by apply negb_true_iff, Nat.eqb_neq.
    + by intros [[_ ?] _].
    + by intros (_ & m & ? & _).
  - intros Hv. rewrite Hv. done.
Qed.

(** ** [validateCurrentSection] and [navigateNext] *)

Lemma validateField_value field e e' :
  el_value e = el_value e' →
  FormGenerator.validateField field e = FormGenerator.validateField field e'.
Proof. intros H. unfold FormGenerator.validateField. by rewrite H. Qed.

Lemma validateField_invalid field element :
  (FormGenerator.validateField field element).1 = false →
  ∃ message, last (FormGenerator.validateField field element).2 = Some message.
Proof.
  rewrite validateField_eq. simpl.
  destruct (missingRequired _ _), (tooShort _ _), (tooLong _ _); simpl;
    intros; try done; by eexists.
Qed.

Lemma validateField_valid field element :
  (FormGenerator.validateField field element).1 = true →
  (FormGenerator.validateField field element).2 = [].
Proof.
  rewrite validateField_eq. simpl.
  by destruct (missingRequired _ _), (tooShort _ _), (tooLong _ _).
Qed.

Lemma foldl_mark_shape e messages :
  shape (foldl FormGenerator.markFieldInvalid e messages) = shape e.
Proof.
  revert e. induction messages as [|m ms IH]; intros e; simpl; [done|]. by rewrite IH.
Qed.

Lemma foldl_mark_last e messages message :
  last messages = Some message →
  el_invalid (foldl FormGenerator.markFieldInvalid e messages) = true
  ∧ el_error (foldl FormGenerator.markFieldInvalid e messages) = Some message.
Proof.
  destruct messages as [|m ms _] using rev_ind; [done|].
  rewrite last_snoc. intros [= ->]. by rewrite foldl_app.
Qed.

(** *** The inputs of the form as a list *)

Section Inputs.
Import FormGenerator.

Lemma getElementById_Some id inputs e :
  getElementById id inputs = Some e → e ∈ inputs ∧ el_id e = id.
Proof.
  unfold getElementById. intros H. apply find_some in H as [Hin Heq].
  split; [by apply list_elem_of_In|]. by apply String.eqb_eq.
Qed.

Lemma shape_eq e e' :
  shape e = shape e' → el_id e = el_id e' ∧ el_value e = el_value e'.
Proof. unfold shape. by intros [= -> ->]. Qed.

Lemma getElementById_shape id l l' :
  shape <$> l = shape <$> l' →
  shape <$> getElementById id l = shape <$> getElementById id l'.
Proof.
  revert l'. induction l as [|e l IH]; intros [|e' l'] H; try done.
  injection H as Hid Hval Hl. simpl. rewrite <- Hid.
  destruct (String.eqb (el_id e) id); [|by apply IH].
  simpl. unfold shape. by rewrite Hid, Hval.
Qed.

Lemma updateElement_shape id g l :
  (∀ e, shape (g e) = shape e) → shape <$> updateElement id g l = shape <$> l.
Proof.
  intros Hg. induction l as [|e l IH]; simpl; [done|].
  destruct (String.eqb (el_id e) id); rewrite !fmap_cons; [by rewrite Hg|by rewrite IH].
Qed.

Lemma updateElement_same id g l :
  (∀ e, g e = e) → updateElement id g l = l.
Proof.
  intros Hg. induction l as [|e l IH]; simpl; [done|].
  destruct (String.eqb (el_id e) id); [by rewrite Hg|by rewrite IH].
Qed.

Lemma updateElement_elem id g l e el :
  getElementById id l = Some el →
  e ∈ updateElement id g l → e ∈ l ∨ e = g el.
Proof.
  induction l as [|x l IH]; simpl; [done|].
  destruct (String.eqb (el_id x) id).
  - intros [= ->] [->|H]%elem_of_cons; [by right|left; by apply elem_of_cons; right].
  - intros Hg [->|H]%elem_of_cons; [left; by apply elem_of_cons; left|].
    destruct (IH Hg H) as [?|?]; [left; by apply elem_of_cons; right|by right].
Qed.

Lemma getElementById_update id g l el :
  getElementById id l = Some el → el_id (g el) = id →
  getElementById id (updateElement id g l) = Some (g el).
Proof.
  unfold getElementById. intros Hg Hid. induction l as [|x l IH]; simpl in *; [done|].
  destruct (String.eqb (el_id x) id) eqn:E.
  - injection Hg as ->. simpl. by rewrite Hid, String.eqb_refl.
  - simpl. rewrite E. by apply IH.
Qed.

Lemma getElementById_update_ne id id' g l :
  id ≠ id' → (∀ e, el_id (g e) = el_id e) →
  getElementById id' (updateElement id g l) = getElementById id' l.
Proof.
  unfold getElementById. intros Hne Hg. induction l as [|x l IH]; simpl; [done|].
  destruct (String.eqb (el_id x) id) eqn:E; simpl.
  - rewrite Hg. apply String.eqb_eq in E.
    destruct (String.eqb_spec (el_id x) id'); [congruence|done].
  - by rewrite IH.
Qed.

Lemma flagged_update id g l el :
  getElementById id l = Some el →
  el_invalid el = false → el_invalid (g el) = true →
  length (flagged (updateElement id g l)) = S (length (flagged l)).
Proof.
  unfold getElementById, flagged. intros Hg Hf Ht.
  induction l as [|x l IH]; simpl in *; [done|].
  destruct (String.eqb (el_id x) id) eqn:E.
  - injection Hg as ->. simpl. by rewrite Hf, Ht.
  - simpl. destruct (el_invalid x); simpl; by rewrite IH.
Qed.

Lemma fieldFails_shape l l' field :
  shape <$> l = shape <$> l' → fieldFails l field = fieldFails l' field.
Proof.
  intros H. unfold fieldFails.
  pose proof (getElementById_shape (fieldId field) l l' H) as Hs.
  destruct (getElementById _ l) as [e|], (getElementById _ l') as [e'|]; try done.
  rewrite (validateField_value field e e'); [done|].
  by injection Hs.
Qed.

Lemma markField_shape field l : shape <$> markField field l = shape <$> l.
Proof.
  unfold markField. destruct (getElementById _ l) as [el|]; [|done].
  apply updateElement_shape. intros e. apply foldl_mark_shape.
Qed.

Lemma markEach_shape fields l : shape <$> markEach fields l = shape <$> l.
Proof.
  revert l. induction fields as [|f fields IH]; intros l; simpl; [done|].
  unfold markEach in *. simpl. by rewrite IH, markField_shape.
Qed.

Lemma markField_valid field l : fieldFails l field = false → markField field l = l.
Proof.
  unfold fieldFails, markField. destruct (getElementById _ l) as [el|]; [|done].
  intros H. apply negb_false_iff in H. rewrite (validateField_valid _ _ H).
  by apply updateElement_same.
Qed.

Lemma fieldId_inj f f' : fieldId f = fieldId f' → field_id f = field_id f'.
Proof. unfold fieldId. simpl. by intros [= ?]. Qed.

Lemma markEach_lookup_other fields l id :
  id ∉ fieldId <$> fields →
  getElementById id (markEach fields l) = getElementById id l.
Proof.
  revert l. induction fields as [|f fields IH]; intros l Hni; [done|].
  rewrite fmap_cons, not_elem_of_cons in Hni. destruct Hni as [Hne Hni].
  unfold markEach in *. simpl. rewrite IH by done.
  unfold markField. destruct (getElementById (fieldId f) l) as [el|]; [|done].
  apply getElementById_update_ne; [done|].
  intros e. by destruct (shape_eq _ _ (foldl_mark_shape e (validateField f el).2)).
Qed.

Lemma flagged_elem e l : e ∈ flagged l ↔ e ∈ l ∧ el_invalid e = true.
Proof. unfold flagged. by rewrite !list_elem_of_In, filter_In. Qed.

Lemma markEach_report fields :
  ∀ l,
    NoDup (fieldId <$> fields) →
    (∀ e, e ∈ l → el_invalid e = true → el_id e ∉ fieldId <$> fields) →
    length (flagged (markEach fields l))
    = length (flagged l) + length (List.filter (fieldFails l) fields)
    ∧ (∀ e, e ∈ markEach fields l → el_invalid e = true →
         (e ∈ l ∧ el_invalid e = true)
         ∨ ∃ f, f ∈ fields ∧ fieldFails l f = true ∧ el_id e = fieldId f)
    ∧ (∀ f, f ∈ fields → fieldFails l f = true →
         ∃ e message,
           getElementById (fieldId f) (markEach fields l) = Some e
           ∧ el_invalid e = true ∧ el_error e = Some message
           ∧ last (validateField f e).2 = Some message).
Proof.
  induction fields as [|f rest IH]; intros l Hnd Hfresh.
  { simpl. split; [lia|]. split; [by left|]. by intros f ?%elem_of_nil. }
  rewrite fmap_cons in Hnd. apply NoDup_cons in Hnd as [Hf Hnd].
  assert (∀ f', fieldFails (markField f l) f' = fieldFails l f') as Hsame.
  { intros f'. apply fieldFails_shape, markField_shape. }
  assert (List.filter (fieldFails (markField f l)) rest = List.filter (fieldFails l) rest)
    as Hfilter by (apply filter_ext; intros; apply Hsame).
  change (markEach (f :: rest) l) with (markEach rest (markField f l)).
  destruct (fieldFails l f) eqn:Efail.
  - (* the field is invalid: its input gets the class and the message *)
    pose proof Efail as Efail'. unfold fieldFails in Efail'.
    destruct (getElementById (fieldId f) l) as [el|] eqn:Eget; [|done].
    apply negb_true_iff in Efail'.
    destruct (validateField_invalid _ _ Efail') as [message Hlast].
    destruct (getElementById_Some _ _ _ Eget) as [Hel Hid].
    set (g := fun e => foldl markFieldInvalid e (validateField f el).2).
    assert (markField f l = updateElement (fieldId f) g l) as Hl1.
    { unfold markField. by rewrite Eget. }
    destruct (foldl_mark_last el _ _ Hlast) as [Hflag Herr]. fold (g el) in Hflag, Herr.
    destruct (shape_eq _ _ (foldl_mark_shape el (validateField f el).2)) as [Hgid Hgval].
    fold (g el) in Hgid, Hgval.
    assert (el_invalid el = false) as Hclean.
    { destruct (el_invalid el) eqn:E; [|done]. exfalso.
      apply (Hfresh el Hel E). rewrite Hid, fmap_cons. apply elem_of_cons. by left. }
    destruct (IH (markField f l) Hnd) as (Hlen & Hflagged & Hreport).
    { intros e He Hinv. rewrite Hl1 in He.
      destruct (updateElement_elem _ _ _ _ _ Eget He) as [Hin| ->].
      - specialize (Hfresh e Hin Hinv). rewrite fmap_cons, not_elem_of_cons in Hfresh.
        by destruct Hfresh.
      - by rewrite Hgid, Hid. }
    split; [|split].
    + rewrite Hlen, Hfilter. simpl. rewrite Efail. simpl.
      rewrite Hl1, (flagged_update _ _ _ el) by done. lia.
    + intros e He Hinv. destruct (Hflagged e He Hinv) as [[Hin _]|(f' & Hf' & Hfail & Heid)].
      * rewrite Hl1 in Hin.
        destruct (updateElement_elem _ _ _ _ _ Eget Hin) as [Hin'| ->]; [by left|].
        right. exists f. split; [by apply elem_of_cons; left|]. by rewrite Hgid, Hid.
      * right. exists f'. rewrite Hsame in Hfail. split; [by apply elem_of_cons; right|done].
    + intros f' [->|Hf']%elem_of_cons Hfail.
      * exists (g el), message.
        rewrite markEach_lookup_other by done. rewrite Hl1.
        split; [apply getElementById_update; [exact Eget|exact (eq_trans Hgid Hid)]|].
        split; [done|]. split; [done|].
        by rewrite (validateField_value f (g el) el).
      * apply Hreport; [done|]. by rewrite Hsame.
  - (* the field is valid or has no input: nothing changes *)
    rewrite (markField_valid _ _ Efail) in *.
    destruct (IH l Hnd) as (Hlen & Hflagged & Hreport).
    { intros e He Hinv. specialize (Hfresh e He Hinv).
      rewrite fmap_cons, not_elem_of_cons in Hfresh. by destruct Hfresh. }
    split; [|split].
    + rewrite Hlen. simpl. by rewrite Efail.
    + intros e He Hinv. destruct (Hflagged e He Hinv) as [?|(f' & Hf' & Hfail & Heid)];
        [by left|].
      right. exists f'. split; [by apply elem_of_cons; right|done].
    + intros f' [->|Hf']%elem_of_cons Hfail; [congruence|]. by apply Hreport.
Qed.

Lemma NoDup_fieldId fields :
  NoDup (field_id <$> fields) → NoDup (fieldId <$> fields).
Proof.
  induction fields as [|f fields IH]; [constructor|].
  rewrite !fmap_cons, !NoDup_cons. intros [Hni Hnd]. split; [|by apply IH].
  intros (f' & Heq & Hin)%list_elem_of_fmap. apply Hni.
  apply list_elem_of_fmap. exists f'. split; [by apply fieldId_inj|done].
Qed.

Lemma flagged_clear (l : list Element) : flagged (clearInvalid <$> l) = [].
Proof.
  induction l as [|e l IH]; [done|]. rewrite fmap_cons. unfold flagged in *. simpl. apply IH.
Qed.

Lemma clear_shape (l : list Element) : shape <$> (clearInvalid <$> l) = shape <$> l.
Proof. rewrite <- list_fmap_compose. by apply list_fmap_ext. Qed.

Lemma set_brdForm_same w l : brdForm w = Some l → set_brdForm (Some l) w = w.
Proof. destruct w. simpl. by intros ->. Qed.

(** Whether every field passes, on given inputs. *)
Lemma allValid_shape l l' fields :
  shape <$> l = shape <$> l' →
  forallb (fun f => negb (fieldFails l f)) fields
  = forallb (fun f => negb (fieldFails l' f)) fields.
Proof.
  intros H. induction fields as [|f fields IH]; simpl; [done|].
  by rewrite IH, (fieldFails_shape l l' f H).
Qed.

Lemma allValid_invalidFields l fields :
  forallb (fun f => negb (fieldFails l f)) fields = true ↔ List.filter (fieldFails l) fields = [].
Proof.
  induction fields as [|f fields IH]; simpl; [done|].
  destruct (fieldFails l f); simpl; [done|apply IH].
Qed.

Lemma validateEach_run fields :
  ∀ isValid w l,
    brdForm w = Some l →
    validateEach fields isValid w
    = (Ok (isValid && forallb (fun f => negb (fieldFails l f)) fields),
       set_brdForm (Some (markEach fields l)) w).
Proof.
  induction fields as [|f rest IH]; intros isValid w l Hform.
  { simpl. unfold ret. by rewrite andb_true_r, set_brdForm_same. }
  assert (inputsOf w = l) as Hin by (unfold inputsOf; by rewrite Hform).
  change (markEach (f :: rest) l) with (markEach rest (markField f l)).
  simpl forallb.
  rewrite <- (allValid_shape (markField f l) l rest) by apply markField_shape.
  simpl validateEach. unfold bind at 1, gets. rewrite Hin.
  unfold fieldFails at 1. unfold markField.
  destruct (getElementById (fieldId f) l) as [el|] eqn:Eget.
  - destruct (validateField f el) as [ok messages] eqn:Ev. cbn [fst snd].
    unfold bind, modify, setInputs. rewrite Hform.
    rewrite (IH _ _ (updateElement (fieldId f) (fun e => foldl markFieldInvalid e messages) l))
      by done.
    f_equal. f_equal. by destruct ok, isValid.
  - by rewrite (IH _ _ l).
Qed.

Lemma validateCurrentSection_run w section l :
  sections w !! currentStep w = Some section →
  brdForm w = Some l →
  let valid := forallb (fun f => negb (fieldFails l f)) (fields section) in
  let marked := set_brdForm (Some (markEach (fields section) (clearInvalid <$> l))) w in
  validateCurrentSection w
  = (Ok valid,
     if valid then marked
     else set_toasts (toasts w ++ [("Mohon isi semua kolom yang diperlukan dengan benar"%string,
                                    "error"%string)]) marked).
Proof.
  intros Hsec Hform valid marked.
  assert (inputsOf w = l) as Hin by (unfold inputsOf; by rewrite Hform).
  unfold validateCurrentSection. unfold bind at 1, gets. unfold bind at 1, modify.
  unfold setInputs at 1. rewrite Hin, Hform, Hsec.
  unfold bind at 1. rewrite (validateEach_run _ _ _ (clearInvalid <$> l)) by done.
  simpl andb. rewrite (allValid_shape _ l) by apply clear_shape. fold valid.
  unfold bind, when, showToast, modify, ret. by destruct valid.
Qed.

Lemma failures_elem w id message :
  (id, message) ∈ failures w ↔
  ∃ e, e ∈ inputsOf w ∧ el_invalid e = true ∧ el_id e = id ∧ default "" (el_error e) = message.
Proof.
  unfold failures. rewrite list_elem_of_fmap. split.
  - intros (e & [= -> ->] & He). apply flagged_elem in He as [? ?]. by exists e.
  - intros (e & He & Hinv & <- & <-). exists e. split; [done|]. by apply flagged_elem.
Qed.
End Inputs.

Lemma invalidFields_nil section : invalidFields section [] = [].
Proof.
  unfold invalidFields. induction (fields section) as [|f fs IH]; [done|]. exact IH.
Qed.

(** C7: when at least one field of the current section fails validation,
    [navigateNext] leaves the current section where it is and changes
    neither the form data nor the storage; afterwards the page shows one
    failure per invalid field and no other: the input of each invalid field,
    found by the id of the field, carries the class and the message of its
    last failed check.  With exactly one invalid field there is exactly one
    failure. *)
Theorem navigateNext_blocked_by_invalid_fields w section :
  sections w !! currentStep w = Some section →
  NoDup (field_id <$> fields section) →
  invalidFields section (FormGenerator.inputsOf w) ≠ [] →
  ∃ w',
    FormGenerator.navigateNext w = (Ok tt, w')
    ∧ currentStep w' = currentStep w
    ∧ formData w' = formData w
    ∧ storage w' = storage w
    ∧ length (failures w') = length (invalidFields section (FormGenerator.inputsOf w))
    ∧ (∀ field, field ∈ invalidFields section (FormGenerator.inputsOf w) →
         ∃ element message,
           FormGenerator.getElementById (FormGenerator.fieldId field) (FormGenerator.inputsOf w)
           = Some element
           ∧ last (FormGenerator.validateField field element).2 = Some message
           ∧ (FormGenerator.fieldId field, message) ∈ failures w')
    ∧ (∀ id message, (id, message) ∈ failures w' →
         ∃ field, field ∈ invalidFields section (FormGenerator.inputsOf w)
                  ∧ id = FormGenerator.fieldId field).
Proof.
  intros Hsec Hnd Hbad.
  destruct (brdForm w) as [l|] eqn:Hform; cycle 1.
  { exfalso. apply Hbad. unfold FormGenerator.inputsOf. rewrite Hform.
    apply invalidFields_nil. }
  assert (FormGenerator.inputsOf w = l) as Hin
    by (unfold FormGenerator.inputsOf; by rewrite Hform).
  rewrite Hin in *.
  unfold FormGenerator.navigateNext. unfold bind at 1.
  rewrite (validateCurrentSection_run w section l Hsec Hform).
  destruct (forallb _ (fields section)) eqn:Hvalid.
  { apply allValid_invalidFields in Hvalid. by destruct Hbad. }
  unfold when, ret. eexists. split; [reflexivity|]. simpl.
  split; [done|]. split; [done|]. split; [done|].
  set (l0 := FormGenerator.clearInvalid <$> l).
  assert (shape <$> l0 = shape <$> l) as Hshape by apply clear_shape.
  assert (List.filter (fieldFails l0) (fields section) = invalidFields section l) as Hfilter.
  { apply filter_ext. intros f. by apply fieldFails_shape. }
  destruct (markEach_report (fields section) l0 (NoDup_fieldId _ Hnd))
    as (Hlen & Hflagged & Hreport).
  { intros e He Hinv. exfalso.
    apply list_elem_of_fmap in He as (e0 & -> & _). done. }
  unfold l0 in Hlen at 2. rewrite flagged_clear, Hfilter in Hlen. simpl in Hlen.
  split; [|split].
  - unfold failures, FormGenerator.inputsOf. simpl. by rewrite length_fmap.
  - intros f Hf. unfold invalidFields in Hf.
    apply list_elem_of_In, filter_In in Hf as [Hf Hfail]. apply list_elem_of_In in Hf.
    destruct (Hreport f Hf) as (e & message & Hget & Hinv & Herr & Hlast);
      [by rewrite (fieldFails_shape l0 l)|].
    pose proof (getElementById_shape (FormGenerator.fieldId f) _ _
                  (markEach_shape (fields section) l0)) as Hs1.
    pose proof (getElementById_shape (FormGenerator.fieldId f) _ _ Hshape) as Hs2.
    rewrite Hget, Hs2 in Hs1.
    destruct (FormGenerator.getElementById (FormGenerator.fieldId f) l) as [el|]; [|done].
    injection Hs1 as _ Hval.
    exists el, message. split; [done|].
    split; [by rewrite <- (validateField_value f e el)|].
    apply failures_elem. exists e.
    destruct (getElementById_Some _ _ _ Hget) as [Hine Hide].
    unfold FormGenerator.inputsOf. simpl. by rewrite Herr.
  - intros id message (e & He & Hinv & <- & _)%failures_elem.
    unfold FormGenerator.inputsOf in He. simpl in He.
    destruct (Hflagged e He Hinv) as [[Hin0 _]|(f & Hf & Hfail & Hid)].
    + apply list_elem_of_fmap in Hin0 as (e0 & -> & _). done.
    + exists f. split; [|done]. unfold invalidFields.
      apply list_elem_of_In, filter_In. split; [by apply list_elem_of_In|].
      by rewrite <- (fieldFails_shape l0 l).
Qed.

Lemma navigateNext_blocked_by_invalid_fields_witness :
  sections titleMissing !! currentStep titleMissing = Some documentInfo
  ∧ length (invalidFields documentInfo (FormGenerator.inputsOf titleMissing)) = 1
  ∧ ∃ w',
      FormGenerator.navigateNext titleMissing = (Ok tt, w')
      ∧ currentStep w' = 0
      ∧ length (failures w') = 1.
Proof.
  assert (length (invalidFields documentInfo (FormGenerator.inputsOf titleMissing)) = 1)
    as Hone by (vm_compute; reflexivity).
  split; [reflexivity|]. split; [exact Hone|].
  destruct (navigateNext_blocked_by_invalid_fields titleMissing documentInfo eq_refl)
    as (w' & E & Hstep & _ & _ & Hlen & _).
  - apply (bool_decide_unpack _). vm_compute. exact I.
  - intros Hnil. rewrite Hnil in Hone. discriminate Hone.
  - exists w'. split; [exact E|]. split; [exact Hstep|]. by rewrite Hlen.
Defined.

Example navigateNext_reports_the_empty_title :
  currentStep (FormGenerator.navigateNext titleMissing).2 = 0
  ∧ failures (FormGenerator.navigateNext titleMissing).2
    = [("input-title"%string, "Field ini wajib diisi"%string)].
Proof. split; vm_compute; reflexivity. Qed.

Example navigateNext_advances_when_valid :
  currentStep (FormGenerator.navigateNext
                 (wizardAt 0 (documentInfoPage "Payroll system" "Acme"))).2 = 1.
Proof. vm_compute. reflexivity. Qed.

(** ** Jumping to a section from the sidebar *)

Lemma saveTempData_run data s :
  ∃ s', StorageManager.saveTempData data s = (Ok tt, s')
        ∧ (nextFault (localFaults s) = None → tempData s' = Stored (data ∪ draftOf s))
        ∧ drafts s' = drafts s ∧ cloud s' = cloud s.
Proof.
  unfold StorageManager.saveTempData, StorageManager.getTempData, tryCatch, setItemRequest,
    nextFault, draftOf, bind, gets, ret, consoleError, modify.
  destruct (tempData s) eqn:Et; simpl;
    destruct (nextOutcome (localFaults s)) as [[e|] rest]; simpl;
    eexists; (split; [reflexivity|]); simpl; by rewrite ?Et.
Qed.

Section Jump.
Import FormGenerator.

Lemma saveCurrentSectionData_run w :
  ∃ w', saveCurrentSectionData w = (Ok tt, w')
        ∧ currentStep w' = currentStep w ∧ sections w' = sections w
        ∧ formData w' = formDataOf (inputsOf w) ∪ formData w
        ∧ brdForm w' = brdForm w ∧ toasts w' = toasts w
        ∧ (nextFault (localFaults (storage w)) = None →
           tempData (storage w')
           = Stored ((formDataOf (inputsOf w) ∪ formData w) ∪ draftOf (storage w))).
Proof.
  unfold saveCurrentSectionData, getCurrentFormData, onStorage, bind, gets, ret, modify.
  simpl.
  destruct (saveTempData_run (formDataOf (inputsOf w) ∪ formData w) (storage w))
    as (s' & -> & Ht & _).
  eexists. split; [reflexivity|]. simpl. done.
Qed.

Lemma updateElement_clean id g l :
  (∀ e, el_invalid (g e) = el_invalid e) → clean l → clean (updateElement id g l).
Proof.
  intros Hg. induction 1 as [|e l He Hl IH]; simpl; [constructor|].
  destruct (String.eqb (el_id e) id); constructor; try done. by rewrite Hg.
Qed.

Lemma clean_flagged l : clean l → flagged l = [].
Proof.
  induction 1 as [|e l He Hl IH]; [done|]. unfold flagged in *. simpl. by rewrite He.
Qed.

Lemma loadSavedEach_run (tempData : Obj) fields :
  ∀ w,
    ∃ w', forOf fields (loadSavedField tempData) w = (Ok tt, w')
          ∧ currentStep w' = currentStep w ∧ sections w' = sections w
          ∧ formData w' = formData w ∧ toasts w' = toasts w ∧ storage w' = storage w
          ∧ (clean (inputsOf w) → clean (inputsOf w')).
Proof.
  induction fields as [|f rest IH]; intros w; simpl.
  { by exists w. }
  unfold bind at 1. unfold loadSavedField at 1. unfold bind at 1, gets.
  destruct (getElementById (fieldId f) (inputsOf w)) as [el|]; [|apply IH].
  destruct (truthy (tempData !! field_name f)); [|apply IH].
  unfold when, modify.
  set (w1 := setInputs _ w).
  destruct (IH w1) as (w' & -> & H1 & H2 & H3 & H4 & H5 & H6).
  exists w'. split; [done|].
  assert (currentStep w1 = currentStep w ∧ sections w1 = sections w
          ∧ formData w1 = formData w ∧ toasts w1 = toasts w ∧ storage w1 = storage w)
    as (<- & <- & <- & <- & <-).
  { unfold w1, setInputs. by destruct (brdForm w). }
  repeat (split; [done|]).
  intros Hc. apply H6. unfold w1, setInputs, inputsOf in *.
  destruct (brdForm w) eqn:E; simpl in *; [by apply updateElement_clean|].
  rewrite E. constructor.
Qed.

Lemma loadFormSection_run index w section :
  sections w !! index = Some section →
  ∃ w', loadFormSection index w = (Ok tt, w')
        ∧ currentStep w' = index ∧ sections w' = sections w
        ∧ formData w' = formData w ∧ toasts w' = toasts w
        ∧ tempData (storage w') = tempData (storage w)
        ∧ failures w' = [].
Proof.
  intros Hsec. unfold loadFormSection. unfold bind at 1, gets. rewrite Hsec.
  unfold bind at 1, modify. unfold bind at 1. unfold buildSectionForm, modify.
  set (w1 := setInputs _ _).
  unfold loadSavedSectionData. unfold bind at 1.
  assert (∃ data s', StorageManager.getTempData (storage w1) = (Ok data, s')
                     ∧ tempData s' = tempData (storage w1)) as (data & s' & Eg & Ht).
  { unfold StorageManager.getTempData, bind, gets, ret, consoleError, modify.
    destruct (tempData (storage w1)) eqn:E; simpl; eexists _, _; (split; [reflexivity|]);
      simpl; by rewrite ?E. }
  unfold onStorage at 1. rewrite Eg.
  destruct (loadSavedEach_run data (fields section) (set_storage s' w1))
    as (w' & -> & H1 & H2 & H3 & H4 & H5 & H6).
  exists w'.
  assert (currentStep w1 = index ∧ sections w1 = sections w ∧ formData w1 = formData w
          ∧ toasts w1 = toasts w ∧ storage w1 = storage w) as (Hs & Hse & Hf & Hto & Hst).
  { unfold w1, setInputs. simpl. by destruct (brdForm w). }
  simpl in *. rewrite H1, H2, H3, H4, H5. rewrite Hst in Ht.
  repeat (split; [done|]).
  unfold failures. rewrite clean_flagged; [done|]. apply H6.
  unfold w1, setInputs, inputsOf. simpl.
  destruct (brdForm w) eqn:E; simpl; rewrite ?E; simpl; [|constructor].
  apply Forall_fmap, Forall_forall. done.
Qed.
End Jump.




(** ** [loadBRD] and [deleteBRD] *)

Lemma at_of_nat {A} (l : list A) i : StorageManager.at_ l (Z.of_nat i) = l !! i.
Proof.
  unfold StorageManager.at_. destruct (Z.ltb_spec (Z.of_nat i) 0); [lia|].
  by rewrite Nat2Z.id.
Qed.

Lemma findIndex_Some {A} (p : A → bool) l i :
  findIndex p l = Some i → ∃ x, l !! i = Some x ∧ p x = true.
Proof.
  revert i. induction l as [|y l IH]; intros i; simpl; [done|].
  destruct (p y) eqn:E; [intros [= <-]; by exists y|].
  destruct (findIndex p l) as [j|]; simpl; [|done].
  intros [= <-]. apply (IH j eq_refl).
Qed.

Lemma findIndex_first {A} (p : A → bool) l i j y :
  findIndex p l = Some i → j < i → l !! j = Some y → p y = false.
Proof.
  revert i j. induction l as [|x l IH]; intros i j; simpl; [done|].
  destruct (p x) eqn:E; [intros [= <-]; lia|].
  destruct (findIndex p l) as [k|]; simpl; [|done].
  intros [= <-] Hj. destruct j as [|j]; simpl; [by intros [= <-]|].
  apply (IH k j eq_refl). lia.
Qed.

Lemma findIndex_None {A} (p : A → bool) l :
  findIndex p l = None ↔ Forall (fun x => p x = false) l.
Proof.
  induction l as [|x l IH]; simpl; [by split; [constructor|]|].
  destruct (p x) eqn:E.
  - split; [done|]. intros H. inversion H; congruence.
  - destruct (findIndex p l) as [k|]; simpl.
    + split; [done|]. intros H. inversion H as [|? ? _ Hl]; subst. by apply IH in Hl.
    + split; [|done]. intros _. constructor; [done|]. by apply IH.
Qed.

Lemma findIndex_elem {A} (p : A → bool) l x :
  x ∈ l → p x = true → is_Some (findIndex p l).
Proof.
  intros Hin Hp. destruct (findIndex p l) as [i|] eqn:E; [by eexists|].
  apply findIndex_None in E. rewrite Forall_forall in E.
  specialize (E x Hin). congruence.
Qed.

Lemma find_findIndex {A} (p : A → bool) l :
  List.find p l = findIndex p l ≫= (fun i => l !! i).
Proof.
  induction l as [|x l IH]; simpl; [done|].
  destruct (p x); [done|]. rewrite IH.
  by destruct (findIndex p l).
Qed.

Lemma hasId_spec id brd : hasId id brd = true ↔ brd !! "id" = Some id.
Proof. unfold hasId, strictEq. apply bool_decide_eq_true. Qed.

(** [loadBRDs] never throws. *)
Lemma loadBRDs_run s :
  ∃ s', StorageManager.loadBRDs s = (Ok (shown s), s')
        ∧ runtime s' = runtime s
        ∧ cloudAvailable s' = cloudAvailable s
        ∧ cloud s' = cloud s
        ∧ tempData s' = tempData s
        ∧ remoteFaults s' = (if cloudAvailable s then afterRequest (remoteFaults s)
                             else remoteFaults s)
        ∧ localFaults s' = (if cloudAvailable s then
                              match nextFault (remoteFaults s) with
                              | None => afterRequest (localFaults s)
                              | Some _ => localFaults s
                              end
                            else localFaults s)
        ∧ drafts s' = (if cloudAvailable s then
                         match nextFault (remoteFaults s), nextFault (localFaults s) with
                         | None, None => Stored (fetched (cloud s))
                         | _, _ => drafts s
                         end
                       else drafts s).
Proof.
  unfold StorageManager.loadBRDs, shown, tryCatch. unfold bind at 1.
  unfold StorageManager.canUseCloudStorage at 1, gets at 1.
  destruct (cloudAvailable s) eqn:Hc.
  - unfold bind at 1. unfold bind at 1. rewrite loadBRDsFromFirestore_run by done.
    unfold nextFault, afterRequest.
    destruct (nextOutcome (remoteFaults s)) as [[e|] rest]; simpl.
    + unfold bind, consoleError, modify.
      set (s1 := set_console _ _).
      destruct (getLocalBRDs_run s1) as (s' & E & Hs').
      rewrite E. exists s'. split; [done|].
      assert (runtime s' = runtime s1 ∧ cloudAvailable s' = cloudAvailable s1
              ∧ cloud s' = cloud s1 ∧ tempData s' = tempData s1
              ∧ remoteFaults s' = remoteFaults s1 ∧ localFaults s' = localFaults s1
              ∧ drafts s' = drafts s1) as (-> & -> & -> & -> & -> & -> & ->).
      { rewrite <- Hs'. by destruct s'. }
      done.
    + unfold StorageManager.syncBRDsToLocalStorage, tryCatch, setItemRequest, bind,
        consoleError, modify, gets, ret. simpl.
      destruct (nextOutcome (localFaults s)) as [[e|] rest']; simpl;
        eexists; (split; [reflexivity|done]).
  - destruct (getLocalBRDs_run s) as (s' & E & Hs').
    unfold bind at 1. rewrite E. unfold bind, gets, ret.
    exists s'.
    assert (runtime s' = runtime s ∧ cloudAvailable s' = cloudAvailable s
            ∧ cloud s' = cloud s ∧ tempData s' = tempData s
            ∧ remoteFaults s' = remoteFaults s ∧ localFaults s' = localFaults s
            ∧ drafts s' = drafts s) as (Hr & -> & -> & -> & -> & -> & ->).
    { rewrite <- Hs'. by destruct s'. }
    by rewrite Hr.
Qed.

Lemma find_hasId_spec id (brds : list Obj) :
  (∀ brd, List.find (hasId id) brds = Some brd → brd ∈ brds ∧ brd !! "id" = Some id)
  ∧ (List.find (hasId id) brds = None ↔ ∀ brd, brd ∈ brds → brd !! "id" ≠ Some id).
Proof.
  split.
  - intros brd H. apply find_some in H as [Hin Hp].
    split; [by apply list_elem_of_In|by apply hasId_spec].
  - split.
    + intros H brd Hin Hid. apply list_elem_of_In in Hin.
      pose proof (find_none _ _ H brd Hin) as Hn.
      apply hasId_spec in Hid. congruence.
    + intros H. destruct (List.find (hasId id) brds) as [brd|] eqn:E; [|done].
      apply find_some in E as [Hin Hp]. apply list_elem_of_In in Hin.
      apply hasId_spec in Hp. by destruct (H brd Hin).
Qed.

Lemma find_hasId_first id (brds : list Obj) brd :
  List.find (hasId id) brds = Some brd →
  ∃ k, brds !! k = Some brd
       ∧ ∀ j other, j < k → brds !! j = Some other → other !! "id" ≠ Some id.
Proof.
  rewrite find_findIndex. destruct (findIndex (hasId id) brds) as [k|] eqn:E; [|done].
  simpl. intros Hk. exists k. split; [done|].
  intros j other Hj Hl Hid. apply hasId_spec in Hid.
  pose proof (findIndex_first _ _ _ _ _ E Hj Hl). congruence.
Qed.

(** X1: [loadBRD] never throws.  Given a number it returns the record at
    that position of the list [loadBRDs] returns, and [null] when the
    number is negative or past the end; given an id it returns the first
    record of that list that has this id (no record before it in the list
    has the id), and [null] exactly when no record of the list has it.  It
    writes nothing to the remote collection. *)
Theorem loadBRD_never_throws identifier s :
  ∃ r s',
    StorageManager.loadBRD identifier s = (Ok r, s')
    ∧ cloud s' = cloud s
    ∧ match identifier with
      | StorageManager.Index i =>
          r = if (i <? 0)%Z then None else shown s !! Z.to_nat i
      | StorageManager.Id id =>
          (∀ brd, r = Some brd → brd ∈ shown s ∧ brd !! "id" = Some id)
          ∧ (∀ brd, r = Some brd →
               ∃ k, shown s !! k = Some brd
                    ∧ ∀ j other, j < k → shown s !! j = Some other →
                                 other !! "id" ≠ Some id)
          ∧ (r = None ↔ ∀ brd, brd ∈ shown s → brd !! "id" ≠ Some id)
      end.
Proof.
  destruct (loadBRDs_run s) as (s' & E & _ & _ & Hc & _).
  unfold StorageManager.loadBRD, tryCatch. unfold bind at 1. rewrite E.
  destruct identifier as [i|id]; unfold ret.
  - by eexists _, s'.
  - eexists _, s'. split; [reflexivity|]. split; [done|].
    destruct (find_hasId_spec id (shown s)) as [Hsome Hnone].
    split; [exact Hsome|]. split; [|exact Hnone].
    intros brd. apply find_hasId_first.
Qed.

Lemma at_findIndex {A} (p : A → bool) l :
  StorageManager.at_ l (match findIndex p l with
                        | Some i => Z.of_nat i
                        | None => (-1)%Z
                        end) = List.find p l.
Proof.
  rewrite find_findIndex. destruct (findIndex p l) as [i|]; simpl; [|done].
  apply at_of_nat.
Qed.

(** What [deleteBRD] does once [loadBRDs] has returned. *)
Lemma deleteBRD_unfold identifier s s1 :
  StorageManager.loadBRDs s = (Ok (shown s), s1) →
  StorageManager.deleteBRD identifier s =
    match designated identifier (shown s) with
    | None =>
        (Throw "Gagal menghapus BRD: BRD tidak ditemukan",
         set_console (console s1 ++ ["Error deleting BRD: BRD tidak ditemukan"%string]) s1)
    | Some brdToDelete =>
        tryCatch
          (let* can := StorageManager.canUseCloudStorage in
           when can (StorageManager.deleteBRDFromFirestore (brdToDelete !! "id")) >>
           let* localBRDs := StorageManager.getLocalBRDs in
           match findIndex (sameId brdToDelete) localBRDs with
           | Some localIndex =>
               setItemRequest >>
               modify (set_drafts (Stored (delete localIndex localBRDs))) >>
               ret true
           | None => ret true
           end)
          (fun error =>
             consoleError ("Error deleting BRD: " +:+ error) >>
             throw ("Gagal menghapus BRD: " +:+ error)) s1
    end.
Proof.
  intros E. unfold StorageManager.deleteBRD. unfold tryCatch at 1. unfold bind at 1.
  rewrite E.
  assert (StorageManager.at_ (shown s)
            match identifier with
            | StorageManager.Index i => i
            | StorageManager.Id id =>
                match findIndex (fun brd : Obj => strictEq (brd !! "id") (Some id)) (shown s) with
                | Some i => Z.of_nat i
                | None => (-1)%Z
                end
            end = designated identifier (shown s)) as ->.
  { destruct identifier as [i|id]; [done|]. apply at_findIndex. }
  destruct (designated identifier (shown s)) as [brdToDelete|]; [reflexivity|].
  reflexivity.
Qed.

(** X2: deleting the record shown at position [i] of the list is deleting
    by the id of that record. *)
Theorem deleteBRD_by_index_is_by_id s i brd id :
  shown s !! i = Some brd →
  brd !! "id" = Some id →
  StorageManager.deleteBRD (StorageManager.Index (Z.of_nat i)) s
  = StorageManager.deleteBRD (StorageManager.Id id) s.
Proof.
  intros Hi Hid. destruct (loadBRDs_run s) as (s1 & E & _).
  rewrite !(deleteBRD_unfold _ s s1 E). simpl. rewrite at_of_nat, Hi.
  assert (is_Some (findIndex (hasId id) (shown s))) as [j Hj].
  { apply (findIndex_elem _ _ brd); [by eapply list_elem_of_lookup_2|by apply hasId_spec]. }
  rewrite find_findIndex, Hj. simpl.
  apply findIndex_Some in Hj as (other & -> & Ho). apply hasId_spec in Ho.
  unfold sameId. by rewrite Hid, Ho.
Qed.
Lemma getLocalBRDs_eq s :
  ∃ lines, StorageManager.getLocalBRDs s
           = (Ok (localList s), set_console (console s ++ lines) s).
Proof.
  unfold StorageManager.getLocalBRDs, localList, bind, gets, ret, consoleError, modify.
  destruct s as [rt tk dr ca c rf d td lf co]; simpl.
  destruct d; simpl.
  - exists []. by rewrite app_nil_r.
  - by exists ["Error parsing localStorage BRDs:"%string].
  - exists []. by rewrite app_nil_r.
Qed.

Lemma designated_elem identifier brds brd :
  designated identifier brds = Some brd → brd ∈ brds.
Proof.
  destruct identifier as [i|id]; simpl.
  - unfold StorageManager.at_. destruct (i <? 0)%Z; [done|]. apply list_elem_of_lookup_2.
  - intros H. apply find_some in H as [H _]. by apply list_elem_of_In.
Qed.

Lemma delete_other_ids (brds : list Obj) j brd :
  NoDup (idsOf brds) →
  brds !! j = Some brd →
  ∀ other, other ∈ delete j brds → other !! "id" ≠ brd !! "id".
Proof.
  intros Hnd Hj other Hin Heq.
  apply list_elem_of_lookup in Hin as [k Hk].
  assert (∃ k', k' ≠ j ∧ brds !! k' = Some other) as (k' & Hne & Hk').
  { destruct (decide (k < j)).
    - exists k. split; [lia|]. by rewrite list_lookup_delete_lt in Hk.
    - exists (S k). split; [lia|]. by rewrite list_lookup_delete_ge in Hk by lia. }
  apply Hne. apply (NoDup_lookup (idsOf brds) k' j (brd !! "id") Hnd).
  - unfold idsOf. by rewrite list_lookup_fmap, Hk', <- Heq.
  - unfold idsOf. by rewrite list_lookup_fmap, Hj.
Qed.

(** X3: an identifier that designates no record of the list makes
    [deleteBRD] throw "Gagal menghapus BRD: BRD tidak ditemukan"; nothing
    is deleted from the remote collection, nor, without remote storage,
    from the local cache. *)
Theorem deleteBRD_unknown_record identifier s :
  designated identifier (shown s) = None →
  ∃ s',
    StorageManager.deleteBRD identifier s
    = (Throw "Gagal menghapus BRD: BRD tidak ditemukan", s')
    ∧ cloud s' = cloud s
    ∧ (cloudAvailable s = false → drafts s' = drafts s).
Proof.
  intros Hnone. destruct (loadBRDs_run s) as (s1 & E & _ & _ & Hcl & _ & _ & _ & Hd).
  rewrite (deleteBRD_unfold _ s s1 E), Hnone.
  eexists. split; [reflexivity|]. simpl. split; [done|].
  intros Hc. by rewrite Hc in Hd.
Qed.

(** X4: without remote storage, deleting a record the list shows removes
    from the local cache the first record that has its id and returns
    [true]; when [localStorage] refuses the write the call throws and the
    cache is as before.  If the ids of the cache are distinct, the record
    removed is the designated one and no record with its id is left. *)
Theorem deleteBRD_offline identifier s brd :
  cloudAvailable s = false →
  designated identifier (shown s) = Some brd →
  ∃ j s',
    findIndex (sameId brd) (localList s) = Some j
    ∧ StorageManager.deleteBRD identifier s
      = (match nextFault (localFaults s) with
         | None => Ok true
         | Some e => Throw ("Gagal menghapus BRD: " +:+ e)
         end, s')
    ∧ drafts s' = match nextFault (localFaults s) with
                  | None => Stored (delete j (localList s))
                  | Some _ => drafts s
                  end
    ∧ cloud s' = cloud s
    ∧ (NoDup (idsOf (localList s)) →
       localList s !! j = Some brd
       ∧ ∀ other, other ∈ delete j (localList s) → other !! "id" ≠ brd !! "id").
Proof.
  intros Hc Hfound.
  destruct (loadBRDs_run s) as (s1 & E & _ & Hca & Hcl & _ & _ & Hlf & Hd).
  rewrite Hc in *.
  assert (brd ∈ localList s) as Hin.
  { apply designated_elem in Hfound. unfold shown in Hfound. rewrite Hc in Hfound.
    by rewrite sort_perm in Hfound. }
  assert (is_Some (findIndex (sameId brd) (localList s))) as [j Hj].
  { apply (findIndex_elem _ _ brd Hin). unfold sameId, strictEq. by apply bool_decide_eq_true. }
  assert (localList s1 = localList s) as Hll by (unfold localList; by rewrite Hd).
  exists j.
  rewrite (deleteBRD_unfold _ s s1 E), Hfound.
  unfold tryCatch. unfold bind at 1. unfold StorageManager.canUseCloudStorage at 1, gets at 1.
  rewrite Hca. unfold when. unfold bind at 1, ret at 1. unfold bind at 1.
  destruct (getLocalBRDs_eq s1) as (lines & ->). rewrite Hll, Hj.
  unfold bind at 1. unfold setItemRequest at 1. simpl localFaults. rewrite Hlf.
  unfold nextFault.
  destruct (nextOutcome (localFaults s)) as [[e|] rest]; simpl;
    (eexists; split; [reflexivity|]; split; [reflexivity|]; simpl;
     split; [done|]; split; [done|]).
  all: intros Hnd; apply findIndex_Some in Hj as (found & Hj & Hsame);
    unfold sameId, strictEq in Hsame; apply bool_decide_eq_true in Hsame;
    apply list_elem_of_lookup in Hin as [k Hk];
    assert (j = k) as ->
      by (apply (NoDup_lookup (idsOf (localList s)) j k (brd !! "id") Hnd);
          unfold idsOf; rewrite list_lookup_fmap; [by rewrite Hj, <- Hsame|by rewrite Hk]);
    split; [done|]; by apply delete_other_ids.
Qed.
Lemma deleteBRD_offline_witness :
  cloudAvailable offlineWithCache = false
  ∧ designated (StorageManager.Index 0) (shown offlineWithCache) = Some newer
  ∧ ∃ s', StorageManager.deleteBRD (StorageManager.Index 0) offlineWithCache = (Ok true, s')
          ∧ drafts s' = Stored [older].
Proof.
  split; [reflexivity|].
  assert (designated (StorageManager.Index 0) (shown offlineWithCache) = Some newer) as Hfound
    by (vm_compute; reflexivity).
  split; [exact Hfound|].
  destruct (deleteBRD_offline (StorageManager.Index 0) offlineWithCache newer eq_refl Hfound)
    as (j & s' & Hj & E & Hd & _).
  exists s'. split; [exact E|].
  assert (findIndex (sameId newer) (localList offlineWithCache) = Some 1) as Hj'
    by (vm_compute; reflexivity).
  rewrite Hj' in Hj. injection Hj as <-. exact Hd.
Defined.

Lemma deleteBRD_by_index_is_by_id_witness :
  shown offlineWithCache !! 1 = Some older
  ∧ StorageManager.deleteBRD (StorageManager.Index 1) offlineWithCache
    = StorageManager.deleteBRD (StorageManager.Id "a1") offlineWithCache.
Proof.
  assert (shown offlineWithCache !! 1 = Some older) as H by (vm_compute; reflexivity).
  split; [exact H|].
  apply (deleteBRD_by_index_is_by_id offlineWithCache 1 older "a1" H).
  vm_compute. reflexivity.
Defined.

Lemma deleteBRD_unknown_record_witness :
  designated (StorageManager.Id "zz") (shown offlineWithCache) = None
  ∧ ∃ s', StorageManager.deleteBRD (StorageManager.Id "zz") offlineWithCache
          = (Throw "Gagal menghapus BRD: BRD tidak ditemukan", s')
          ∧ drafts s' = Stored [older; newer].
Proof.
  assert (designated (StorageManager.Id "zz") (shown offlineWithCache) = None) as H
    by (vm_compute; reflexivity).
  split; [exact H|].
  destruct (deleteBRD_unknown_record (StorageManager.Id "zz") offlineWithCache H)
    as (s' & E & _ & Hd).
  exists s'. split; [exact E|]. apply Hd. reflexivity.
Defined.

Lemma deleteBRDFromFirestore_run id s :
  cloudAvailable s = true →
  id ≠ ""%string →
  StorageManager.deleteBRDFromFirestore (Some id) s =
    match nextOutcome (remoteFaults s) with
    | (Some e, rest) => (Throw e, set_remoteFaults rest s)
    | (None, rest) => (Ok tt, set_cloud (delete id (cloud s)) (set_remoteFaults rest s))
    end.
Proof.
  intros Hc Hne.
  unfold StorageManager.deleteBRDFromFirestore, StorageManager.canUseCloudStorage,
    firestoreRequest, bind, gets, modify.
  rewrite Hc. simpl. destruct (String.eqb_spec id ""); [done|]. simpl.
  by destruct (nextOutcome (remoteFaults s)) as [[e|] rest].
Qed.


(** X5: with remote storage available and the list fetched, [deleteBRD]
    asks Firestore to delete the document under the id of the designated
    record.  If Firestore rejects, the call throws "Gagal menghapus BRD: "
    followed by the error and nothing is deleted, remotely or locally.  If
    Firestore accepts, the document is gone; the local cache, which the
    listing has just overwritten with the fetched records, then loses its
    first record with that id and the call returns [true], or, if
    [localStorage] refuses the write, keeps it while the call throws. *)
Theorem deleteBRD_signed_in identifier s brd id :
  cloudAvailable s = true →
  nextFault (remoteFaults s) = None →
  nextFault (localFaults s) = None →
  designated identifier (shown s) = Some brd →
  brd !! "id" = Some id →
  id ≠ ""%string →
  ∃ j r s',
    findIndex (sameId brd) (fetched (cloud s)) = Some j
    ∧ StorageManager.deleteBRD identifier s = (r, s')
    ∧ match nextFault (afterRequest (remoteFaults s)) with
      | Some e =>
          r = Throw ("Gagal menghapus BRD: " +:+ e)
          ∧ cloud s' = cloud s
          ∧ drafts s' = Stored (fetched (cloud s))
      | None =>
          cloud s' = delete id (cloud s)
          ∧ match nextFault (afterRequest (localFaults s)) with
            | Some e =>
                r = Throw ("Gagal menghapus BRD: " +:+ e)
                ∧ drafts s' = Stored (fetched (cloud s))
            | None =>
                r = Ok true
                ∧ drafts s' = Stored (delete j (fetched (cloud s)))
            end
      end.
Proof.
  intros Hc Hr Hl Hfound Hid Hne.
  destruct (loadBRDs_run s) as (s1 & E & _ & Hca & Hcl & _ & Hrf & Hlf & Hd).
  rewrite Hc, Hr in *. rewrite Hl in *.
  assert (brd ∈ fetched (cloud s)) as Hin.
  { apply designated_elem in Hfound. unfold shown in Hfound. rewrite Hc, Hr in Hfound.
    by rewrite sort_perm in Hfound. }
  assert (is_Some (findIndex (sameId brd) (fetched (cloud s)))) as [j Hj].
  { apply (findIndex_elem _ _ brd Hin). unfold sameId, strictEq. by apply bool_decide_eq_true. }
  assert (localList s1 = fetched (cloud s)) as Hll by (unfold localList; by rewrite Hd).
  exists j.
  rewrite (deleteBRD_unfold _ s s1 E), Hfound.
  unfold tryCatch. unfold bind at 1. unfold StorageManager.canUseCloudStorage at 1, gets at 1.
  rewrite Hca. unfold when. unfold bind at 1.
  rewrite Hid, (deleteBRDFromFirestore_run id) by done. rewrite Hrf.
  unfold nextFault.
  destruct (nextOutcome (afterRequest (remoteFaults s))) as [[e|] rest]; simpl fst; simpl snd.
  { unfold bind, consoleError, modify, throw. simpl.
    eexists _, _. split; [done|]. split; [reflexivity|]. simpl. by rewrite Hcl, Hd. }
  unfold modify at 1. unfold bind at 1.
  set (s2 := set_cloud _ _).
  destruct (getLocalBRDs_eq s2) as (lines & ->).
  assert (localList s2 = fetched (cloud s)) as -> by (rewrite <- Hll; reflexivity).
  rewrite Hj. unfold bind at 1. unfold setItemRequest at 1. simpl localFaults. rewrite Hlf.
  unfold nextFault.
  destruct (nextOutcome (afterRequest (localFaults s))) as [[e|] rest']; simpl fst; simpl snd.
  - unfold bind, consoleError, modify, throw. simpl.
    eexists _, _. split; [done|]. split; [reflexivity|]. simpl. rewrite Hcl, Hd.
    split; [|done]. simpl. by destruct (String.eqb id "").
  - unfold bind, modify, ret. simpl.
    eexists _, _. split; [done|]. split; [reflexivity|]. simpl. rewrite Hcl.
    split; [|done]. simpl. by destruct (String.eqb id "").
Qed.
Lemma deleteBRD_signed_in_witness :
  cloudAvailable onlineHalfMigrated = true
  ∧ designated (StorageManager.Id "a1") (shown onlineHalfMigrated) = Some older
  ∧ ∃ s', StorageManager.deleteBRD (StorageManager.Id "a1") onlineHalfMigrated = (Ok true, s')
          ∧ cloud s' !! "a1"%string = None
          ∧ drafts s' = Stored [].
Proof.
  split; [reflexivity|].
  assert (designated (StorageManager.Id "a1") (shown onlineHalfMigrated) = Some older) as Hfound
    by (vm_compute; reflexivity).
  split; [exact Hfound|].
  destruct (deleteBRD_signed_in (StorageManager.Id "a1") onlineHalfMigrated older "a1"
              eq_refl eq_refl eq_refl Hfound)
    as (j & r & s' & Hj & E & Hcl & Hr & Hd); [vm_compute; reflexivity|discriminate|].
  exists s'. rewrite Hr in E. split; [exact E|].
  split; [rewrite Hcl; apply lookup_delete_eq|].
  assert (findIndex (sameId older) (fetched (cloud onlineHalfMigrated)) = Some 0) as Hj'
    by (vm_compute; reflexivity).
  rewrite Hj' in Hj. injection Hj as <-. rewrite Hd. vm_compute. reflexivity.
Defined.

(** ** What listing does to the local cache *)

Lemma elem_of_fetched c brd :
  brd ∈ fetched c ↔
  ∃ k doc, c !! k = Some doc ∧ is_Some (doc !! "lastUpdated")
           ∧ brd = StorageManager.docObject (k, doc).
Proof.
  unfold fetched, orderByDesc. rewrite list_elem_of_fmap. split.
  - intros ([k doc] & -> & Hin). rewrite sort_perm in Hin.
    apply list_elem_of_In, filter_In in Hin as [Hin Hp].
    apply list_elem_of_In, elem_of_map_to_list in Hin.
    apply bool_decide_eq_true in Hp. by exists k, doc.
  - intros (k & doc & Hk & Hp & ->). exists (k, doc). split; [done|].
    rewrite sort_perm. apply list_elem_of_In, filter_In. split.
    + by apply list_elem_of_In, elem_of_map_to_list.
    + by apply bool_decide_eq_true.
Qed.

(** X6: with remote storage available, a listing whose fetch succeeds
    replaces the local cache by what it fetched (when [localStorage] takes
    the write): afterwards the cache holds exactly the remote documents
    that have a [lastUpdated], each with its id; a record that was only in
    the local cache is no longer in it. *)
Theorem loadBRDs_overwrites_cache s :
  cloudAvailable s = true →
  nextFault (remoteFaults s) = None →
  nextFault (localFaults s) = None →
  ∃ brds s',
    StorageManager.loadBRDs s = (Ok brds, s')
    ∧ brds ≡ₚ localList s'
    ∧ cloud s' = cloud s
    ∧ ∀ brd, brd ∈ localList s' ↔
             ∃ k doc, cloud s !! k = Some doc ∧ is_Some (doc !! "lastUpdated")
                      ∧ brd = StorageManager.docObject (k, doc).
Proof.
  intros Hc Hr Hl.
  destruct (loadBRDs_run s) as (s' & E & _ & _ & Hcl & _ & _ & _ & Hd).
  rewrite Hc, Hr, Hl in Hd.
  exists (shown s), s'. split; [exact E|].
  assert (localList s' = fetched (cloud s)) as -> by (unfold localList; by rewrite Hd).
  split; [|split; [done|]].
  - unfold shown. rewrite Hc, Hr. apply sort_perm.
  - intros brd. apply elem_of_fetched.
Qed.

Lemma loadBRDs_overwrites_cache_witness :
  cloudAvailable onlineHalfMigrated = true
  ∧ localList onlineHalfMigrated = [older; newer]
  ∧ ∃ brds s', StorageManager.loadBRDs onlineHalfMigrated = (Ok brds, s')
               ∧ brds ≡ₚ localList s'
               ∧ newer ∉ localList s'.
Proof.
  split; [reflexivity|]. split; [reflexivity|].
  destruct (loadBRDs_overwrites_cache onlineHalfMigrated eq_refl eq_refl eq_refl)
    as (brds & s' & E & Hp & _ & Hin).
  exists brds, s'. split; [exact E|]. split; [exact Hp|].
  intros H. apply Hin in H as (k & doc & Hk & _ & Hb).
  change (cloud onlineHalfMigrated) with ({[ "a1"%string := older ]} : gmap string Obj) in Hk.
  apply lookup_singleton_Some in Hk as [<- <-].
  assert (StorageManager.docObject ("a1"%string, older) !! "id" = Some "a1"%string) as Hid
    by (vm_compute; reflexivity).
  rewrite <- Hb in Hid. vm_compute in Hid. discriminate Hid.
Defined.
(** ** [saveBRD] and the ids of the local cache *)



Lemma upsertDraft_by_id brdData mode brds :
  StorageManager.upsertDraft brdData mode None brds
  = match findIndex (sameId brdData) brds with
    | Some existingIndex => <[existingIndex := brdData]> brds
    | None => brds ++ [brdData]
    end.
Proof. reflexivity. Qed.

Lemma idsOf_insert_same (brds : list Obj) i old brdData :
  brds !! i = Some old → old !! "id" = brdData !! "id" →
  idsOf (<[i := brdData]> brds) = idsOf brds.
Proof.
  intros Hi Hid. unfold idsOf. rewrite list_fmap_insert. apply list_insert_id.
  by rewrite list_lookup_fmap, Hi, <- Hid.
Qed.

Lemma sameId_None brdData (brds : list Obj) :
  findIndex (sameId brdData) brds = None → brdData !! "id" ∉ idsOf brds.
Proof.
  intros H Hin. apply findIndex_None in H. rewrite Forall_forall in H.
  unfold idsOf in Hin. apply list_elem_of_fmap in Hin as (brd & Hid & Hb).
  specialize (H brd Hb). unfold sameId, strictEq in H.
  apply bool_decide_eq_false in H. congruence.
Qed.

Lemma sameId_Some brdData (brds : list Obj) i :
  findIndex (sameId brdData) brds = Some i →
  ∃ old, brds !! i = Some old ∧ old !! "id" = brdData !! "id".
Proof.
  intros H. apply findIndex_Some in H as (old & Hi & Hp).
  exists old. split; [done|]. unfold sameId, strictEq in Hp. by apply bool_decide_eq_true in Hp.
Qed.

Lemma NoDup_idsOf_eq (brds : list Obj) a b :
  NoDup (idsOf brds) → a ∈ brds → b ∈ brds → a !! "id" = b !! "id" → a = b.
Proof.
  intros Hnd Ha Hb Hid.
  apply list_elem_of_lookup in Ha as [i Hi]. apply list_elem_of_lookup in Hb as [j Hj].
  assert (i = j) as ->; [|congruence].
  apply (NoDup_lookup (idsOf brds) i j (a !! "id") Hnd); unfold idsOf;
    rewrite list_lookup_fmap; [by rewrite Hi|by rewrite Hj, Hid].
Qed.

(** What a save by id does to the ids of the cache. *)
Lemma upsertDraft_ids brdData mode (brds : list Obj) :
  NoDup (idsOf brds) →
  NoDup (idsOf (StorageManager.upsertDraft brdData mode None brds))
  ∧ length (StorageManager.upsertDraft brdData mode None brds)
    = (if bool_decide (brdData !! "id" ∈ idsOf brds) then length brds else S (length brds))
  ∧ ∀ brd, brd ∈ brds → brd !! "id" ≠ brdData !! "id" →
           brd ∈ StorageManager.upsertDraft brdData mode None brds.
Proof.
  intros Hnd. rewrite upsertDraft_by_id.
  destruct (findIndex (sameId brdData) brds) as [i|] eqn:E.
  - apply sameId_Some in E as (old & Hi & Hid).
    rewrite (idsOf_insert_same brds i old brdData Hi Hid), length_insert.
    split; [done|]. split.
    + rewrite bool_decide_eq_true_2; [done|].
      unfold idsOf. apply list_elem_of_fmap. exists old. split; [done|].
      by eapply list_elem_of_lookup_2.
    + intros brd Hin Hne. apply list_elem_of_lookup in Hin as [k Hk].
      apply list_elem_of_lookup. exists k.
      rewrite list_lookup_insert_ne; [done|]. intros ->. congruence.
  - apply sameId_None in E.
    split; [|split].
    + unfold idsOf. rewrite fmap_app. simpl. apply NoDup_app. split; [done|].
      split; [|apply NoDup_singleton].
      intros x Hx Hx'. apply list_elem_of_singleton in Hx'. by subst x.
    + rewrite bool_decide_eq_false_2 by done. rewrite length_app. simpl. lia.
    + intros brd Hin _. apply elem_of_app. by left.
Qed.

(** X8: a save that goes by the id (no edit index) keeps the ids of the
    local cache distinct: the record replaces the cached record that has
    its id, or is added at the end when there is none; the cached records
    with other ids stay. *)
Theorem saveBRD_keeps_ids_distinct brdData mode s :
  (cloudAvailable s = true → nextFault (remoteFaults s) = None) →
  nextFault (localFaults s) = None →
  NoDup (idsOf (localList s)) →
  ∃ id s',
    StorageManager.saveBRD brdData mode None s = (Ok id, s')
    ∧ NoDup (idsOf (localList s'))
    ∧ Some id ∈ idsOf (localList s')
    ∧ length (localList s')
      = (if bool_decide (Some id ∈ idsOf (localList s)) then length (localList s)
         else S (length (localList s)))
    ∧ ∀ brd, brd ∈ localList s → brd !! "id" ≠ Some id → brd ∈ localList s'.
Proof.
  intros Hr Hl Hnd.
  destruct (saveBRD_remote_fine brdData mode None s Hr) as (s' & E & Hd & _).
  rewrite Hl in E, Hd.
  exists (idFor brdData s), s'. split; [exact E|].
  set (saved := StorageManager.brdWithMeta brdData (idFor brdData s) (currentTimeAt s)) in *.
  assert (saved !! "id" = Some (idFor brdData s)) as Hid by apply brdWithMeta_id.
  assert (localList s' = StorageManager.upsertDraft saved mode None (localList s)) as ->
    by (unfold localList at 1; by rewrite Hd).
  destruct (upsertDraft_ids saved mode (localList s) Hnd) as (H1 & H2 & H3).
  rewrite Hid in H2, H3.
  split; [exact H1|]. split; [|split; [exact H2|exact H3]].
  unfold idsOf. apply list_elem_of_fmap. exists saved. split; [done|].
  apply upsertDraft_elem.
Qed.

Lemma saveBRD_keeps_ids_distinct_witness :
  NoDup (idsOf (localList offlineWithCache))
  ∧ ∃ id s',
      StorageManager.saveBRD (<["title" := "Payroll v2"%string]> older) "new" None offlineWithCache
      = (Ok id, s')
      ∧ id = "a1"%string
      ∧ NoDup (idsOf (localList s'))
      ∧ length (localList s') = 2.
Proof.
  assert (NoDup (idsOf (localList offlineWithCache))) as Hnd
    by (apply (bool_decide_unpack _); vm_compute; exact I).
  split; [exact Hnd|].
  destruct (saveBRD_keeps_ids_distinct (<["title" := "Payroll v2"%string]> older) "new"
              offlineWithCache)
    as (id & s' & E & H1 & _ & H2 & _).
  - intros H. discriminate H.
  - reflexivity.
  - exact Hnd.
  - exists id, s'. split; [exact E|].
    assert (id = "a1"%string) as ->.
    { assert ((StorageManager.saveBRD (<["title" := "Payroll v2"%string]> older) "new" None
                 offlineWithCache).1 = Ok "a1"%string) as H by (vm_compute; reflexivity).
      rewrite E in H. simpl in H. by injection H. }
    split; [reflexivity|]. split; [exact H1|].
    rewrite H2. apply (bool_decide_unpack _). vm_compute. exact I.
Defined.

(** X9: without remote storage, a record saved by id is read back by
    [loadBRD] under the id the save returned, as long as the ids of the
    cache were distinct: the record read is the input with its metadata
    set, every other property as in the input. *)
Theorem loadBRD_after_saveBRD brdData mode s :
  cloudAvailable s = false →
  nextFault (localFaults s) = None →
  NoDup (idsOf (localList s)) →
  ∃ id s1 saved s2,
    StorageManager.saveBRD brdData mode None s = (Ok id, s1)
    ∧ StorageManager.loadBRD (StorageManager.Id id) s1 = (Ok (Some saved), s2)
    ∧ saved = StorageManager.brdWithMeta brdData id (currentTimeAt s)
    ∧ ∀ k : string, k ≠ "id"%string → k ≠ "lastUpdated"%string → k ≠ "createdAt"%string →
                    k ≠ "title"%string → saved !! k = brdData !! k.
Proof.
  intros Hc Hl Hnd.
  assert (cloudAvailable s = true → nextFault (remoteFaults s) = None) as Hr
    by (rewrite Hc; discriminate).
  destruct (saveBRD_remote_fine brdData mode None s Hr) as (s1 & E & Hd & _ & _ & Hca & _).
  rewrite Hl in E, Hd. rewrite Hc in Hca.
  set (id := idFor brdData s) in *.
  set (saved := StorageManager.brdWithMeta brdData id (currentTimeAt s)) in *.
  assert (saved !! "id" = Some id) as Hid by apply brdWithMeta_id.
  assert (localList s1 = StorageManager.upsertDraft saved mode None (localList s)) as Hll
    by (unfold localList at 1; by rewrite Hd).
  destruct (upsertDraft_ids saved mode (localList s) Hnd) as (Hnd1 & _).
  rewrite <- Hll in Hnd1.
  assert (saved ∈ localList s1) as Hin by (rewrite Hll; apply upsertDraft_elem).
  destruct (loadBRDs_run s1) as (s2 & E2 & _).
  assert (shown s1 ≡ₚ localList s1) as Hp.
  { unfold shown. rewrite Hca. apply sort_perm. }
  exists id, s1, saved, s2. split; [exact E|]. split; [|split; [done|]].
  - unfold StorageManager.loadBRD, tryCatch. unfold bind at 1. rewrite E2. unfold ret.
    f_equal. f_equal.
    destruct (find_hasId_spec id (shown s1)) as [Hsome Hnone].
    change (List.find (fun brd : Obj => strictEq (brd !! "id") (Some id)) (shown s1))
      with (List.find (hasId id) (shown s1)).
    destruct (List.find (hasId id) (shown s1)) as [found|] eqn:Ef.
    + destruct (Hsome found eq_refl) as [Hfin Hfid]. f_equal.
      apply (NoDup_idsOf_eq (localList s1)); [done|by rewrite <- Hp|done|congruence].
    + destruct Hnone as [Hnone _]. destruct (Hnone eq_refl saved); [by rewrite Hp|done].
  - intros k H1 H2 H3 H4. unfold saved, StorageManager.brdWithMeta.
    by rewrite !lookup_insert_ne by done.
Qed.

Lemma loadBRD_after_saveBRD_witness :
  cloudAvailable offlineWithCache = false
  ∧ ∃ id s1 saved s2,
      StorageManager.saveBRD {[ "title" := "Payroll"%string; "versi" := "1.0"%string ]} "new" None
        offlineWithCache = (Ok id, s1)
      ∧ StorageManager.loadBRD (StorageManager.Id id) s1 = (Ok (Some saved), s2)
      ∧ saved !! "versi" = Some "1.0"%string.
Proof.
  split; [reflexivity|].
  destruct (loadBRD_after_saveBRD {[ "title" := "Payroll"%string; "versi" := "1.0"%string ]}
              "new" offlineWithCache eq_refl eq_refl)
    as (id & s1 & saved & s2 & E1 & E2 & _ & Hk).
  - apply (bool_decide_unpack _). vm_compute. exact I.
  - exists id, s1, saved, s2. split; [exact E1|]. split; [exact E2|].
    rewrite Hk by discriminate. vm_compute. reflexivity.
Defined.
(** X10: without remote storage, the edit the app performs on the record the
    list shows at position [i], [loadBRD(i)] followed by
    [saveBRD(record, "edit", i)], writes the record at position [i] of the
    local cache as it is stored, which the listing has sorted but the cache
    has not: the record that was stored there is replaced, whatever its
    id.  When that was another record and the ids were distinct, its id is
    gone from the cache and the old version of the edited record is still
    there. *)
Theorem saveBRD_edit_by_index s i brd id edited :
  cloudAvailable s = false →
  nextFault (localFaults s) = None →
  shown s !! i = Some brd →
  brd !! "id" = Some id →
  id ≠ ""%string →
  edited !! "id" = Some id →
  ∃ s1 s2,
    StorageManager.loadBRD (StorageManager.Index (Z.of_nat i)) s = (Ok (Some brd), s1)
    ∧ StorageManager.saveBRD edited "edit" (Some i) s1 = (Ok id, s2)
    ∧ localList s2
      = <[i := StorageManager.brdWithMeta edited id (currentTimeAt s1)]> (localList s)
    ∧ ∀ other,
        localList s !! i = Some other →
        other !! "id" ≠ Some id →
        NoDup (idsOf (localList s)) →
        (other !! "id" ∉ idsOf (localList s2)) ∧ brd ∈ localList s2.
Proof.
  intros Hc Hl Hi Hid Hne Hed.
  destruct (loadBRDs_run s) as (s1 & E & _ & Hca & _ & _ & _ & Hlf & Hd).
  rewrite Hc in *.
  assert (localList s1 = localList s) as Hll by (unfold localList; by rewrite Hd).
  assert (brd ∈ localList s) as Hin.
  { apply list_elem_of_lookup_2 in Hi. unfold shown in Hi. rewrite Hc in Hi.
    by rewrite sort_perm in Hi. }
  assert (is_Some (localList s !! i)) as Hsome.
  { apply lookup_lt_is_Some. apply lookup_lt_Some in Hi.
    unfold shown in Hi. rewrite Hc in Hi.
    by rewrite (Permutation_length (sort_perm _ (localList s))) in Hi. }
  assert (cloudAvailable s1 = true → nextFault (remoteFaults s1) = None) as Hr
    by (rewrite Hca; discriminate).
  destruct (saveBRD_remote_fine edited "edit" (Some i) s1 Hr) as (s2 & E2 & Hd2 & _).
  rewrite Hlf, Hl in E2, Hd2.
  assert (idFor edited s1 = id) as Hidf.
  { unfold idFor. rewrite Hed. simpl. by destruct (String.eqb_spec id ""). }
  rewrite Hidf in E2, Hd2.
  set (saved := StorageManager.brdWithMeta edited id (currentTimeAt s1)) in *.
  assert (localList s2 = <[i := saved]> (localList s)) as Hll2.
  { unfold localList at 1. rewrite Hd2, Hll. unfold StorageManager.upsertDraft. simpl.
    by rewrite bool_decide_eq_true_2. }
  exists s1, s2. split; [|split; [exact E2|split; [exact Hll2|]]].
  - unfold StorageManager.loadBRD, tryCatch. unfold bind at 1. rewrite E. unfold ret.
    by rewrite at_of_nat, Hi.
  - intros other Ho Hoid Hnd. rewrite Hll2. split.
    + intros Hin'. unfold idsOf in Hin'. rewrite list_fmap_insert in Hin'.
      apply list_elem_of_lookup in Hin' as [k Hk].
      destruct (decide (k = i)) as [->|Hki].
      * rewrite list_lookup_insert_eq in Hk
          by (rewrite length_fmap; by apply lookup_lt_is_Some).
        injection Hk as Hk. unfold saved in Hk. rewrite brdWithMeta_id in Hk. congruence.
      * rewrite list_lookup_insert_ne in Hk by done.
        apply Hki. apply (NoDup_lookup (idsOf (localList s)) k i (other !! "id") Hnd).
        -- exact Hk.
        -- unfold idsOf. by rewrite list_lookup_fmap, Ho.
    + apply list_elem_of_lookup in Hin as [k Hk].
      apply list_elem_of_lookup. exists k. rewrite list_lookup_insert_ne; [done|].
      intros <-. rewrite Ho in Hk. injection Hk as ->. congruence.
Qed.

Lemma saveBRD_edit_by_index_witness :
  cloudAvailable offlineWithCache = false
  ∧ localList offlineWithCache = [older; newer]
  ∧ shown offlineWithCache !! 0 = Some newer
  ∧ ∃ s1 s2,
      StorageManager.loadBRD (StorageManager.Index 0) offlineWithCache = (Ok (Some newer), s1)
      ∧ StorageManager.saveBRD (<["title" := "Billing v2"%string]> newer) "edit" (Some 0) s1
        = (Ok "b2"%string, s2)
      ∧ (Some "a1"%string ∉ idsOf (localList s2))
      ∧ newer ∈ localList s2.
Proof.
  split; [reflexivity|]. split; [reflexivity|].
  assert (shown offlineWithCache !! 0 = Some newer) as Hi by (vm_compute; reflexivity).
  split; [exact Hi|].
  destruct (saveBRD_edit_by_index offlineWithCache 0 newer "b2"
              (<["title" := "Billing v2"%string]> newer) eq_refl eq_refl Hi)
    as (s1 & s2 & E1 & E2 & _ & Hlost).
  - vm_compute. reflexivity.
  - discriminate.
  - vm_compute. reflexivity.
  - exists s1, s2. split; [exact E1|]. split; [exact E2|].
    apply (Hlost older).
    + reflexivity.
    + vm_compute. discriminate.
    + apply (bool_decide_unpack _). vm_compute. exact I.
Defined.
(** ** [importBRDs] *)

Lemma saveBRDToLocalStorage_eq brdData mode editIndex s :
  ∃ lines,
    StorageManager.saveBRDToLocalStorage brdData mode editIndex s
    = match nextOutcome (localFaults s) with
      | (Some e, rest) =>
          (Throw e, set_localFaults rest (set_console (console s ++ lines) s))
      | (None, rest) =>
          (Ok tt,
           set_drafts (Stored (StorageManager.upsertDraft brdData mode editIndex (localList s)))
             (set_localFaults rest (set_console (console s ++ lines) s)))
      end.
Proof.
  destruct (getLocalBRDs_eq s) as (lines & E). exists lines.
  unfold StorageManager.saveBRDToLocalStorage. unfold bind at 1. rewrite E.
  unfold bind, setItemRequest, modify. simpl.
  by destruct (nextOutcome (localFaults s)) as [[e|] rest].
Qed.

(** [saveBRD] step by step. *)
Lemma saveBRD_eq brdData mode editIndex s :
  let id := idFor brdData s in
  let saved := StorageManager.brdWithMeta brdData id (currentTimeAt s) in
  StorageManager.saveBRD brdData mode editIndex s
  = match (if cloudAvailable s then StorageManager.saveBRDToFirestore saved mode
           else ret tt) (stamped brdData s) with
    | (Throw e, s1) =>
        (Throw ("Gagal menyimpan BRD: " +:+ e),
         set_console (console s1 ++ ["Error saving BRD: " +:+ e]) s1)
    | (Ok _, s1) =>
        match StorageManager.saveBRDToLocalStorage saved mode editIndex s1 with
        | (Throw e, s2) =>
            (Throw ("Gagal menyimpan BRD: " +:+ e),
             set_console (console s2 ++ ["Error saving BRD: " +:+ e]) s2)
        | (Ok _, s2) => (Ok id, s2)
        end
    end.
Proof.
  intros id saved.
  destruct (stamped_proj brdData s) as (Pc & _).
  unfold StorageManager.saveBRD, tryCatch. rewrite stamp_run. fold id. fold saved.
  unfold bind at 1. unfold StorageManager.canUseCloudStorage at 1, gets at 1.
  rewrite Pc. unfold when. unfold bind at 1.
  destruct ((if cloudAvailable s then StorageManager.saveBRDToFirestore saved mode else ret tt)
              (stamped brdData s)) as [[[]|e] s1]; [|reflexivity].
  unfold bind at 1.
  destruct (StorageManager.saveBRDToLocalStorage saved mode editIndex s1) as [[[]|e] s2];
    reflexivity.
Qed.

(** A save of a record that has an id, when no request fails. *)
Lemma saveBRD_all_succeed brdData mode editIndex s id :
  brdData !! "id" = Some id → id ≠ ""%string →
  allSucceed (remoteFaults s) → allSucceed (localFaults s) →
  ∃ s', StorageManager.saveBRD brdData mode editIndex s = (Ok id, s')
        ∧ drafts s' = Stored (StorageManager.upsertDraft
                                (StorageManager.brdWithMeta brdData id (currentTimeAt s))
                                mode editIndex (localList s))
        ∧ runtime s' = runtime s ∧ ticks s' = S (ticks s) ∧ draws s' = draws s
        ∧ cloudAvailable s' = cloudAvailable s
        ∧ allSucceed (remoteFaults s') ∧ allSucceed (localFaults s').
Proof.
  intros Hid Hne Hr Hl.
  assert (truthy (brdData !! "id") = true) as Ht.
  { rewrite Hid. simpl. by destruct (String.eqb_spec id ""). }
  assert (idFor brdData s = id) as Hidf.
  { unfold idFor. rewrite Ht, Hid. simpl. by destruct (String.eqb_spec id ""). }
  rewrite saveBRD_eq. rewrite Hidf.
  set (saved := StorageManager.brdWithMeta brdData id (currentTimeAt s)).
  assert (stamped brdData s = set_ticks (S (ticks s)) s) as -> by (unfold stamped; by rewrite Ht).
  set (s0 := set_ticks (S (ticks s)) s).
  assert (∃ s1, (if cloudAvailable s then StorageManager.saveBRDToFirestore saved mode
                 else ret tt) s0 = (Ok tt, s1)
                ∧ drafts s1 = drafts s ∧ runtime s1 = runtime s ∧ ticks s1 = S (ticks s)
                ∧ draws s1 = draws s ∧ cloudAvailable s1 = cloudAvailable s
                ∧ allSucceed (remoteFaults s1) ∧ localFaults s1 = localFaults s)
    as (s1 & -> & Qd & Qrt & Qt & Qdr & Qc & Qr & Ql).
  { destruct (cloudAvailable s) eqn:Hc.
    - rewrite (saveBRDToFirestore_run _ _ _ id); [|done|apply brdWithMeta_id|].
      2:{ simpl. by destruct (String.eqb_spec id ""). }
      destruct (nextOutcome_none (remoteFaults s0) Hr) as (rest & -> & Hrest).
      eexists. split; [reflexivity|]. simpl. done.
    - exists s0. done. }
  destruct (saveBRDToLocalStorage_eq saved mode editIndex s1) as (lines & ->).
  rewrite Ql. destruct (nextOutcome_none (localFaults s) Hl) as (rest & -> & Hrest).
  eexists. split; [reflexivity|]. simpl.
  unfold localList. rewrite Qd. done.
Qed.

(** The loop of [importBRDs] never throws. *)
Lemma importEach_total brds :
  ∀ importedCount s,
    ∃ n s', StorageManager.importEach brds importedCount s = (Ok n, s')
            ∧ importedCount ≤ n ≤ importedCount + length brds.
Proof.
  induction brds as [|brdData rest IH]; intros n s; simpl.
  - exists n, s. unfold ret. split; [done|lia].
  - unfold bind at 1. unfold tryCatch.
    destruct ((let* id := StorageManager.generateUniqueId in _) s) as [[v|e] s1].
    + destruct (IH (if v then S n else n) s1) as (m & s' & -> & Hm).
      exists m, s'. split; [done|]. destruct v; lia.
    + unfold bind at 1, consoleError, modify, ret.
      destruct (IH n (set_console (console s1 ++ ["Error importing individual BRD: " +:+ e]) s1))
        as (m & s' & E & Hm).
      unfold bind. simpl. rewrite E. exists m, s'. split; [done|lia].
Qed.
(** The state once an iteration of [importBRDs] has made the id and
    [importedAt]. *)
Lemma import_prefix {A} (k : string → string → M Store A) s :
  (let* id := StorageManager.generateUniqueId in
   let* importedAt := newDateISO in
   k id importedAt) s
  = k (toString36 (clock (runtime s) (ticks s)) +:+ random (runtime s) (draws s))
      (toISOString (runtime s) (clock (runtime s) (S (ticks s))))
      (set_ticks (S (S (ticks s))) (set_draws (S (draws s)) s)).
Proof.
  unfold bind, newDateISO, StorageManager.generateUniqueId, readClock, randomSuffix,
    gets, ret, bind.
  reflexivity.
Qed.

Lemma importEach_step_offline brdData rest importedCount s :
  cloudAvailable s = false →
  ∃ s', StorageManager.importEach (brdData :: rest) importedCount s
        = StorageManager.importEach rest
            (match nextFault (localFaults s) with None => 1 | Some _ => 0 end + importedCount) s'
        ∧ cloudAvailable s' = false
        ∧ localFaults s' = afterRequest (localFaults s).
Proof.
  intros Hc. simpl StorageManager.importEach. unfold bind at 1. unfold tryCatch.
  rewrite import_prefix. unfold bind at 1. rewrite saveBRD_eq.
  set (s0 := set_ticks _ _).
  set (rec := <["importedAt" := _]> _).
  set (saved := StorageManager.brdWithMeta _ _ _).
  assert (cloudAvailable s0 = false) as -> by done.
  destruct (stamped_proj rec s0) as (Pc & _ & Pl & _).
  destruct (saveBRDToLocalStorage_eq saved "new" None (stamped rec s0)) as (lines & E).
  unfold ret at 1. rewrite E, Pl. simpl localFaults.
  unfold nextFault, afterRequest.
  destruct (nextOutcome (localFaults s)) as [[e|] rest']; simpl.
  - unfold bind, consoleError, modify, ret. simpl. eexists. split; [reflexivity|].
    simpl. by rewrite Pc.
  - unfold ret. eexists. split; [reflexivity|]. simpl. by rewrite Pc.
Qed.

Lemma importEach_offline brds :
  ∀ importedCount s,
    cloudAvailable s = false →
    ∃ s', StorageManager.importEach brds importedCount s
          = (Ok (successes (length brds) (localFaults s) + importedCount), s').
Proof.
  induction brds as [|brdData rest IH]; intros n s Hc.
  - by exists s.
  - destruct (importEach_step_offline brdData rest n s Hc) as (s1 & -> & Hc1 & Hl1).
    destruct (IH (match nextFault (localFaults s) with None => 1 | Some _ => 0 end + n) s1 Hc1)
      as (s' & ->).
    exists s'. f_equal. f_equal. rewrite Hl1. simpl. lia.
Qed.

(** One iteration of the loop of [importBRDs], whatever the two stores
    answer. *)
Lemma importEach_step brdData rest importedCount s :
  ∃ s',
    match (if cloudAvailable s then nextFault (remoteFaults s) else None) with
    | Some _ =>
        StorageManager.importEach (brdData :: rest) importedCount s
        = StorageManager.importEach rest importedCount s'
        ∧ remoteFaults s' = afterRequest (remoteFaults s)
        ∧ localFaults s' = localFaults s
        ∧ drafts s' = drafts s
        ∧ cloud s' = cloud s
    | None =>
        match nextFault (localFaults s) with
        | Some _ =>
            StorageManager.importEach (brdData :: rest) importedCount s
            = StorageManager.importEach rest importedCount s'
            ∧ drafts s' = drafts s
        | None =>
            StorageManager.importEach (brdData :: rest) importedCount s
            = StorageManager.importEach rest (S importedCount) s'
            ∧ drafts s' = Stored (savedInto (localList s) [importedRecord s 0 brdData])
        end
        ∧ remoteFaults s' = (if cloudAvailable s then afterRequest (remoteFaults s)
                             else remoteFaults s)
        ∧ localFaults s' = afterRequest (localFaults s)
        ∧ cloud s' = (if cloudAvailable s
                      then pushAll (cloud s) [importedRecord s 0 brdData] else cloud s)
    end
    ∧ runtime s' = runtime s ∧ ticks s' = ticks s + 3 ∧ draws s' = draws s + 1
    ∧ cloudAvailable s' = cloudAvailable s.
Proof.
  remember (StorageManager.importEach (brdData :: rest) importedCount s) as run eqn:Hrun.
  simpl StorageManager.importEach in Hrun. unfold bind at 1 in Hrun. unfold tryCatch in Hrun.
  rewrite import_prefix in Hrun. unfold bind at 1 in Hrun. rewrite saveBRD_eq in Hrun.
  set (id := toString36 (clock (runtime s) (ticks s)) +:+ random (runtime s) (draws s)) in Hrun.
  set (s0 := set_ticks _ _) in Hrun.
  set (rec := <["importedAt" := _]> _) in Hrun.
  assert (id ≠ ""%string) as Hne.
  { pose proof (toString36_nonempty (clock (runtime s) (ticks s)) (random (runtime s) (draws s)))
      as Ht. fold id in Ht. simpl in Ht. intros Heq. by rewrite Heq in Ht. }
  assert (rec !! "id" = Some id) as Hid.
  { unfold rec. rewrite lookup_insert_ne by done. apply lookup_insert_eq. }
  assert (truthy (rec !! "id") = true) as Ht.
  { rewrite Hid. simpl. by destruct (String.eqb_spec id ""). }
  assert (idFor rec s0 = id) as Hidf.
  { unfold idFor. rewrite Ht, Hid. simpl. by destruct (String.eqb_spec id ""). }
  assert (stamped rec s0 = set_ticks (S (ticks s0)) s0) as Hst
    by (unfold stamped; by rewrite Ht).
  rewrite Hidf, Hst in Hrun. clear Hidf Hst.
  set (s1 := set_ticks (S (ticks s0)) s0) in Hrun.
  assert (StorageManager.brdWithMeta rec id (currentTimeAt s0) = importedRecord s 0 brdData)
    as Hsaved.
  { unfold importedRecord.
    replace (ticks s + 3 * 0) with (ticks s) by lia.
    replace (draws s + 0) with (draws s) by lia.
    replace (ticks s + 1) with (S (ticks s)) by lia.
    replace (ticks s + 2) with (S (S (ticks s))) by lia.
    reflexivity. }
  assert (importedRecord s 0 brdData !! "id" = Some id) as Hsid
    by (rewrite <- Hsaved; apply brdWithMeta_id).
  rewrite Hsaved in Hrun. clear Hsaved.
  set (saved := importedRecord s 0 brdData) in *.
  assert (orElse (saved !! "id") "" = id) as Hkey.
  { rewrite Hsid. simpl. by destruct (String.eqb_spec id ""). }
  change (cloudAvailable s0) with (cloudAvailable s) in Hrun.
  unfold savedInto, pushAll, nextFault, afterRequest. cbn [foldl]. rewrite Hkey.
  destruct (cloudAvailable s) eqn:Hc.
  - rewrite (saveBRDToFirestore_run saved "new" s1 id) in Hrun; [|done|done|].
    2:{ simpl. by destruct (String.eqb_spec id ""). }
    change (remoteFaults s1) with (remoteFaults s) in Hrun.
    destruct (nextOutcome (remoteFaults s)) as [[e|] rrest] eqn:Er; cbn [fst snd].
    + unfold bind, consoleError, modify, ret in Hrun. simpl in Hrun. subst run. eexists.
      split; [split; [reflexivity|done]|]. simpl. repeat split; try done; lia.
    + simpl String.eqb in Hrun. cbv iota in Hrun.
      set (s2 := set_cloud _ _) in Hrun.
      destruct (saveBRDToLocalStorage_eq saved "new" None s2) as (lines & E).
      rewrite E in Hrun. clear E.
      change (localFaults s2) with (localFaults s) in Hrun.
      change (localList s2) with (localList s) in Hrun.
      destruct (nextOutcome (localFaults s)) as [[e|] lrest] eqn:El; cbn [fst snd].
      * unfold bind, consoleError, modify, ret in Hrun. simpl in Hrun. subst run. eexists.
        split; [split; [split; [reflexivity|done]|done]|].
        simpl. repeat split; try done; lia.
      * unfold bind, ret in Hrun. simpl in Hrun. subst run. eexists.
        split; [split; [split; [reflexivity|done]|done]|].
        simpl. repeat split; try done; lia.
  - unfold ret at 1 in Hrun.
    destruct (saveBRDToLocalStorage_eq saved "new" None s1) as (lines & E).
    rewrite E in Hrun. clear E.
    change (localFaults s1) with (localFaults s) in Hrun.
    change (localList s1) with (localList s) in Hrun.
    destruct (nextOutcome (localFaults s)) as [[e|] lrest] eqn:El; cbn [fst snd].
    + unfold bind, consoleError, modify, ret in Hrun. simpl in Hrun. subst run. eexists.
      split; [split; [split; [reflexivity|done]|done]|].
      simpl. repeat split; try done; lia.
    + unfold bind, ret in Hrun. simpl in Hrun. subst run. eexists.
      split; [split; [split; [reflexivity|done]|done]|].
      simpl. repeat split; try done; lia.
Qed.

Lemma importedRecord_at s0 s k brdData :
  runtime s = runtime s0 → ticks s = ticks s0 + 3 * k → draws s = draws s0 + k →
  importedRecord s 0 brdData = importedRecord s0 k brdData.
Proof.
  intros Hrt Ht Hd. unfold importedRecord. rewrite Hrt, Ht, Hd.
  replace (ticks s0 + 3 * k + 3 * 0) with (ticks s0 + 3 * k) by lia.
  replace (draws s0 + k + 0) with (draws s0 + k) by lia.
  reflexivity.
Qed.

(** The loop of [importBRDs], whatever the two stores answer. *)
Lemma importEach_run brds :
  ∀ importedCount s0 k s,
    runtime s = runtime s0 → ticks s = ticks s0 + 3 * k → draws s = draws s0 + k →
    cloudAvailable s = cloudAvailable s0 →
    ∃ s',
      StorageManager.importEach brds importedCount s
      = (Ok (importedCount
             + length (importedRecords s0 k (remoteFaults s) (localFaults s) brds)), s')
      ∧ localList s'
        = savedInto (localList s) (importedRecords s0 k (remoteFaults s) (localFaults s) brds)
      ∧ cloud s' = (if cloudAvailable s0
                    then pushAll (cloud s) (pushedRecords s0 k (remoteFaults s) brds)
                    else cloud s).
Proof.
  induction brds as [|brdData rest IH]; intros n s0 k s Hrt Ht Hd Hc.
  - exists s. simpl. unfold ret. rewrite Nat.add_0_r. by destruct (cloudAvailable s0).
  - destruct (importEach_step brdData rest n s) as (s1 & Hstep & Hrt1 & Ht1 & Hd1 & Hc1).
    rewrite (importedRecord_at s0 s k) in Hstep by done.
    destruct (IH n s0 (S k) s1) as (sa & Ea & Hlla & Hcla); [congruence|lia|lia|congruence|].
    destruct (IH (S n) s0 (S k) s1) as (sb & Eb & Hllb & Hclb); [congruence|lia|lia|congruence|].
    clear IH. cbn [importedRecords pushedRecords]. rewrite Hc in Hstep.
    destruct (cloudAvailable s0) eqn:Hc0.
    + destruct (nextFault (remoteFaults s)) as [e|] eqn:Hr.
      * destruct Hstep as (-> & Hr1 & Hl1 & Hdr1 & Hcl1).
        exists sa. rewrite Hr1, Hl1 in Ea, Hlla. rewrite Hr1, Hcl1 in Hcla.
        split; [exact Ea|]. split; [|exact Hcla].
        rewrite Hlla. unfold localList. by rewrite Hdr1.
      * destruct Hstep as (Hlocal & Hr1 & Hl1 & Hcl1).
        destruct (nextFault (localFaults s)) as [e|] eqn:Hl.
        -- destruct Hlocal as (-> & Hdr1).
           exists sa. rewrite Hr1, Hl1 in Ea, Hlla. rewrite Hr1, Hcl1 in Hcla.
           split; [exact Ea|]. split; [|exact Hcla].
           rewrite Hlla. unfold localList. by rewrite Hdr1.
        -- destruct Hlocal as (-> & Hdr1).
           exists sb. rewrite Hr1, Hl1 in Eb, Hllb. rewrite Hr1, Hcl1 in Hclb.
           split; [rewrite Eb; f_equal; f_equal; simpl; lia|]. split; [|exact Hclb].
           rewrite Hllb. unfold localList at 1. by rewrite Hdr1.
    + destruct Hstep as (Hlocal & Hr1 & Hl1 & Hcl1).
      destruct (nextFault (localFaults s)) as [e|] eqn:Hl.
      * destruct Hlocal as (-> & Hdr1).
        exists sa. rewrite Hr1, Hl1 in Ea, Hlla. rewrite Hcl1 in Hcla.
        split; [exact Ea|]. split; [|exact Hcla].
        rewrite Hlla. unfold localList. by rewrite Hdr1.
      * destruct Hlocal as (-> & Hdr1).
        exists sb. rewrite Hr1, Hl1 in Eb, Hllb. rewrite Hcl1 in Hclb.
        split; [rewrite Eb; f_equal; f_equal; simpl; lia|]. split; [|exact Hclb].
        rewrite Hllb. unfold localList at 1. by rewrite Hdr1.
Qed.

Lemma importedRecords_length s brds :
  ∀ k remote local, length (importedRecords s k remote local brds) ≤ length brds.
Proof.
  induction brds as [|brdData rest IH]; intros k remote local; simpl; [done|].
  destruct (if cloudAvailable s then nextFault remote else None).
  - specialize (IH (S k) (afterRequest remote) local). lia.
  - destruct (nextFault local); simpl;
      specialize (IH (S k) (if cloudAvailable s then afterRequest remote else remote)
                    (afterRequest local)); lia.
Qed.

(** Saving records whose ids are new and distinct adds them at the end. *)
Lemma savedInto_distinct brds :
  ∀ cache, NoDup (idsOf (cache ++ brds)) → savedInto cache brds = cache ++ brds.
Proof.
  induction brds as [|brd rest IH]; intros cache Hnd.
  - by rewrite app_nil_r.
  - change (savedInto cache (brd :: rest))
      with (savedInto (StorageManager.upsertDraft brd "new" None cache) rest).
    assert (StorageManager.upsertDraft brd "new" None cache = cache ++ [brd]) as ->.
    { rewrite upsertDraft_by_id.
      destruct (findIndex (sameId brd) cache) as [i|] eqn:E; [|done].
      apply sameId_Some in E as (old & Hi & Hid). exfalso.
      unfold idsOf in Hnd. rewrite fmap_app in Hnd. apply NoDup_app in Hnd as (_ & Hdis & _).
      apply (Hdis (old !! "id")).
      - apply list_elem_of_fmap. exists old. split; [done|]. by eapply list_elem_of_lookup_2.
      - rewrite Hid. simpl. by left. }
    rewrite IH; by rewrite <- app_assoc.
Qed.

(** X11: a file that is not JSON, or has no array [brds], makes [importBRDs]
    throw "Gagal mengimpor BRD: " followed by the reason, and nothing is
    stored.  On a file that has the array the call never throws, whatever
    the saves do.  A record whose save fails is skipped: it is not counted
    and not put in the local cache, and the loop goes on with the next
    one.  The number returned is the number of records whose save went
    through, at most the number of records of the file; the local cache
    afterwards is the cache before with those records saved into it one by
    one in the order of the file, which adds them at its end when their
    ids are new and distinct; signed in, the remote collection has received
    every record whose Firestore request went through, also when the
    [localStorage] write of that record then failed. *)
Theorem importBRDs_outcome file s :
  match file with
  | StorageManager.NotJSON message =>
      ∃ s', StorageManager.importBRDs file s = (Throw ("Gagal mengimpor BRD: " +:+ message), s')
            ∧ drafts s' = drafts s ∧ cloud s' = cloud s
  | StorageManager.NoBRDs =>
      ∃ s', StorageManager.importBRDs file s
            = (Throw "Gagal mengimpor BRD: Format file tidak valid", s')
            ∧ drafts s' = drafts s ∧ cloud s' = cloud s
  | StorageManager.BRDs brds =>
      let stored := importedRecords s 0 (remoteFaults s) (localFaults s) brds in
      ∃ n s', StorageManager.importBRDs file s = (Ok n, s') ∧ n ≤ length brds
              ∧ n = length stored
              ∧ localList s' = savedInto (localList s) stored
              ∧ (NoDup (idsOf (localList s ++ stored)) →
                 localList s' = localList s ++ stored)
              ∧ cloud s' = (if cloudAvailable s
                            then pushAll (cloud s) (pushedRecords s 0 (remoteFaults s) brds)
                            else cloud s)
  end.
Proof.
  destruct file as [message| |brds].
  - by eexists.
  - by eexists.
  - intros stored.
    destruct (importEach_run brds 0 s 0 s) as (s' & E & Hll & Hcl); [done|lia|lia|done|].
    fold stored in E, Hll. simpl in E.
    exists (length stored), s'. unfold StorageManager.importBRDs, tryCatch. rewrite E.
    split; [done|]. split; [apply importedRecords_length|]. split; [done|].
    split; [exact Hll|]. split; [|exact Hcl].
    intros Hnd. rewrite Hll. by apply savedInto_distinct.
Qed.

(** An import of three records while signed in: the [localStorage] write
    of the first is refused and the Firestore request of the second is
    rejected, so only the third is counted and cached; the remote
    collection has received the first and the third. *)
Lemma importBRDs_skips_failed_saves :
  (StorageManager.importBRDs (StorageManager.BRDs [older; newer; older]) importFaulty).1 = Ok 1
  ∧ localList (StorageManager.importBRDs (StorageManager.BRDs [older; newer; older])
                 importFaulty).2
    = [older; newer; importedRecord importFaulty 2 older]
  ∧ idsOf (fetched (cloud (StorageManager.importBRDs
                             (StorageManager.BRDs [older; newer; older]) importFaulty).2))
    = idsOf [importedRecord importFaulty 2 older; importedRecord importFaulty 0 older].
Proof. repeat split; vm_compute; reflexivity. Qed.

(** X12: without remote storage, each record of the file costs one
    [localStorage] write, and [importBRDs] returns the number of those
    writes that succeed: a refused write loses that record only. *)
Theorem importBRDs_counts_successes brds s :
  cloudAvailable s = false →
  ∃ s', StorageManager.importBRDs (StorageManager.BRDs brds) s
        = (Ok (successes (length brds) (localFaults s)), s').
Proof.
  intros Hc. destruct (importEach_offline brds 0 s Hc) as (s' & E).
  exists s'. unfold StorageManager.importBRDs, tryCatch. rewrite E.
  by rewrite Nat.add_0_r.
Qed.

Lemma importBRDs_counts_successes_witness :
  cloudAvailable (set_localFaults [None; Some "QuotaExceededError"%string] offline) = false
  ∧ ∃ s', StorageManager.importBRDs (StorageManager.BRDs [older; newer; older])
            (set_localFaults [None; Some "QuotaExceededError"%string] offline)
          = (Ok 2, s').
Proof.
  split; [reflexivity|].
  destruct (importBRDs_counts_successes [older; newer; older]
              (set_localFaults [None; Some "QuotaExceededError"%string] offline) eq_refl)
    as (s' & E).
  exists s'. exact E.
Defined.
Lemma importEach_step_succeed brdData rest importedCount s :
  allSucceed (remoteFaults s) → allSucceed (localFaults s) →
  ∃ s', StorageManager.importEach (brdData :: rest) importedCount s
        = StorageManager.importEach rest (S importedCount) s'
        ∧ drafts s' = Stored (StorageManager.upsertDraft (importedRecord s 0 brdData) "new" None
                                (localList s))
        ∧ runtime s' = runtime s ∧ ticks s' = ticks s + 3 ∧ draws s' = draws s + 1
        ∧ allSucceed (remoteFaults s') ∧ allSucceed (localFaults s').
Proof.
  intros Hr Hl. simpl StorageManager.importEach. unfold bind at 1. unfold tryCatch.
  rewrite import_prefix. unfold bind at 1.
  set (id := toString36 (clock (runtime s) (ticks s)) +:+ random (runtime s) (draws s)).
  set (s0 := set_ticks _ _).
  set (rec := <["importedAt" := _]> _).
  assert (id ≠ ""%string) as Hne.
  { pose proof (toString36_nonempty (clock (runtime s) (ticks s)) (random (runtime s) (draws s)))
      as Ht. fold id in Ht. simpl in Ht. intros Heq. by rewrite Heq in Ht. }
  assert (rec !! "id" = Some id) as Hid.
  { unfold rec. rewrite lookup_insert_ne by done. apply lookup_insert_eq. }
  destruct (saveBRD_all_succeed rec "new" None s0 id Hid Hne Hr Hl)
    as (s' & -> & Hd & Hrt & Ht & Hdr & _ & Hr' & Hl').
  unfold ret at 1. exists s'. split; [reflexivity|].
  split; [|split; [done|split; [simpl in Ht; lia|split; [simpl in Hdr; lia|done]]]].
  rewrite Hd. f_equal. unfold importedRecord.
  replace (ticks s + 3 * 0) with (ticks s) by lia.
  replace (draws s + 0) with (draws s) by lia.
  replace (ticks s + 1) with (S (ticks s)) by lia.
  replace (ticks s + 2) with (S (S (ticks s))) by lia.
  reflexivity.
Qed.

Lemma importedRecord_shift s s1 k brdData :
  runtime s1 = runtime s → ticks s1 = ticks s + 3 → draws s1 = draws s + 1 →
  importedRecord s1 k brdData = importedRecord s (S k) brdData.
Proof.
  intros Hrt Ht Hd. unfold importedRecord. rewrite Hrt, Ht, Hd.
  replace (ticks s + 3 + 3 * k) with (ticks s + 3 * S k) by lia.
  replace (draws s + 1 + k) with (draws s + S k) by lia.
  reflexivity.
Qed.

Lemma importEach_appends brds :
  ∀ importedCount s,
    allSucceed (remoteFaults s) → allSucceed (localFaults s) →
    NoDup (idsOf (localList s ++ imap (importedRecord s) brds)) →
    ∃ s', StorageManager.importEach brds importedCount s
          = (Ok (importedCount + length brds), s')
          ∧ localList s' = localList s ++ imap (importedRecord s) brds.
Proof.
  induction brds as [|brdData rest IH]; intros n s Hr Hl Hnd.
  - exists s. simpl. unfold ret. by rewrite Nat.add_0_r, app_nil_r.
  - destruct (importEach_step_succeed brdData rest n s Hr Hl)
      as (s1 & -> & Hd & Hrt & Ht & Hdr & Hr1 & Hl1).
    rewrite imap_cons in Hnd |- *.
    assert (localList s1 = localList s ++ [importedRecord s 0 brdData]) as Hll.
    { unfold localList at 1. rewrite Hd, upsertDraft_by_id.
      destruct (findIndex (sameId (importedRecord s 0 brdData)) (localList s)) as [i|] eqn:E;
        [|done].
      apply sameId_Some in E as (old & Hi & Hid). exfalso.
      unfold idsOf in Hnd. rewrite fmap_app in Hnd. apply NoDup_app in Hnd as (_ & Hdis & _).
      apply (Hdis (old !! "id")).
      - apply list_elem_of_fmap. exists old. split; [done|]. by eapply list_elem_of_lookup_2.
      - rewrite Hid. simpl. by left. }
    assert (imap (importedRecord s1) rest = imap (importedRecord s ∘ S) rest) as Him.
    { apply imap_ext. intros k x _. by apply importedRecord_shift. }
    destruct (IH (S n) s1 Hr1 Hl1) as (s' & -> & Hll').
    { rewrite Hll, Him, <- app_assoc. exact Hnd. }
    exists s'. split; [f_equal; f_equal; simpl; lia|].
    by rewrite Hll', Hll, Him, <- app_assoc.
Qed.

(** X13: when no request fails, and the ids of the local cache together
    with the ids it generates are all distinct, [importBRDs] returns the
    number of records of the file and adds them to the end of the local
    cache in the order of the file, each under its generated id (the id in
    the file is overwritten), with [importedAt] and the metadata of a
    save. *)
Theorem importBRDs_appends brds s :
  allSucceed (remoteFaults s) →
  allSucceed (localFaults s) →
  NoDup (idsOf (localList s ++ imap (importedRecord s) brds)) →
  ∃ s', StorageManager.importBRDs (StorageManager.BRDs brds) s = (Ok (length brds), s')
        ∧ localList s' = localList s ++ imap (importedRecord s) brds.
Proof.
  intros Hr Hl Hnd. destruct (importEach_appends brds 0 s Hr Hl Hnd) as (s' & E & Hll).
  exists s'. unfold StorageManager.importBRDs, tryCatch. by rewrite E.
Qed.

Lemma importBRDs_appends_witness :
  allSucceed (remoteFaults offlineWithCache)
  ∧ allSucceed (localFaults offlineWithCache)
  ∧ ∃ s', StorageManager.importBRDs (StorageManager.BRDs [older; older]) offlineWithCache
          = (Ok 2, s')
          ∧ idsOf (localList s')
            = [Some "a1"; Some "b2"; Some "mg6jrpl7k3j9x0q20"; Some "mg6jrrwjk3j9x0q21"]%string.
Proof.
  split; [constructor|]. split; [constructor|].
  destruct (importBRDs_appends [older; older] offlineWithCache) as (s' & E & Hll).
  - constructor.
  - constructor.
  - apply (bool_decide_unpack _). vm_compute. exact I.
  - exists s'. split; [exact E|]. rewrite Hll. vm_compute. reflexivity.
Defined.
(** ** Migrating twice *)

Lemma pushAll_lookup_ne c brds k :
  (∀ brd : Obj, brd ∈ brds → orElse (brd !! "id") "" ≠ k) →
  pushAll c brds !! k = c !! k.
Proof.
  induction brds as [|brd brds IH] using rev_ind; intros H; [done|].
  rewrite pushAll_snoc, lookup_insert_ne.
  - apply IH. intros b Hb. apply H. apply elem_of_app. by left.
  - apply H. apply elem_of_app. right. by apply list_elem_of_singleton.
Qed.

Lemma pushAll_lookup_eq c (brds : list Obj) brd id :
  NoDup (idsOf brds) →
  Forall (fun brd : Obj => truthy (brd !! "id") = true) brds →
  brd ∈ brds →
  brd !! "id" = Some id →
  pushAll c brds !! id = Some brd.
Proof.
  induction brds as [|last brds IH] using rev_ind; intros Hnd Hids Hin Hid.
  { by apply elem_of_nil in Hin. }
  unfold idsOf in Hnd. rewrite fmap_app in Hnd. apply NoDup_app in Hnd as (Hnd & Hdis & _).
  apply Forall_app in Hids as [Hids Hlast]. inversion Hlast as [|? ? Hl _]; subst.
  rewrite pushAll_snoc.
  apply elem_of_app in Hin as [Hin|Hin].
  - rewrite lookup_insert_ne; [by apply IH|].
    intros Heq. apply (Hdis (brd !! "id")).
    + apply list_elem_of_fmap. by exists brd.
    + simpl. rewrite Hid, <- Heq. rewrite <- (truthy_orElse _ "" Hl). by left.
  - apply list_elem_of_singleton in Hin as ->. rewrite Hid. simpl.
    assert ((if String.eqb id "" then ""%string else id) = id) as ->
      by (destruct (String.eqb_spec id ""); congruence).
    apply lookup_insert_eq.
Qed.

Lemma docObject_own_id (brd : Obj) id :
  brd !! "id" = Some id → StorageManager.docObject (id, brd) = brd.
Proof.
  intros Hid. unfold StorageManager.docObject. simpl. apply map_eq. intros k.
  rewrite lookup_union. destruct (brd !! k) as [v|] eqn:Ek; simpl.
  - by destruct ({[ "id"%string := id ]} !! k).
  - destruct (decide (k = "id"%string)) as [->|Hk]; [congruence|].
    by rewrite lookup_singleton_ne.
Qed.

Lemma migrateEach_succeed cloudBRDs localBRDs :
  ∀ migratedCount s,
    cloudAvailable s = true →
    allSucceed (remoteFaults s) →
    Forall (fun brd : Obj => truthy (brd !! "id") = true) (toMigrate cloudBRDs localBRDs) →
    ∃ s', StorageManager.migrateEach cloudBRDs localBRDs migratedCount s
          = (Ok (migratedCount + length (toMigrate cloudBRDs localBRDs)), s')
          ∧ cloud s' = pushAll (cloud s) (toMigrate cloudBRDs localBRDs)
          ∧ drafts s' = drafts s ∧ cloudAvailable s' = true
          ∧ allSucceed (remoteFaults s')
          ∧ localFaults s' = localFaults s ∧ runtime s' = runtime s.
Proof.
  induction localBRDs as [|brd rest IH]; intros n s Hc Hf Hids; simpl in *.
  - exists s. unfold ret. by rewrite Nat.add_0_r.
  - unfold toMigrate in Hids |- *. simpl in *.
    destruct (StorageManager.existsInCloud cloudBRDs brd) eqn:Ex; simpl in *.
    + by apply IH.
    + inversion Hids as [|? ? Hid Hids']; subst.
      destruct (brd !! "id") as [id|] eqn:Eid; [|done].
      unfold bind at 1.
      rewrite (saveBRDToFirestore_run brd "new" s id) by done.
      destruct (nextOutcome_none _ Hf) as (faults & -> & Hf').
      set (s1 := set_cloud _ _).
      destruct (IH (S n) s1) as (s' & E & Hcl & Hd & Hc' & Hf'' & Hl & Hrt);
        [done|done|done|].
      unfold toMigrate in E, Hcl.
      exists s'. rewrite E. split; [f_equal; f_equal; lia|].
      rewrite Hcl, Hd, Hl, Hrt. split; [|done].
      subst s1. simpl in *. by destruct (String.eqb id "").
Qed.

Lemma migrateLocalToCloud_run s :
  cloudAvailable s = true →
  allSucceed (remoteFaults s) →
  let migrated := toMigrate (fetched (cloud s)) (localList s) in
  Forall (fun brd : Obj => truthy (brd !! "id") = true) migrated →
  ∃ s',
    StorageManager.migrateLocalToCloud s = (Ok (length migrated), s')
    ∧ cloud s' = pushAll (cloud s) migrated
    ∧ drafts s' = drafts s
    ∧ cloudAvailable s' = true
    ∧ allSucceed (remoteFaults s')
    ∧ localFaults s' = localFaults s ∧ runtime s' = runtime s.
Proof.
  intros Hc Hf migrated Hids.
  unfold StorageManager.migrateLocalToCloud. unfold bind at 1.
  unfold StorageManager.canUseCloudStorage at 1, gets at 1. rewrite Hc.
  unfold tryCatch. unfold bind at 1. cbn [negb]. cbv beta iota.
  destruct (getLocalBRDs_eq s) as (lines & ->).
  set (s1 := set_console _ s).
  unfold bind at 1. rewrite loadBRDsFromFirestore_run by done.
  change (remoteFaults s1) with (remoteFaults s). change (cloud s1) with (cloud s).
  destruct (nextOutcome_none _ Hf) as (faults & -> & Hf').
  destruct (migrateEach_succeed (fetched (cloud s)) (localList s) 0 (set_remoteFaults faults s1))
    as (s' & -> & Hcl & Hd & Hc' & Hf'' & Hl & Hrt); [done|done|done|].
  exists s'. simpl in Hcl, Hd, Hl, Hrt. by rewrite Hcl, Hd, Hl, Hrt.
Qed.

Lemma toMigrate_nil cloudBRDs (localBRDs : list Obj) :
  (∀ brd, brd ∈ localBRDs → StorageManager.existsInCloud cloudBRDs brd = true) →
  toMigrate cloudBRDs localBRDs = [].
Proof.
  unfold toMigrate. induction localBRDs as [|b l IH]; intros Hall; [done|]. simpl.
  rewrite Hall by (by left). simpl. apply IH. intros brd Hb. apply Hall. by right.
Qed.

(** After a migration without failures every local record has its
    counterpart among the records the collection lists. *)
Lemma migrateLocalToCloud_counterparts s :
  cloudAvailable s = true →
  allSucceed (remoteFaults s) →
  let migrated := toMigrate (fetched (cloud s)) (localList s) in
  Forall (fun brd : Obj => truthy (brd !! "id") = true) migrated →
  Forall (fun brd : Obj => is_Some (brd !! "lastUpdated")) migrated →
  NoDup (idsOf migrated) →
  Forall (fun brd : Obj => cloud s !! orElse (brd !! "id") "" = None) migrated →
  ∃ s1,
    StorageManager.migrateLocalToCloud s = (Ok (length migrated), s1)
    ∧ cloudAvailable s1 = true
    ∧ allSucceed (remoteFaults s1)
    ∧ localFaults s1 = localFaults s
    ∧ drafts s1 = drafts s
    ∧ ∀ brd, brd ∈ localList s →
             StorageManager.existsInCloud (fetched (cloud s1)) brd = true.
Proof.
  intros Hc Hf migrated Hids Hlu Hnd Hfresh.
  destruct (migrateLocalToCloud_run s Hc Hf Hids)
    as (s1 & E1 & Hcl1 & Hd1 & Hc1 & Hf1 & Hl1 & _).
  fold migrated in E1, Hcl1.
  exists s1. repeat (split; [done|]).
  intros brd Hin. apply existsInCloud_spec.
  destruct (StorageManager.existsInCloud (fetched (cloud s)) brd) eqn:Ex.
  - apply existsInCloud_spec in Ex as (cloudBRD & Hcb & Ht & Hcr).
    exists cloudBRD. split; [|done].
    apply elem_of_fetched in Hcb as (k & doc & Hk & Hdoc & ->).
    apply elem_of_fetched. exists k, doc. split; [|done].
    rewrite Hcl1, pushAll_lookup_ne; [done|].
    intros b Hb Heq. rewrite Forall_forall in Hfresh. specialize (Hfresh b Hb).
    rewrite Heq in Hfresh. congruence.
  - assert (brd ∈ migrated) as Hm by (by apply toMigrate_spec).
    exists brd. split; [|done].
    rewrite Forall_forall in Hids, Hlu.
    pose proof (truthy_orElse _ "" (Hids brd Hm)) as Hid.
    apply elem_of_fetched. exists (orElse (brd !! "id") ""), brd.
    split; [|split; [by apply Hlu|by rewrite docObject_own_id]].
    rewrite Hcl1. apply pushAll_lookup_eq; [done|by apply Forall_forall|done|done].
Qed.

(** X14: a migration in which no request fails leaves every record of the
    local cache with a counterpart (same [title], same [createdAt]) among
    the records the remote collection lists, so that a second migration
    pushes nothing and returns 0.  This needs the pushed records to carry
    a [lastUpdated] (the listing leaves out documents without one) and ids
    that are distinct and not yet used in the collection. *)
Theorem migrateLocalToCloud_twice s :
  cloudAvailable s = true →
  allSucceed (remoteFaults s) →
  let migrated := toMigrate (fetched (cloud s)) (localList s) in
  Forall (fun brd : Obj => truthy (brd !! "id") = true) migrated →
  Forall (fun brd : Obj => is_Some (brd !! "lastUpdated")) migrated →
  NoDup (idsOf migrated) →
  Forall (fun brd : Obj => cloud s !! orElse (brd !! "id") "" = None) migrated →
  ∃ s1 s2,
    StorageManager.migrateLocalToCloud s = (Ok (length migrated), s1)
    ∧ (∀ brd, brd ∈ localList s →
         StorageManager.existsInCloud (fetched (cloud s1)) brd = true)
    ∧ StorageManager.migrateLocalToCloud s1 = (Ok 0, s2)
    ∧ cloud s2 = cloud s1.
Proof.
  intros Hc Hf migrated Hids Hlu Hnd Hfresh.
  destruct (migrateLocalToCloud_counterparts s Hc Hf Hids Hlu Hnd Hfresh)
    as (s1 & E1 & Hc1 & Hf1 & _ & Hd1 & Hall).
  assert (toMigrate (fetched (cloud s1)) (localList s1) = []) as Hnone.
  { assert (localList s1 = localList s) as -> by (unfold localList; by rewrite Hd1).
    by apply toMigrate_nil. }
  destruct (migrateLocalToCloud_run s1 Hc1 Hf1) as (s2 & E2 & Hcl2 & _).
  { rewrite Hnone. constructor. }
  rewrite Hnone in E2, Hcl2.
  by exists s1, s2.
Qed.

Lemma migrateLocalToCloud_twice_witness :
  cloudAvailable onlineHalfMigrated = true
  ∧ toMigrate (fetched (cloud onlineHalfMigrated)) (localList onlineHalfMigrated) = [newer]
  ∧ ∃ s1 s2,
      StorageManager.migrateLocalToCloud onlineHalfMigrated = (Ok 1, s1)
      ∧ StorageManager.migrateLocalToCloud s1 = (Ok 0, s2)
      ∧ cloud s2 = cloud s1.
Proof.
  assert (toMigrate (fetched (cloud onlineHalfMigrated)) (localList onlineHalfMigrated)
          = [newer]) as Hm by (vm_compute; reflexivity).
  split; [reflexivity|]. split; [exact Hm|].
  destruct (migrateLocalToCloud_twice onlineHalfMigrated eq_refl)
    as (s1 & s2 & E1 & _ & E2 & Hcl).
  - constructor.
  - rewrite Hm. repeat constructor.
  - rewrite Hm. apply (bool_decide_unpack _). vm_compute. exact I.
  - rewrite Hm. apply (bool_decide_unpack _). vm_compute. exact I.
  - rewrite Hm. repeat constructor.
  - rewrite Hm in E1. exists s1, s2. split; [exact E1|]. split; [exact E2|exact Hcl].
Defined.

(** ** The current step stays in range *)

Section Preserves.
Context (P : Wizard → Prop).

Lemma preserves_ret {A} (a : A) : preserves P (ret a).
Proof. by intros w. Qed.

Lemma preserves_throw {A} e : preserves P (throw (A := A) e).
Proof. by intros w. Qed.

Lemma preserves_gets {A} (f : Wizard → A) : preserves P (gets f).
Proof. by intros w. Qed.

Lemma preserves_bind {A B} (m : M Wizard A) (k : A → M Wizard B) :
  preserves P m → (∀ a, preserves P (k a)) → preserves P (bind m k).
Proof.
  intros Hm Hk w Hw. unfold bind. specialize (Hm w Hw).
  destruct (m w) as [[a|e] w1]; [by apply Hk|done].
Qed.

Lemma preserves_tryCatch {A} (m : M Wizard A) (h : string → M Wizard A) :
  preserves P m → (∀ e, preserves P (h e)) → preserves P (tryCatch m h).
Proof.
  intros Hm Hh w Hw. unfold tryCatch. specialize (Hm w Hw).
  destruct (m w) as [[a|e] w1]; [done|by apply Hh].
Qed.

Lemma preserves_when b (m : M Wizard unit) : preserves P m → preserves P (when b m).
Proof. intros Hm. destruct b; [done|apply preserves_ret]. Qed.

Lemma preserves_modify (f : Wizard → Wizard) : (∀ w, P w → P (f w)) → preserves P (modify f).
Proof. intros Hf w Hw. by apply Hf. Qed.

Lemma preserves_forOf {A} (l : list A) (body : A → M Wizard unit) :
  (∀ x, preserves P (body x)) → preserves P (forOf l body).
Proof.
  intros Hb. induction l as [|x l IH]; simpl; [apply preserves_ret|].
  apply preserves_bind; [apply Hb|done].
Qed.
End Preserves.

Section StepOnly.
Context (P : Wizard → Prop) (HP : stepOnly P).

Lemma preserves_onStorage {A} (m : M Store A) : preserves P (onStorage m).
Proof.
  intros w Hw. unfold onStorage. destruct (m (storage w)) as [r s']. simpl.
  by apply (HP w).
Qed.

Lemma preserves_setInputs inputs : ∀ w, P w → P (FormGenerator.setInputs inputs w).
Proof.
  intros w Hw. unfold FormGenerator.setInputs. destruct (brdForm w); [|done].
  by apply (HP w).
Qed.

Lemma preserves_showToast message type : preserves P (showToast message type).
Proof. intros w Hw. by apply (HP w). Qed.

Lemma preserves_saveCurrentSectionData : preserves P FormGenerator.saveCurrentSectionData.
Proof.
  unfold FormGenerator.saveCurrentSectionData, FormGenerator.getCurrentFormData.
  apply preserves_bind; [apply preserves_bind; [apply preserves_gets|intros; apply preserves_ret]|].
  intros data. apply preserves_bind.
  - apply preserves_modify. intros w Hw. by apply (HP w).
  - intros _. apply preserves_bind; [apply preserves_gets|].
    intros d. apply preserves_onStorage.
Qed.

Lemma preserves_saveBRD : preserves P FormGenerator.saveBRD.
Proof.
  unfold FormGenerator.saveBRD. apply preserves_tryCatch.
  - apply preserves_bind; [apply preserves_saveCurrentSectionData|]. intros _.
    apply preserves_bind; [apply preserves_gets|]. intros data.
    apply preserves_bind.
    { destruct (truthy (data !! "id")); [apply preserves_ret|apply preserves_onStorage]. }
    intros id. apply preserves_bind; [apply preserves_onStorage|]. intros lastUpdated.
    apply preserves_bind.
    { destruct (truthy (data !! "createdAt")); [apply preserves_ret|apply preserves_onStorage]. }
    intros createdAt. apply preserves_bind; [apply preserves_gets|]. intros w0.
    apply preserves_bind; [apply preserves_onStorage|]. intros brdId.
    apply preserves_bind; [apply preserves_onStorage|]. intros _.
    apply preserves_bind; [apply preserves_showToast|]. intros _. apply preserves_ret.
  - intros e. apply preserves_bind; [apply preserves_onStorage|]. intros _.
    apply preserves_bind; [apply preserves_showToast|]. intros _. apply preserves_throw.
Qed.

Lemma preserves_validateEach fields : ∀ isValid, preserves P (FormGenerator.validateEach fields isValid).
Proof.
  induction fields as [|f rest IH]; intros isValid; simpl; [apply preserves_ret|].
  apply preserves_bind; [apply preserves_gets|]. intros inputs.
  destruct (FormGenerator.getElementById _ inputs) as [el|]; [|apply IH].
  destruct (FormGenerator.validateField f el) as [ok messages].
  apply preserves_bind; [|intros _; apply IH].
  apply preserves_modify. apply preserves_setInputs.
Qed.

Lemma preserves_validateCurrentSection : preserves P FormGenerator.validateCurrentSection.
Proof.
  unfold FormGenerator.validateCurrentSection.
  apply preserves_bind; [apply preserves_gets|]. intros w0.
  apply preserves_bind.
  { apply preserves_modify. intros w Hw. by apply preserves_setInputs. }
  intros _. destruct (sections w0 !! currentStep w0) as [section|]; [|apply preserves_throw].
  apply preserves_bind; [apply preserves_validateEach|]. intros isValid.
  apply preserves_bind; [apply preserves_when, preserves_showToast|].
  intros _. apply preserves_ret.
Qed.
End StepOnly.

Lemma stepOnly_inRange : stepOnly inRange.
Proof. intros w w' Hs Hse. unfold inRange. by rewrite Hs, Hse. Qed.

Lemma preserves_loadFormSection index : preserves inRange (FormGenerator.loadFormSection index).
Proof.
  assert (stepOnly inRange) as HP by apply stepOnly_inRange.
  unfold FormGenerator.loadFormSection.
  intros w Hw. unfold bind at 1, gets.
  destruct (sections w !! index) as [section|] eqn:Hsec.
  - revert w Hw Hsec.
    assert (∀ w, index < length (sections w) → 
              inRange ((modify (set_currentStep index) >>
                        FormGenerator.buildSectionForm section >>
                        FormGenerator.loadSavedSectionData section) w).2) as H.
    { intros w Hi.
      assert (inRange (set_currentStep index w)) as Hw1 by exact Hi.
      unfold bind at 1, modify at 1.
      revert Hw1. generalize (set_currentStep index w). clear w Hi.
      change (preserves inRange (FormGenerator.buildSectionForm section >>
                                 FormGenerator.loadSavedSectionData section)).
      apply preserves_bind.
      - apply preserves_modify. by apply preserves_setInputs.
      - intros _. unfold FormGenerator.loadSavedSectionData.
        apply preserves_bind; [by apply preserves_onStorage|]. intros data.
        apply preserves_forOf. intros f. unfold FormGenerator.loadSavedField.
        apply preserves_bind; [apply preserves_gets|]. intros inputs.
        destruct (FormGenerator.getElementById _ inputs); [|apply preserves_ret].
        apply preserves_when, preserves_modify. by apply preserves_setInputs. }
    intros w _ Hsec. apply H. by eapply lookup_lt_Some.
  - by apply (preserves_onStorage inRange HP).
Qed.

Lemma preserves_perform action : preserves inRange (perform action).
Proof.
  assert (stepOnly inRange) as HP by apply stepOnly_inRange.
  destruct action as [| |index]; simpl.
  - unfold FormGenerator.navigateNext.
    apply preserves_bind; [by apply preserves_validateCurrentSection|]. intros valid.
    apply preserves_when.
    apply preserves_bind; [by apply preserves_saveCurrentSectionData|]. intros _.
    apply preserves_bind; [apply preserves_gets|]. intros w0.
    destruct (_ <? _)%Z; [apply preserves_loadFormSection|].
    apply preserves_bind; [by apply preserves_saveBRD|]. intros _. apply preserves_ret.
  - unfold FormGenerator.navigatePrevious.
    apply preserves_bind; [apply preserves_gets|]. intros step.
    apply preserves_when.
    apply preserves_bind; [by apply preserves_saveCurrentSectionData|]. intros _.
    apply preserves_loadFormSection.
  - unfold FormGenerator.sidebarItemClick.
    apply preserves_bind; [apply preserves_gets|]. intros step.
    apply preserves_when.
    apply preserves_bind; [by apply preserves_saveCurrentSectionData|]. intros _.
    apply preserves_loadFormSection.
Qed.

(** X15: once the current step is one of the sections, it stays one,
    whatever the user does next (forward, back, any item of the sidebar, in
    any order) and whatever the storage does, also when a save throws; so
    [validateCurrentSection] always finds its section. *)
Theorem wizard_stays_in_range actions w :
  inRange w →
  inRange (performAll actions w)
  ∧ is_Some (sections (performAll actions w) !! currentStep (performAll actions w)).
Proof.
  intros Hw.
  assert (inRange (performAll actions w)) as H.
  { revert w Hw. unfold performAll.
    induction actions as [|a actions IH]; intros w Hw; simpl; [done|].
    apply IH. by apply preserves_perform. }
  split; [done|]. by apply lookup_lt_is_Some.
Qed.

Lemma wizard_stays_in_range_witness :
  inRange firstPageFilled
  ∧ inRange (performAll [Next; Jump 7; Next; Jump 99; Previous] firstPageFilled).
Proof.
  assert (inRange firstPageFilled) as Hw by (vm_compute; lia).
  split; [exact Hw|].
  apply (wizard_stays_in_range [Next; Jump 7; Next; Jump 99; Previous] firstPageFilled Hw).
Defined.
(** ** Going forward and saving *)

Lemma saveTempData_frame data s :
  ∃ s', StorageManager.saveTempData data s = (Ok tt, s')
        ∧ tempData s' = match nextFault (localFaults s) with
                        | None => Stored (data ∪ draftOf s)
                        | Some _ => tempData s
                        end
        ∧ localFaults s' = afterRequest (localFaults s)
        ∧ sameButDraft s s'.
Proof.
  unfold StorageManager.saveTempData, StorageManager.getTempData, tryCatch, setItemRequest,
    nextFault, afterRequest, draftOf, sameButDraft, bind, gets, ret, consoleError, modify.
  destruct (tempData s) eqn:Et; simpl;
    destruct (nextOutcome (localFaults s)) as [[e|] rest]; simpl;
    eexists; (split; [reflexivity|]); simpl; by rewrite ?Et.
Qed.

Lemma saveCurrentSectionData_eq w :
  ∃ s', FormGenerator.saveCurrentSectionData w
        = (Ok tt, set_storage s' (set_formData (merged w) w))
        ∧ tempData s' = match nextFault (localFaults (storage w)) with
                        | None => Stored (merged w ∪ draftOf (storage w))
                        | Some _ => tempData (storage w)
                        end
        ∧ localFaults s' = afterRequest (localFaults (storage w))
        ∧ sameButDraft (storage w) s'.
Proof.
  destruct (saveTempData_frame (merged w) (storage w)) as (s' & E & Ht & Hl & Hs).
  exists s'. split; [|done].
  unfold FormGenerator.saveCurrentSectionData, FormGenerator.getCurrentFormData, onStorage,
    bind, gets, ret, modify. simpl. fold (merged w). by rewrite E.
Qed.

(** The record [saveBRD] of the form hands to the storage, and the state
    in which it does. *)
Lemma formStamp_run {A} w :
  ∃ brdData s' id,
    (∀ k : Obj → M Wizard A,
       (let* data := gets formData in
        let* id :=
          (if truthy (data !! "id") then ret (orElse (data !! "id") "")
           else onStorage StorageManager.generateUniqueId) in
        let* lastUpdated := onStorage newDateISO in
        let* createdAt :=
          (if truthy (data !! "createdAt") then ret (orElse (data !! "createdAt") "")
           else onStorage newDateISO) in
        k (<["createdAt" := createdAt]> (<["lastUpdated" := lastUpdated]> (<["id" := id]> data))))
         w
       = k brdData (set_storage s' w))
    ∧ sameButClock (storage w) s'
    ∧ brdData !! "id" = Some id
    ∧ id ≠ ""%string
    ∧ (truthy (formData w !! "id") = true → formData w !! "id" = Some id)
    ∧ ∀ key : string, key ≠ "id"%string → key ≠ "lastUpdated"%string →
                      key ≠ "createdAt"%string → brdData !! key = formData w !! key.
Proof.
  assert (∀ (data : Obj) (a b c : string) (key : string),
            key ≠ "id"%string → key ≠ "lastUpdated"%string → key ≠ "createdAt"%string →
            (<["createdAt" := c]> (<["lastUpdated" := b]> (<["id" := a]> data))) !! key
            = data !! key) as Hother.
  { intros data a b c key H1 H2 H3. by rewrite !lookup_insert_ne by done. }
  assert (∀ (data : Obj) (a b c : string),
            (<["createdAt" := c]> (<["lastUpdated" := b]> (<["id" := a]> data))) !! "id"
            = Some a) as Hidl.
  { intros data a b c. rewrite !lookup_insert_ne by done. apply lookup_insert_eq. }
  destruct (truthy (formData w !! "id")) eqn:Eid;
    destruct (truthy (formData w !! "createdAt")) eqn:Ec.
  all: eexists _, _, _; split;
    [intros k; unfold bind, gets, onStorage, newDateISO, StorageManager.generateUniqueId,
       readClock, randomSuffix, ret, bind, gets; simpl; rewrite ?Eid, ?Ec; simpl;
       reflexivity|].
  all: split; [by unfold sameButClock|].
  all: split; [apply Hidl|].
  all: split; [|split; [|apply Hother]].
  all: try (intros _; by apply truthy_orElse).
  all: try done.
  all: try (pose proof (truthy_orElse _ "" Eid) as Hs; rewrite Hs in Eid; simpl in Eid;
            intros Heq; rewrite Heq in Eid; done).
  all: pose proof (toString36_nonempty (clock (runtime (storage w)) (ticks (storage w)))
                     (random (runtime (storage w)) (draws (storage w)))) as Ht;
    simpl in Ht; intros Heq; rewrite Heq in Ht; done.
Qed.
Lemma formDataOf_clear (l : list Element) :
  FormGenerator.formDataOf (FormGenerator.clearInvalid <$> l) = FormGenerator.formDataOf l.
Proof.
  unfold FormGenerator.formDataOf. generalize (∅ : Obj).
  induction l as [|e l IH]; intros acc; [done|]. rewrite fmap_cons. simpl. apply IH.
Qed.

Lemma markEach_valid fields l :
  forallb (fun f => negb (fieldFails l f)) fields = true → markEach fields l = l.
Proof.
  induction fields as [|f rest IH]; simpl; [done|].
  intros [Hf Hrest]%andb_true_iff. apply negb_true_iff in Hf.
  change (markEach (f :: rest) l) with (markEach rest (markField f l)).
  rewrite (markField_valid _ _ Hf). by apply IH.
Qed.

Lemma validateEach_none fields :
  ∀ isValid w, brdForm w = None → FormGenerator.validateEach fields isValid w = (Ok isValid, w).
Proof.
  induction fields as [|f rest IH]; intros isValid w Hform; simpl; [done|].
  unfold bind at 1, gets. unfold FormGenerator.inputsOf. rewrite Hform. simpl.
  by apply IH.
Qed.

(** A section whose fields all pass: validation clears the marks and
    changes nothing else. *)
Lemma validateCurrentSection_valid w section :
  sections w !! currentStep w = Some section →
  invalidFields section (FormGenerator.inputsOf w) = [] →
  ∃ w', FormGenerator.validateCurrentSection w = (Ok true, w')
        ∧ currentStep w' = currentStep w ∧ sections w' = sections w
        ∧ mode w' = mode w ∧ editIndex w' = editIndex w
        ∧ formData w' = formData w ∧ toasts w' = toasts w ∧ storage w' = storage w
        ∧ FormGenerator.formDataOf (FormGenerator.inputsOf w')
          = FormGenerator.formDataOf (FormGenerator.inputsOf w).
Proof.
  intros Hsec Hvalid. destruct (brdForm w) as [l|] eqn:Hform.
  - assert (FormGenerator.inputsOf w = l) as Hin
      by (unfold FormGenerator.inputsOf; by rewrite Hform).
    rewrite Hin in *.
    rewrite (validateCurrentSection_run w section l Hsec Hform).
    apply allValid_invalidFields in Hvalid. rewrite Hvalid.
    eexists. split; [reflexivity|]. simpl. repeat (split; [done|]).
    unfold FormGenerator.inputsOf. simpl.
    rewrite markEach_valid; [apply formDataOf_clear|].
    by rewrite (allValid_shape _ l) by apply clear_shape.
  - exists w. split; [|done].
    unfold FormGenerator.validateCurrentSection. unfold bind at 1, gets.
    unfold bind at 1, modify. unfold FormGenerator.setInputs at 1. rewrite Hform, Hsec.
    unfold bind at 1. rewrite validateEach_none by done.
    reflexivity.
Qed.

Lemma allSucceed_afterRequest faults : allSucceed faults → allSucceed (afterRequest faults).
Proof.
  unfold allSucceed, afterRequest. intros H.
  by destruct (nextOutcome_none faults H) as (rest & -> & Hrest).
Qed.

Lemma allSucceed_nextFault faults : allSucceed faults → nextFault faults = None.
Proof.
  unfold allSucceed, nextFault. intros H.
  by destruct (nextOutcome_none faults H) as (rest & -> & Hrest).
Qed.

(** [saveBRD] of the form, reduced to the call into the storage. *)
Lemma formSaveBRD_run w :
  ∃ s1 brdData s4 id,
    tempData s1 = match nextFault (localFaults (storage w)) with
                  | None => Stored (merged w ∪ draftOf (storage w))
                  | Some _ => tempData (storage w)
                  end
    ∧ localFaults s1 = afterRequest (localFaults (storage w))
    ∧ sameButDraft (storage w) s1
    ∧ sameButClock s1 s4
    ∧ brdData !! "id" = Some id
    ∧ id ≠ ""%string
    ∧ (truthy (merged w !! "id") = true → merged w !! "id" = Some id)
    ∧ (∀ key : string, key ≠ "id"%string → key ≠ "lastUpdated"%string →
                       key ≠ "createdAt"%string → brdData !! key = merged w !! key)
    ∧ ∃ r w',
        FormGenerator.saveBRD w = (r, w')
        ∧ currentStep w' = currentStep w ∧ sections w' = sections w
        ∧ mode w' = mode w ∧ editIndex w' = editIndex w
        ∧ formData w' = merged w ∧ brdForm w' = brdForm w
        ∧ match StorageManager.saveBRD brdData (mode w) (editIndex w) s4 with
          | (Ok brdId, s5) =>
              r = Ok brdId
              ∧ toasts w' = toasts w ++ [("BRD berhasil disimpan!"%string, "success"%string)]
              ∧ storage w' = set_tempData Absent s5
          | (Throw e, s5) =>
              r = Throw e
              ∧ toasts w' = toasts w ++ [("Gagal menyimpan BRD: " +:+ e, "error"%string)]
              ∧ storage w' = set_console (console s5 ++ ["Error saving BRD: " +:+ e]) s5
          end.
Proof.
  destruct (saveCurrentSectionData_eq w) as (s1 & E1 & Ht & Hl & Hs).
  set (w1 := set_storage s1 (set_formData (merged w) w)) in *.
  destruct (formStamp_run (A := string) w1) as (brdData & s4 & id & Ek & Hc & Hid & Hne & Hown & Hkeys).
  exists s1, brdData, s4, id. repeat (split; [done|]).
  specialize (Ek (fun brdData =>
                    let* w0 := gets (fun w => w) in
                    let* brdId := onStorage (StorageManager.saveBRD brdData (mode w0)
                                               (editIndex w0)) in
                    onStorage StorageManager.clearTempData >>
                    showToast "BRD berhasil disimpan!" "success" >>
                    ret brdId)).
  cbv beta in Ek.
  unfold FormGenerator.saveBRD, tryCatch. unfold bind at 1. rewrite E1. cbv zeta.
  rewrite Ek. unfold bind at 1, gets at 1. unfold bind at 1. unfold onStorage at 1.
  simpl storage. simpl mode. simpl editIndex.
  destruct (StorageManager.saveBRD brdData (mode w) (editIndex w) s4) as [[brdId|e] s5].
  - unfold bind, onStorage, StorageManager.clearTempData, showToast, modify, ret. simpl.
    eexists _, _. split; [reflexivity|]. simpl. done.
  - unfold bind, onStorage, consoleError, showToast, modify, throw. simpl.
    eexists _, _. split; [reflexivity|]. simpl. done.
Qed.

(** X16: on a section that is not the last and whose fields all pass,
    [navigateNext] merges the values of the page into the form data (and
    into the Draft, when [localStorage] takes the write), shows the next
    section, and raises neither a toast nor an error mark. *)
Theorem navigateNext_advances w section next :
  sections w !! currentStep w = Some section →
  invalidFields section (FormGenerator.inputsOf w) = [] →
  sections w !! S (currentStep w) = Some next →
  ∃ w',
    FormGenerator.navigateNext w = (Ok tt, w')
    ∧ currentStep w' = S (currentStep w)
    ∧ formData w' = merged w
    ∧ (nextFault (localFaults (storage w)) = None →
       tempData (storage w') = Stored (merged w ∪ draftOf (storage w)))
    ∧ toasts w' = toasts w
    ∧ failures w' = [].
Proof.
  intros Hsec Hvalid Hnext.
  destruct (validateCurrentSection_valid w section Hsec Hvalid)
    as (wv & Ev & V1 & V2 & V3 & V4 & V5 & V6 & V7 & V8).
  unfold FormGenerator.navigateNext. unfold bind at 1. rewrite Ev. unfold when.
  unfold bind at 1.
  destruct (saveCurrentSectionData_run wv) as (w1 & -> & H1 & H2 & H3 & H4 & H5 & H6).
  unfold bind at 1, gets at 1.
  assert (S (currentStep w) < length (sections w)) as Hlt by (by eapply lookup_lt_Some).
  rewrite H1, H2, V1, V2.
  destruct (Z.ltb_spec (Z.of_nat (currentStep w)) (Z.of_nat (length (sections w)) - 1));
    [|lia].
  rewrite Nat.add_1_r.
  destruct (loadFormSection_run (S (currentStep w)) w1 next)
    as (w' & -> & G1 & G2 & G3 & G4 & G5 & G6); [by rewrite H2, V2|].
  exists w'. split; [done|]. split; [done|].
  unfold merged. rewrite G3, H3, V8, V5. split; [done|].
  split; [|split; [by rewrite G4, H5, V6|done]].
  intros Hok. rewrite G5. rewrite V7 in H6. rewrite (H6 Hok). by rewrite V8, V5.
Qed.

Lemma navigateNext_advances_witness :
  sections firstPageFilled !! currentStep firstPageFilled = Some documentInfo
  ∧ invalidFields documentInfo (FormGenerator.inputsOf firstPageFilled) = []
  ∧ ∃ w',
      FormGenerator.navigateNext firstPageFilled = (Ok tt, w')
      ∧ currentStep w' = 1
      ∧ formData w' !! "title" = Some "Payroll system"%string.
Proof.
  assert (invalidFields documentInfo (FormGenerator.inputsOf firstPageFilled) = []) as Hv
    by (vm_compute; reflexivity).
  split; [reflexivity|]. split; [exact Hv|].
  destruct (sections firstPageFilled !! 1) as [next|] eqn:Hnext; [|discriminate Hnext].
  destruct (navigateNext_advances firstPageFilled documentInfo next eq_refl Hv Hnext)
    as (w' & E & Hstep & Hdata & _).
  exists w'. split; [exact E|]. split; [exact Hstep|]. rewrite Hdata.
  vm_compute. reflexivity.
Defined.

Lemma saveBRD_tempData brdData mode editIndex s :
  tempData (StorageManager.saveBRD brdData mode editIndex s).2 = tempData s.
Proof.
  rewrite saveBRD_eq.
  destruct (stamped_proj brdData s) as (Pc & _ & _ & _ & _ & Pt & _).
  set (saved := StorageManager.brdWithMeta _ _ _).
  assert (tempData ((if cloudAvailable s then StorageManager.saveBRDToFirestore saved mode
                     else ret tt) (stamped brdData s)).2 = tempData s) as H1.
  { destruct (cloudAvailable s); [|done].
    unfold StorageManager.saveBRDToFirestore, StorageManager.canUseCloudStorage, docSet,
      firestoreRequest, bind, gets, modify, throw.
    destruct (cloudAvailable (stamped brdData s)); simpl; [|done].
    destruct (truthy (saved !! "id")); [|done].
    by destruct (nextOutcome (remoteFaults (stamped brdData s))) as [[e|] rest]. }
  destruct ((if cloudAvailable s then StorageManager.saveBRDToFirestore saved mode else ret tt)
              (stamped brdData s)) as [[[]|e] s1]; simpl in H1; [|done].
  destruct (saveBRDToLocalStorage_eq saved mode editIndex s1) as (lines & ->).
  by destruct (nextOutcome (localFaults s1)) as [[e|] rest].
Qed.

(** X17: when the save into the storage throws (Firestore rejects the
    write, or [localStorage] refuses the record), [saveBRD] of the form
    throws the same error on, shows it in an error toast behind a second
    "Gagal menyimpan BRD: ", and keeps what the user has typed: the form
    data holds the values of the page, the Draft is not cleared, and the
    local cache is as before. *)
Theorem saveBRD_failure_keeps_the_draft w e :
  (cloudAvailable (storage w) = true ∧ nextFault (remoteFaults (storage w)) = Some e)
  ∨ ((cloudAvailable (storage w) = true → nextFault (remoteFaults (storage w)) = None)
     ∧ nextFault (afterRequest (localFaults (storage w))) = Some e) →
  ∃ w',
    FormGenerator.saveBRD w = (Throw ("Gagal menyimpan BRD: " +:+ e), w')
    ∧ toasts w'
      = toasts w ++ [("Gagal menyimpan BRD: " +:+ ("Gagal menyimpan BRD: " +:+ e), "error"%string)]
    ∧ formData w' = merged w
    ∧ drafts (storage w') = drafts (storage w)
    ∧ tempData (storage w')
      = match nextFault (localFaults (storage w)) with
        | None => Stored (merged w ∪ draftOf (storage w))
        | Some _ => tempData (storage w)
        end.
Proof.
  intros Hfail.
  destruct (formSaveBRD_run w)
    as (s1 & brdData & s4 & id & Ht & Hl & Hs & Hc & _ & _ & _ & _ & r & w' & E & _ & _ & _ & _
        & Hfd & _ & Hres).
  destruct Hs as (_ & _ & _ & Sca & _ & Srf & Sd).
  destruct Hc as (_ & Cca & _ & Crf & Cd & Ctd & Clf & _).
  pose proof (saveBRD_tempData brdData (mode w) (editIndex w) s4) as Htemp.
  assert (∃ s5, StorageManager.saveBRD brdData (mode w) (editIndex w) s4
                = (Throw ("Gagal menyimpan BRD: " +:+ e), s5)
                ∧ drafts s5 = drafts s4) as (s5 & E5 & Hd5).
  { destruct Hfail as [[Hca Hrf]|[Hrf Hlf]].
    - destruct (saveBRD_remote_rejected brdData (mode w) (editIndex w) s4 e)
        as (s5 & E5 & Hd5 & _); [congruence|congruence|].
      by exists s5.
    - destruct (saveBRD_remote_fine brdData (mode w) (editIndex w) s4)
        as (s5 & E5 & Hd5 & _).
      { rewrite Cca, Sca, Crf, Srf. exact Hrf. }
      rewrite Clf, Hl, Hlf in E5, Hd5. by exists s5. }
  rewrite E5 in Hres, Htemp. destruct Hres as (-> & Hto & Hst). simpl in Htemp.
  exists w'. split; [exact E|]. split; [exact Hto|]. split; [exact Hfd|].
  rewrite Hst. simpl. split; [congruence|]. congruence.
Qed.

Lemma saveBRD_failure_keeps_the_draft_witness :
  nextFault (afterRequest (localFaults (storage firstPageSecondWriteFails)))
  = Some "QuotaExceededError"%string
  ∧ ∃ w',
      FormGenerator.saveBRD firstPageSecondWriteFails
      = (Throw "Gagal menyimpan BRD: QuotaExceededError", w')
      ∧ formData w' !! "title" = Some "Payroll system"%string
      ∧ drafts (storage w') = Absent.
Proof.
  split; [reflexivity|].
  destruct (saveBRD_failure_keeps_the_draft firstPageSecondWriteFails "QuotaExceededError")
    as (w' & E & _ & Hfd & Hd & _).
  - right. split; [intros H; discriminate H|reflexivity].
  - exists w'. split; [exact E|]. split; [|exact Hd].
    rewrite Hfd. vm_compute. reflexivity.
Defined.

(** [saveBRD] of the form when no request fails. *)
Lemma formSaveBRD_succeeds w :
  allSucceed (remoteFaults (storage w)) →
  allSucceed (localFaults (storage w)) →
  ∃ id saved w',
    FormGenerator.saveBRD w = (Ok id, w')
    ∧ currentStep w' = currentStep w
    ∧ formData w' = merged w
    ∧ tempData (storage w') = Absent
    ∧ toasts w' = toasts w ++ [("BRD berhasil disimpan!"%string, "success"%string)]
    ∧ localList (storage w')
      = StorageManager.upsertDraft saved (mode w) (editIndex w) (localList (storage w))
    ∧ saved !! "id" = Some id
    ∧ (truthy (merged w !! "id") = true → merged w !! "id" = Some id)
    ∧ ∀ key : string, key ≠ "id"%string → key ≠ "lastUpdated"%string →
                      key ≠ "createdAt"%string → key ≠ "title"%string →
                      saved !! key = merged w !! key.
Proof.
  intros Hr Hl.
  destruct (formSaveBRD_run w)
    as (s1 & brdData & s4 & id & _ & Hl1 & Hs & Hc & Hid & Hne & Hown & Hkeys
        & r & w' & E & Hstep & _ & _ & _ & Hfd & _ & Hres).
  destruct Hs as (_ & _ & _ & Sca & _ & Srf & Sd).
  destruct Hc as (_ & Cca & _ & Crf & Cd & Ctd & Clf & _).
  destruct (saveBRD_all_succeed brdData (mode w) (editIndex w) s4 id Hid Hne)
    as (s5 & E5 & Hd5 & _).
  { by rewrite Crf, Srf. }
  { rewrite Clf, Hl1. by apply allSucceed_afterRequest. }
  rewrite E5 in Hres. destruct Hres as (-> & Hto & Hst).
  exists id, (StorageManager.brdWithMeta brdData id (currentTimeAt s4)), w'.
  split; [exact E|]. split; [exact Hstep|]. split; [exact Hfd|].
  rewrite Hst. split; [done|]. split; [exact Hto|]. split; [|split; [|split; [done|]]].
  - unfold localList at 1. simpl. rewrite Hd5. unfold localList. by rewrite Cd, Sd.
  - apply brdWithMeta_id.
  - intros key H1 H2 H3 H4. unfold StorageManager.brdWithMeta.
    rewrite !lookup_insert_ne by done. by apply Hkeys.
Qed.


(** ** The Draft brings back what was typed *)

Section Restore.
Import FormGenerator.

Lemma restored_id data f : el_id (restored data f) = fieldId f.
Proof. unfold restored. by destruct (truthy _). Qed.

Lemma restored_name data f : el_name (restored data f) = field_name f.
Proof. unfold restored. by destruct (truthy _). Qed.

Lemma restored_invalid data f : el_invalid (restored data f) = false.
Proof. unfold restored. by destruct (truthy _). Qed.

Lemma restored_value data f :
  el_value (restored data f)
  = if truthy (data !! field_name f) then orElse (data !! field_name f) ""
    else el_value (createFieldElement f).
Proof. unfold restored. by destruct (truthy _). Qed.

Lemma getElementById_app_skip id (before after : list Element) :
  Forall (fun e => el_id e ≠ id) before →
  getElementById id (before ++ after) = getElementById id after.
Proof.
  unfold getElementById. induction 1 as [|e l He Hl IH]; [done|]. simpl.
  by destruct (String.eqb_spec (el_id e) id).
Qed.

Lemma updateElement_app_skip id g (before after : list Element) :
  Forall (fun e => el_id e ≠ id) before →
  updateElement id g (before ++ after) = before ++ updateElement id g after.
Proof.
  induction 1 as [|e l He Hl IH]; [done|]. simpl.
  destruct (String.eqb_spec (el_id e) id); [done|]. by rewrite IH.
Qed.

Lemma restored_skip data (done : list Field) f :
  fieldId f ∉ fieldId <$> done →
  Forall (fun e => el_id e ≠ fieldId f) (restored data <$> done).
Proof.
  intros Hni. apply Forall_fmap, Forall_forall. intros g Hg. simpl.
  rewrite restored_id. intros Heq. apply Hni. apply list_elem_of_fmap. by exists g.
Qed.

Lemma getElementById_created f (l : list Element) :
  getElementById (fieldId f) (createFieldElement f :: l) = Some (createFieldElement f).
Proof. unfold getElementById. simpl. by rewrite String.eqb_refl. Qed.

Lemma updateElement_created f g (l : list Element) :
  updateElement (fieldId f) g (createFieldElement f :: l) = g (createFieldElement f) :: l.
Proof. simpl. by rewrite String.eqb_refl. Qed.

(** The loop of [loadSavedSectionData] on a page that has just been
    built. *)
Lemma loadSavedEach_inputs data todo :
  ∀ done w,
    NoDup (fieldId <$> (done ++ todo)) →
    brdForm w = Some ((restored data <$> done) ++ (createFieldElement <$> todo)) →
    ∃ w', forOf todo (loadSavedField data) w = (Ok tt, w')
          ∧ brdForm w' = Some (restored data <$> (done ++ todo))
          ∧ currentStep w' = currentStep w ∧ sections w' = sections w
          ∧ mode w' = mode w ∧ editIndex w' = editIndex w
          ∧ formData w' = formData w ∧ toasts w' = toasts w ∧ storage w' = storage w.
Proof.
  induction todo as [|f rest IH]; intros done w Hnd Hform.
  { exists w. split; [done|]. rewrite Hform. by rewrite !app_nil_r. }
  simpl forOf. unfold bind at 1. unfold loadSavedField at 1. unfold bind at 1, gets.
  assert (fieldId f ∉ fieldId <$> done) as Hni.
  { rewrite fmap_app in Hnd. apply NoDup_app in Hnd as (_ & Hdis & _).
    intros Hin. apply (Hdis _ Hin). rewrite fmap_cons. by left. }
  assert (inputsOf w = (restored data <$> done) ++ createFieldElement f
                       :: (createFieldElement <$> rest)) as Hin
    by (unfold inputsOf; by rewrite Hform).
  rewrite Hin.
  rewrite getElementById_app_skip by by apply restored_skip.
  rewrite getElementById_created.
  assert (∀ w1, brdForm w1 = Some ((restored data <$> done ++ [f])
                                   ++ (createFieldElement <$> rest)) →
                currentStep w1 = currentStep w → sections w1 = sections w →
                mode w1 = mode w → editIndex w1 = editIndex w →
                formData w1 = formData w → toasts w1 = toasts w → storage w1 = storage w →
                ∃ w', forOf rest (loadSavedField data) w1 = (Ok tt, w')
                      ∧ brdForm w' = Some (restored data <$> (done ++ f :: rest))
                      ∧ currentStep w' = currentStep w ∧ sections w' = sections w
                      ∧ mode w' = mode w ∧ editIndex w' = editIndex w
                      ∧ formData w' = formData w ∧ toasts w' = toasts w
                      ∧ storage w' = storage w) as Hnext.
  { intros w1 Hf1 <- <- <- <- <- <- <-.
    destruct (IH (done ++ [f]) w1) as (w' & E & Hf' & Hrest).
    - by rewrite <- app_assoc.
    - exact Hf1.
    - exists w'. split; [exact E|]. rewrite <- app_assoc in Hf'. done. }
  destruct (truthy (data !! field_name f)) eqn:Et.
  - unfold when, modify. apply Hnext; try (unfold setInputs; by rewrite Hform).
    unfold setInputs. rewrite Hform. simpl. f_equal.
    rewrite updateElement_app_skip by by apply restored_skip.
    rewrite updateElement_created. rewrite fmap_app, <- app_assoc. simpl.
    f_equal. f_equal. unfold restored. by rewrite Et.
  - unfold when, ret. apply Hnext; try done.
    rewrite Hform. f_equal. rewrite fmap_app, <- app_assoc. simpl.
    f_equal. f_equal. unfold restored. by rewrite Et.
Qed.

(** The page [loadFormSection] shows. *)
Lemma loadFormSection_inputs index w section :
  sections w !! index = Some section →
  NoDup (field_id <$> fields section) →
  is_Some (brdForm w) →
  ∃ w', loadFormSection index w = (Ok tt, w')
        ∧ inputsOf w' = restored (draftOf (storage w)) <$> fields section
        ∧ is_Some (brdForm w')
        ∧ currentStep w' = index ∧ sections w' = sections w
        ∧ mode w' = mode w ∧ editIndex w' = editIndex w
        ∧ formData w' = formData w ∧ toasts w' = toasts w
        ∧ tempData (storage w') = tempData (storage w)
        ∧ localFaults (storage w') = localFaults (storage w)
        ∧ sameButDraft (storage w) (storage w').
Proof.
  intros Hsec Hnd [l Hform]. unfold loadFormSection. unfold bind at 1, gets. rewrite Hsec.
  unfold bind at 1, modify. unfold bind at 1. unfold buildSectionForm, modify.
  unfold setInputs at 1. simpl brdForm. rewrite Hform.
  set (w1 := set_brdForm _ _).
  unfold loadSavedSectionData. unfold bind at 1.
  assert (∃ s', StorageManager.getTempData (storage w1) = (Ok (draftOf (storage w)), s')
                ∧ tempData s' = tempData (storage w)
                ∧ localFaults s' = localFaults (storage w)
                ∧ sameButDraft (storage w) s') as (s' & Eg & Ht & Hl & Hs).
  { unfold StorageManager.getTempData, draftOf, sameButDraft, bind, gets, ret, consoleError,
      modify. simpl.
    destruct (tempData (storage w)) eqn:E; simpl; eexists; (split; [reflexivity|]);
      simpl; by rewrite ?E. }
  unfold onStorage at 1. rewrite Eg.
  destruct (loadSavedEach_inputs (draftOf (storage w)) (fields section) [] (set_storage s' w1))
    as (w' & -> & Hf' & H1 & H2 & H3 & H4 & H5 & H6 & H7).
  { simpl. by apply NoDup_fieldId. }
  { done. }
  exists w'. split; [done|]. simpl in *.
  split; [unfold inputsOf; by rewrite Hf'|]. split; [by rewrite Hf'|].
  rewrite H7. done.
Qed.

Lemma formDataOf_acc (l : list Element) :
  ∀ (acc : Obj) (name : string),
    name ∉ el_name <$> l →
    foldl (fun (data : Obj) input =>
             if negb (String.eqb (el_name input) "")
             then <[el_name input := el_value input]> data else data) acc l !! name
    = acc !! name.
Proof.
  induction l as [|e l IH]; intros acc name Hni; [done|].
  rewrite fmap_cons, not_elem_of_cons in Hni. destruct Hni as [Hne Hni].
  simpl. rewrite IH by done.
  destruct (negb (String.eqb (el_name e) "")); [|done].
  by rewrite lookup_insert_ne.
Qed.

Lemma formDataOf_None (l : list Element) name :
  name ∉ el_name <$> l → formDataOf l !! name = None.
Proof. intros H. unfold formDataOf. by rewrite formDataOf_acc. Qed.

Lemma formDataOf_Some (l : list Element) e :
  NoDup (el_name <$> l) → e ∈ l → el_name e ≠ ""%string →
  formDataOf l !! el_name e = Some (el_value e).
Proof.
  unfold formDataOf. generalize (∅ : Obj).
  induction l as [|x l IH]; intros acc Hnd Hin Hne; [by apply elem_of_nil in Hin|].
  rewrite fmap_cons in Hnd. apply NoDup_cons in Hnd as [Hx Hnd].
  simpl. apply elem_of_cons in Hin as [->|Hin].
  - rewrite formDataOf_acc by done.
    destruct (String.eqb_spec (el_name x) ""); [done|]. simpl. apply lookup_insert_eq.
  - by apply IH.
Qed.

Lemma pageOf_names fs (l : list Element) : pageOf fs l → el_name <$> l = field_name <$> fs.
Proof.
  induction 1 as [|f e fs l [_ Hn] _ IH]; [done|]. rewrite !fmap_cons. by rewrite Hn, IH.
Qed.

Lemma pageOf_restored data fs : pageOf fs (restored data <$> fs).
Proof.
  induction fs as [|f fs IH]; [constructor|]. rewrite fmap_cons. constructor; [|done].
  by rewrite restored_id, restored_name.
Qed.

(** X19: leaving a page by the sidebar and coming back shows what was
    typed on it: when the Draft takes the write made on leaving, every
    input of the page gets back the value it had, and an input that was
    left empty gets the default value of its field again; no input is
    marked invalid.  (The names of the fields of the two sections must not
    overlap, and ids and names must be distinct within the section, as in
    the sections of the wizard.) *)
Theorem draft_restores_the_page w i j sectionI sectionJ :
  currentStep w = i →
  i ≠ j →
  sections w !! i = Some sectionI →
  sections w !! j = Some sectionJ →
  is_Some (brdForm w) →
  pageOf (fields sectionI) (inputsOf w) →
  NoDup (field_id <$> fields sectionI) →
  NoDup (field_name <$> fields sectionI) →
  Forall (fun f => field_name f ≠ ""%string) (fields sectionI) →
  NoDup (field_id <$> fields sectionJ) →
  Forall (fun f => Forall (fun g => field_name f ≠ field_name g) (fields sectionJ))
         (fields sectionI) →
  nextFault (localFaults (storage w)) = None →
  ∃ w1 w2,
    sidebarItemClick j w = (Ok tt, w1)
    ∧ sidebarItemClick i w1 = (Ok tt, w2)
    ∧ currentStep w2 = i
    ∧ pageOf (fields sectionI) (inputsOf w2)
    ∧ ∀ k f e,
        fields sectionI !! k = Some f →
        inputsOf w !! k = Some e →
        ∃ e', inputsOf w2 !! k = Some e'
              ∧ el_value e' = (if String.eqb (el_value e) ""
                               then el_value (createFieldElement f) else el_value e)
              ∧ el_invalid e' = false.
Proof.
  intros Hi Hij HsecI HsecJ Hform Hpage HndI HnamesI HnonemptyI HndJ Hdisjoint Hok.
  (* the click on [j] *)
  unfold sidebarItemClick at 1. unfold bind at 1, gets at 1.
  destruct (Nat.eqb_spec (currentStep w) j) as [E|_]; [congruence|].
  unfold when. cbn [negb]. unfold bind at 1.
  destruct (saveCurrentSectionData_eq w) as (sa & -> & Hta & Hla & Hsa).
  rewrite Hok in Hta.
  set (wa := set_storage sa (set_formData (merged w) w)).
  destruct (loadFormSection_inputs j wa sectionJ HsecJ HndJ Hform)
    as (w1 & -> & Hin1 & Hform1 & Hstep1 & Hsec1 & _ & _ & Hfd1 & _ & Ht1 & _ & _).
  simpl in Hin1, Hsec1, Hfd1, Ht1.
  assert (draftOf sa = merged w ∪ draftOf (storage w)) as Hda
    by (unfold draftOf at 1; by rewrite Hta).
  rewrite Hda in Hin1.
  exists w1.
  (* the click back on [i] *)
  unfold sidebarItemClick at 1. unfold bind at 1, gets at 1. rewrite Hstep1.
  destruct (Nat.eqb_spec j i) as [E|_]; [congruence|].
  unfold when. cbn [negb]. unfold bind at 1.
  destruct (saveCurrentSectionData_eq w1) as (sb & -> & Htb & _ & _).
  set (wb := set_storage sb (set_formData (merged w1) w1)).
  destruct (loadFormSection_inputs i wb sectionI) as (w2 & -> & Hin2 & _ & Hstep2 & _);
    [simpl; by rewrite Hsec1|done|exact Hform1|].
  simpl in Hin2.
  exists w2. split; [done|]. split; [done|]. split; [done|].
  rewrite Hin2. split; [apply pageOf_restored|].
  intros k f e Hk He.
  rewrite list_lookup_fmap, Hk. simpl. eexists. split; [reflexivity|].
  split; [|apply restored_invalid].
  (* the Draft holds the value typed into the input of [f] *)
  destruct (Forall2_lookup_lr _ _ _ k f e Hpage Hk He) as [_ Hname].
  assert (f ∈ fields sectionI) as Hf by (by eapply list_elem_of_lookup_2).
  assert (formDataOf (inputsOf w) !! field_name f = Some (el_value e)) as Htyped.
  { rewrite <- Hname. apply formDataOf_Some.
    - by rewrite (pageOf_names _ _ Hpage).
    - by eapply list_elem_of_lookup_2.
    - rewrite Hname. rewrite Forall_forall in HnonemptyI. by apply HnonemptyI. }
  assert (merged w !! field_name f = Some (el_value e)) as Hmerged
    by (by apply lookup_union_Some_l).
  assert (tempData (storage w1) = Stored (merged w ∪ draftOf (storage w))) as Ht1'
    by (by rewrite Ht1).
  assert (draftOf (storage w1) = merged w ∪ draftOf (storage w)) as Hd1
    by (unfold draftOf at 1; by rewrite Ht1').
  assert (formDataOf (inputsOf w1) !! field_name f = None) as Hnone.
  { apply formDataOf_None. rewrite Hin1.
    rewrite (pageOf_names (fields sectionJ)) by apply pageOf_restored.
    intros (g & Hg & Hgin)%list_elem_of_fmap.
    rewrite Forall_forall in Hdisjoint. specialize (Hdisjoint f Hf).
    rewrite Forall_forall in Hdisjoint. by apply (Hdisjoint g). }
  assert (draftOf sb !! field_name f = Some (el_value e)) as Hdraft.
  { unfold draftOf at 1. rewrite Htb.
    destruct (nextFault (localFaults (storage w1))).
    - rewrite Ht1'. by apply lookup_union_Some_l.
    - rewrite Hd1. unfold merged at 1. rewrite Hfd1.
      rewrite <- !(assoc_L (∪)). rewrite lookup_union_r by done.
      by apply lookup_union_Some_l. }
  rewrite restored_value, Hdraft. simpl.
  by destruct (String.eqb (el_value e) "").
Qed.
Lemma draft_restores_the_page_witness :
  pageOf (fields documentInfo) (inputsOf firstPageFilled)
  ∧ ∃ w1 w2 e',
      sidebarItemClick 1 firstPageFilled = (Ok tt, w1)
      ∧ sidebarItemClick 0 w1 = (Ok tt, w2)
      ∧ inputsOf w2 !! 0 = Some e'
      ∧ el_value e' = "Payroll system"%string.
Proof.
  assert (pageOf (fields documentInfo) (inputsOf firstPageFilled)) as Hpage
    by (repeat (constructor; [split; reflexivity|]); constructor).
  split; [exact Hpage|].
  destruct (sections firstPageFilled !! 1) as [next|] eqn:Hnext; [|discriminate Hnext].
  injection Hnext as Hnext.
  destruct (draft_restores_the_page firstPageFilled 0 1 documentInfo next)
    as (w1 & w2 & E1 & E2 & _ & _ & Hvalues).
  - reflexivity.
  - discriminate.
  - reflexivity.
  - by rewrite <- Hnext.
  - by eexists.
  - exact Hpage.
  - apply (bool_decide_unpack _). vm_compute. exact I.
  - apply (bool_decide_unpack _). vm_compute. exact I.
  - apply (bool_decide_unpack _). vm_compute. exact I.
  - rewrite <- Hnext. apply (bool_decide_unpack _). vm_compute. exact I.
  - rewrite <- Hnext. apply (bool_decide_unpack _). vm_compute. exact I.
  - reflexivity.
  - destruct (Hvalues 0 (FormGenerator.field "text" "title" true
                            (Some {| minLength := Some 5; maxLength := Some 100 |}) None)
                (input "title" "Payroll system") eq_refl eq_refl) as (e' & He' & Hv & _).
    exists w1, w2, e'. split; [exact E1|]. split; [exact E2|]. split; [exact He'|exact Hv].
Defined.
End Restore.
(** ** Opening the wizard *)

Section Opening.
Import FormGenerator.

Lemma loadTempDataForEditing_run brdData s :
  ∃ s', StorageManager.loadTempDataForEditing brdData s = (Ok tt, s')
        ∧ tempData s' = match nextFault (localFaults s) with
                        | None => Stored brdData
                        | Some _ => tempData s
                        end
        ∧ localFaults s' = afterRequest (localFaults s)
        ∧ sameButDraft s s'.
Proof.
  unfold StorageManager.loadTempDataForEditing, tryCatch, setItemRequest, nextFault,
    afterRequest, sameButDraft, bind, consoleError, modify.
  destruct (nextOutcome (localFaults s)) as [[e|] rest]; simpl;
    eexists; (split; [reflexivity|]); simpl; done.
Qed.

Lemma loadBRD_index_run i s :
  ∃ s', StorageManager.loadBRD (StorageManager.Index (Z.of_nat i)) s = (Ok (shown s !! i), s')
        ∧ tempData s' = tempData s
        ∧ (allSucceed (localFaults s) → allSucceed (localFaults s')).
Proof.
  destruct (loadBRDs_run s) as (s' & E & _ & _ & _ & Ht & _ & Hl & _).
  exists s'. split; [|split; [done|]].
  - unfold StorageManager.loadBRD, tryCatch. unfold bind at 1. rewrite E. unfold ret.
    by rewrite at_of_nat.
  - intros Hok. rewrite Hl. destruct (cloudAvailable s); [|done].
    destruct (nextFault (remoteFaults s)); [done|]. by apply allSucceed_afterRequest.
Qed.

(** A date input keeps a date written year first and nothing else; a
    text input keeps a line of text. *)
Lemma keptBy_examples :
  keptBy "date" "2025-09-30" = true
  ∧ keptBy "date" "30/09/2025" = false
  ∧ keptBy "date" "2025-02-29" = false
  ∧ keptBy "date" "2024-02-29" = true
  ∧ keptBy "text" "Payroll system" = true
  ∧ keptBy "text" (String "010" "Payroll") = false.
Proof. repeat split; vm_compute; reflexivity. Qed.

(** X20: opening the wizard to edit the record the list shows at position
    [i] puts that record in the place of the form data and of the Draft
    (when [localStorage] takes the write), sets the mode and the edit index,
    and shows the first section: one input for each field, and in it the
    value of the record, or the default value where the record has none,
    for every field whose input keeps that value as it is (a text without
    line break, a valid date in a date field).  Of a value the input does
    not keep, such as a date written 30/09/2025, nothing is said. *)
Theorem generateForm_edit_loads_the_record w i brd first :
  sections w !! 0 = Some first →
  NoDup (field_id <$> fields first) →
  is_Some (brdForm w) →
  shown (storage w) !! i = Some brd →
  allSucceed (localFaults (storage w)) →
  ∃ w',
    generateForm "edit" (Some i) w = (Ok tt, w')
    ∧ mode w' = "edit"%string ∧ editIndex w' = Some i ∧ currentStep w' = 0
    ∧ formData w' = brd
    ∧ tempData (storage w') = Stored brd
    ∧ pageOf (fields first) (inputsOf w')
    ∧ ∀ k f, fields first !! k = Some f → shownAsIs brd f = true →
             inputsOf w' !! k = Some (restored brd f).
Proof.
  intros Hsec Hnd [l Hform] Hshown Hok.
  unfold generateForm. unfold bind at 1, modify at 1. unfold bind at 1, modify at 1.
  unfold bind at 1, modify at 1.
  set (w0 := set_currentStep 0 _).
  unfold tryCatch. unfold bind at 1, modify at 1. unfold bind at 1.
  set (wa := setInputs [] w0).
  assert (brdForm wa = Some []) as Hforma
    by (unfold wa, setInputs; simpl; by rewrite Hform).
  simpl String.eqb. unfold when.
  unfold loadBRDForEditing, tryCatch. unfold bind at 1. unfold onStorage at 1.
  assert (storage wa = storage w) as Hsta
    by (unfold wa, setInputs; simpl; by rewrite Hform).
  destruct (loadBRD_index_run i (storage wa)) as (s1 & E1 & Ht1 & Hl1).
  rewrite E1. rewrite Hsta in Ht1, Hl1 |- *.
  rewrite Hshown. unfold bind at 1, modify at 1. unfold onStorage at 1. simpl storage.
  destruct (loadTempDataForEditing_run brd s1) as (s2 & -> & Ht2 & _ & _).
  rewrite (allSucceed_nextFault _ (Hl1 Hok)) in Ht2.
  set (wb := set_storage s2 _).
  assert (sections wa = sections w ∧ mode wa = "edit"%string ∧ editIndex wa = Some i)
    as (Hsea & Hma & Hea) by (unfold wa, setInputs; simpl; by rewrite Hform).
  destruct (loadFormSection_inputs 0 wb first) as (w' & -> & Hin & _ & Hstep & _ & Hm & He
                                                  & Hfd & _ & Ht & _).
  { simpl. by rewrite Hsea. }
  { exact Hnd. }
  { simpl. rewrite Hforma. by eexists. }
  exists w'. split; [done|]. simpl in *.
  split; [by rewrite Hm|]. split; [by rewrite He|]. split; [done|]. split; [done|].
  split; [by rewrite Ht|].
  rewrite Hin. unfold draftOf. rewrite Ht2.
  split; [apply pageOf_restored|].
  intros k f Hk _. by rewrite list_lookup_fmap, Hk.
Qed.

Lemma generateForm_edit_loads_the_record_witness :
  shown (storage (set_storage offlineWithCache firstPageFilled)) !! 0 = Some newer
  ∧ ∃ w' e,
      generateForm "edit" (Some 0) (set_storage offlineWithCache firstPageFilled) = (Ok tt, w')
      ∧ formData w' = newer
      ∧ inputsOf w' !! 0 = Some e
      ∧ el_value e = "Billing"%string
      ∧ inputsOf w' !! 3 = Some (input "tanggal" "2025-09-30").
Proof.
  assert (shown (storage (set_storage offlineWithCache firstPageFilled)) !! 0 = Some newer)
    as Hshown by (vm_compute; reflexivity).
  split; [exact Hshown|].
  destruct (generateForm_edit_loads_the_record (set_storage offlineWithCache firstPageFilled)
              0 newer documentInfo eq_refl)
    as (w' & E & _ & _ & _ & Hfd & _ & _ & Hin).
  - apply (bool_decide_unpack _). vm_compute. exact I.
  - by eexists.
  - exact Hshown.
  - constructor.
  - exists w', (restored newer (FormGenerator.field "text" "title" true
                  (Some {| minLength := Some 5; maxLength := Some 100 |}) None)).
    split; [exact E|]. split; [exact Hfd|].
    split; [apply (Hin 0); reflexivity|].
    split; [vm_compute; reflexivity|].
    rewrite (Hin 3 (FormGenerator.field "date" "tanggal" true None (Some "2025-09-30")))
      by reflexivity.
    vm_compute. reflexivity.
Defined.

Lemma generateForm_new_run w first :
  sections w !! 0 = Some first →
  NoDup (field_id <$> fields first) →
  is_Some (brdForm w) →
  ∃ w',
    generateForm "new" None w = (Ok tt, w')
    ∧ mode w' = "new"%string ∧ editIndex w' = None ∧ currentStep w' = 0
    ∧ sections w' = sections w
    ∧ formData w' = formData w
    ∧ tempData (storage w') = tempData (storage w)
    ∧ localFaults (storage w') = localFaults (storage w)
    ∧ sameButDraft (storage w) (storage w')
    ∧ toasts w' = toasts w
    ∧ inputsOf w' = restored (draftOf (storage w)) <$> fields first.
Proof.
  intros Hsec Hnd [l Hform].
  unfold generateForm. unfold bind at 1, modify at 1. unfold bind at 1, modify at 1.
  unfold bind at 1, modify at 1.
  set (w0 := set_currentStep 0 _).
  unfold tryCatch. unfold bind at 1, modify at 1. unfold bind at 1. unfold ret at 1.
  set (wa := setInputs [] w0).
  assert (brdForm wa = Some []) as Hforma
    by (unfold wa, setInputs; simpl; by rewrite Hform).
  assert (mode wa = "new"%string ∧ editIndex wa = None ∧ sections wa = sections w
          ∧ formData wa = formData w ∧ storage wa = storage w ∧ toasts wa = toasts w)
    as (Hm' & He' & Hse' & Hfd' & Hst' & Hto').
  { unfold wa, setInputs. simpl. by rewrite Hform. }
  destruct (loadFormSection_inputs 0 wa first) as (w' & -> & Hin & _ & Hstep & Hse & Hm & He
                                                  & Hfd & Hto & Ht & Hl & Hs).
  { by rewrite Hse'. }
  { exact Hnd. }
  { rewrite Hforma. by eexists. }
  exists w'. split; [done|].
  rewrite Hst' in *. by rewrite Hm, He, Hse, Hfd, Hto.
Qed.

(** X21: opening the wizard for a new document does not clear what the
    session before has left: the form data and the Draft are as they
    were, and the first section shows, in the input of every field that
    keeps it as it is (a text without line break, a valid date in a date
    field), the value of the Draft, or the default value where the Draft
    has none.  When the form data still carries an id (an edit leaves the
    id of the edited record there), the next save of the form uses that id
    for the new document, which takes the place of the cached record with
    that id instead of being added. *)
Theorem generateForm_new_keeps_the_form_data w first id :
  sections w !! 0 = Some first →
  NoDup (field_id <$> fields first) →
  is_Some (brdForm w) →
  Forall (fun f => field_name f ≠ "id"%string) (fields first) →
  formData w !! "id" = Some id →
  id ≠ ""%string →
  allSucceed (remoteFaults (storage w)) →
  allSucceed (localFaults (storage w)) →
  ∃ w1 saved w2,
    generateForm "new" None w = (Ok tt, w1)
    ∧ mode w1 = "new"%string
    ∧ formData w1 = formData w
    ∧ tempData (storage w1) = tempData (storage w)
    ∧ pageOf (fields first) (inputsOf w1)
    ∧ (∀ k f, fields first !! k = Some f → shownAsIs (draftOf (storage w)) f = true →
              inputsOf w1 !! k = Some (restored (draftOf (storage w)) f))
    ∧ FormGenerator.saveBRD w1 = (Ok id, w2)
    ∧ saved !! "id" = Some id
    ∧ localList (storage w2)
      = match findIndex (sameId saved) (localList (storage w)) with
        | Some existingIndex => <[existingIndex := saved]> (localList (storage w))
        | None => localList (storage w) ++ [saved]
        end.
Proof.
  intros Hsec Hnd Hform Hnames Hid Hne Hr Hl.
  destruct (generateForm_new_run w first Hsec Hnd Hform)
    as (w1 & E1 & Hm & He & _ & _ & Hfd & Ht & Hl1 & Hs & _ & Hin).
  destruct Hs as (_ & _ & _ & _ & _ & Srf & Sd).
  destruct (formSaveBRD_succeeds w1) as (id' & saved & w2 & E2 & _ & _ & _ & _ & Hll & Hsid
                                         & Hown & _).
  { by rewrite Srf. }
  { by rewrite Hl1. }
  assert (merged w1 !! "id" = Some id) as Hmid.
  { unfold merged. rewrite lookup_union_r; [by rewrite Hfd|].
    apply formDataOf_None. rewrite Hin, (pageOf_names (fields first)) by apply pageOf_restored.
    intros (f & Hf & Hfin)%list_elem_of_fmap.
    rewrite Forall_forall in Hnames. by apply (Hnames f Hfin). }
  assert (id' = id) as ->.
  { rewrite Hmid in Hown. simpl in Hown. destruct (String.eqb_spec id ""); [done|].
    specialize (Hown eq_refl). congruence. }
  exists w1, saved, w2. split; [exact E1|]. split; [exact Hm|]. split; [exact Hfd|].
  split; [exact Ht|]. split; [rewrite Hin; apply pageOf_restored|].
  split; [intros k f Hk _; by rewrite Hin, list_lookup_fmap, Hk|].
  split; [exact E2|]. split; [exact Hsid|].
  rewrite Hll, Hm, He. unfold localList. rewrite Sd. reflexivity.
Qed.
Lemma generateForm_new_keeps_the_form_data_witness :
  formData afterEditing !! "id" = Some "b2"%string
  ∧ ∃ w1 w2,
      generateForm "new" None afterEditing = (Ok tt, w1)
      ∧ mode w1 = "new"%string
      ∧ FormGenerator.saveBRD w1 = (Ok "b2"%string, w2)
      ∧ length (localList (storage w2)) = length (localList (storage afterEditing)).
Proof.
  split; [reflexivity|].
  destruct (generateForm_new_keeps_the_form_data afterEditing documentInfo "b2" eq_refl)
    as (w1 & saved & w2 & E1 & Hm & _ & _ & _ & _ & E2 & Hsid & Hll).
  - apply (bool_decide_unpack _). vm_compute. exact I.
  - by eexists.
  - apply (bool_decide_unpack _). vm_compute. exact I.
  - reflexivity.
  - discriminate.
  - constructor.
  - constructor.
  - exists w1, w2. split; [exact E1|]. split; [exact Hm|]. split; [exact E2|].
    rewrite Hll.
    change (localList (storage afterEditing)) with [older; newer].
    cbn [findIndex]. unfold sameId. rewrite Hsid. reflexivity.
Defined.

(** X22: [reset] is what empties the wizard: after it, opening the wizard
    for a new document shows the first section with the default values of
    its fields, on empty form data and with no Draft; the saved records are
    not touched. *)
Theorem reset_then_generateForm_starts_empty w first :
  sections w !! 0 = Some first →
  NoDup (field_id <$> fields first) →
  is_Some (brdForm w) →
  ∃ w1 w2,
    reset w = (Ok tt, w1)
    ∧ generateForm "new" None w1 = (Ok tt, w2)
    ∧ mode w2 = "new"%string ∧ editIndex w2 = None ∧ currentStep w2 = 0
    ∧ formData w2 = ∅
    ∧ tempData (storage w2) = Absent
    ∧ inputsOf w2 = createFieldElement <$> fields first
    ∧ drafts (storage w2) = drafts (storage w)
    ∧ cloud (storage w2) = cloud (storage w).
Proof.
  intros Hsec Hnd Hform.
  set (w1 := set_storage (set_tempData Absent (storage w))
               (set_editIndex None (set_mode "new" (set_formData ∅ (set_currentStep 0 w))))).
  destruct (generateForm_new_run w1 first Hsec Hnd Hform)
    as (w2 & E2 & Hm & He & Hst & _ & Hfd & Ht & _ & Hs & _ & Hin).
  destruct Hs as (_ & _ & _ & _ & Scl & _ & Sd).
  exists w1, w2. split; [reflexivity|]. split; [exact E2|].
  split; [exact Hm|]. split; [exact He|]. split; [exact Hst|]. split; [exact Hfd|].
  split; [exact Ht|]. split; [|split; [exact Sd|exact Scl]].
  rewrite Hin. apply list_fmap_ext. intros k f _. reflexivity.
Qed.

Lemma reset_then_generateForm_starts_empty_witness :
  formData afterEditing !! "id" = Some "b2"%string
  ∧ ∃ w1 w2,
      reset afterEditing = (Ok tt, w1)
      ∧ generateForm "new" None w1 = (Ok tt, w2)
      ∧ formData w2 = ∅
      ∧ drafts (storage w2) = Stored [older; newer].
Proof.
  split; [reflexivity|].
  destruct (reset_then_generateForm_starts_empty afterEditing documentInfo eq_refl)
    as (w1 & w2 & E1 & E2 & _ & _ & _ & Hfd & _ & _ & Hd & _).
  - apply (bool_decide_unpack _). vm_compute. exact I.
  - by eexists.
  - exists w1, w2. split; [exact E1|]. split; [exact E2|]. split; [exact Hfd|exact Hd].
Defined.
End Opening.

(** ** Signing in: migrating, then listing *)

(** X23: what the app does when the user signs in, a migration followed by
    a listing, loses no record of the local cache when no request fails:
    the listing replaces the cache by what it fetches, and every record
    that was in the cache has a counterpart (same [title], same
    [createdAt]) in the list and in the new cache.  (Same conditions on
    the migrated records as for migrating twice.) *)
Theorem migrate_then_list_keeps_every_record s :
  cloudAvailable s = true →
  allSucceed (remoteFaults s) →
  nextFault (localFaults s) = None →
  let migrated := toMigrate (fetched (cloud s)) (localList s) in
  Forall (fun brd : Obj => truthy (brd !! "id") = true) migrated →
  Forall (fun brd : Obj => is_Some (brd !! "lastUpdated")) migrated →
  NoDup (idsOf migrated) →
  Forall (fun brd : Obj => cloud s !! orElse (brd !! "id") "" = None) migrated →
  ∃ s1 brds s2,
    StorageManager.migrateLocalToCloud s = (Ok (length migrated), s1)
    ∧ StorageManager.loadBRDs s1 = (Ok brds, s2)
    ∧ brds ≡ₚ localList s2
    ∧ ∀ brd, brd ∈ localList s →
             ∃ kept, kept ∈ localList s2
                     ∧ kept !! "title" = brd !! "title"
                     ∧ kept !! "createdAt" = brd !! "createdAt".
Proof.
  intros Hc Hf Hl migrated Hids Hlu Hnd Hfresh.
  destruct (migrateLocalToCloud_counterparts s Hc Hf Hids Hlu Hnd Hfresh)
    as (s1 & E1 & Hc1 & Hf1 & Hl1 & _ & Hall).
  destruct (loadBRDs_run s1) as (s2 & E2 & _ & _ & _ & _ & _ & _ & Hd2).
  rewrite Hc1, (allSucceed_nextFault _ Hf1), Hl1, Hl in Hd2.
  assert (localList s2 = fetched (cloud s1)) as Hll by (unfold localList; by rewrite Hd2).
  exists s1, (shown s1), s2. split; [exact E1|]. split; [exact E2|]. split.
  - rewrite Hll. unfold shown. rewrite Hc1, (allSucceed_nextFault _ Hf1). apply sort_perm.
  - intros brd Hin. rewrite Hll. by apply existsInCloud_spec, Hall.
Qed.

Lemma migrate_then_list_keeps_every_record_witness :
  cloudAvailable onlineHalfMigrated = true
  ∧ localList onlineHalfMigrated = [older; newer]
  ∧ ∃ s1 brds s2,
      StorageManager.migrateLocalToCloud onlineHalfMigrated = (Ok 1, s1)
      ∧ StorageManager.loadBRDs s1 = (Ok brds, s2)
      ∧ ∃ kept, kept ∈ localList s2 ∧ kept !! "title" = newer !! "title".
Proof.
  assert (toMigrate (fetched (cloud onlineHalfMigrated)) (localList onlineHalfMigrated)
          = [newer]) as Hm by (vm_compute; reflexivity).
  split; [reflexivity|]. split; [reflexivity|].
  destruct (migrate_then_list_keeps_every_record onlineHalfMigrated eq_refl)
    as (s1 & brds & s2 & E1 & E2 & _ & Hkept).
  - constructor.
  - reflexivity.
  - rewrite Hm. repeat constructor.
  - rewrite Hm. apply (bool_decide_unpack _). vm_compute. exact I.
  - rewrite Hm. apply (bool_decide_unpack _). vm_compute. exact I.
  - rewrite Hm. repeat constructor.
  - rewrite Hm in E1. exists s1, brds, s2. split; [exact E1|]. split; [exact E2|].
    destruct (Hkept newer) as (kept & Hin & Ht & _).
    + change (localList onlineHalfMigrated) with [older; newer].
      apply elem_of_cons. right. apply elem_of_cons. by left.
    + by exists kept.
Defined.

(** X24: with remote storage available, when the fetch succeeds and
    [localStorage] refuses the copy, the listing still returns the fetched
    records; the refusal is only logged and the local cache stays as it
    was. *)
Theorem loadBRDs_sync_failure_is_swallowed s e :
  cloudAvailable s = true →
  nextFault (remoteFaults s) = None →
  nextFault (localFaults s) = Some e →
  ∃ brds s',
    StorageManager.loadBRDs s = (Ok brds, s')
    ∧ brds ≡ₚ fetched (cloud s)
    ∧ drafts s' = drafts s
    ∧ console s' = console s ++ ["Error syncing to localStorage: " +:+ e].
Proof.
  intros Hc Hr Hl.
  unfold StorageManager.loadBRDs, tryCatch. unfold bind at 1.
  unfold StorageManager.canUseCloudStorage at 1, gets at 1. rewrite Hc.
  unfold bind at 1. unfold bind at 1. rewrite loadBRDsFromFirestore_run by done.
  unfold nextFault in Hr, Hl.
  destruct (nextOutcome (remoteFaults s)) as [o rest]; simpl in Hr; subst o.
  unfold StorageManager.syncBRDsToLocalStorage, tryCatch, setItemRequest, bind,
    consoleError, modify, gets, ret. simpl.
  destruct (nextOutcome (localFaults s)) as [o rest']; simpl in Hl; subst o. simpl.
  eexists _, _. split; [reflexivity|]. simpl. split; [apply sort_perm|done].
Qed.

Lemma loadBRDs_sync_failure_is_swallowed_witness :
  cloudAvailable onlineCacheFull = true
  ∧ nextFault (localFaults onlineCacheFull) = Some "QuotaExceededError"%string
  ∧ ∃ brds s',
      StorageManager.loadBRDs onlineCacheFull = (Ok brds, s')
      ∧ length brds = 2
      ∧ drafts s' = Absent.
Proof.
  split; [reflexivity|]. split; [reflexivity|].
  destruct (loadBRDs_sync_failure_is_swallowed onlineCacheFull "QuotaExceededError"
              eq_refl eq_refl eq_refl) as (brds & s' & E & Hp & Hd & _).
  exists brds, s'. split; [exact E|]. split; [|exact Hd].
  rewrite (Permutation_length Hp). vm_compute. reflexivity.
Defined.

(** ** The Draft *)

(** X25: [saveTempData] adds to the Draft and never throws: when
    [localStorage] takes the write, [getTempData] afterwards returns every
    property just saved and, of the Draft before, the properties that were
    not saved again; when it refuses, the Draft is as before and the error
    is only logged.  A Draft that cannot be read counts as empty. *)
Theorem saveTempData_then_getTempData data s :
  ∃ s1 s2,
    StorageManager.saveTempData data s = (Ok tt, s1)
    ∧ StorageManager.getTempData s1
      = (Ok (match nextFault (localFaults s) with
             | None => data ∪ draftOf s
             | Some _ => draftOf s
             end), s2)
    ∧ (nextFault (localFaults s) = None →
       ∀ key, draftOf s1 !! key = match data !! key with
                                  | Some v => Some v
                                  | None => draftOf s !! key
                                  end)
    ∧ drafts s2 = drafts s ∧ cloud s2 = cloud s.
Proof.
  destruct (saveTempData_frame data s) as (s1 & E1 & Ht & _ & Hs).
  destruct Hs as (_ & _ & _ & _ & Scl & _ & Sd).
  assert (draftOf s1 = match nextFault (localFaults s) with
                       | None => data ∪ draftOf s
                       | Some _ => draftOf s
                       end) as Hd.
  { unfold draftOf at 1. rewrite Ht. by destruct (nextFault (localFaults s)). }
  assert (∃ s2, StorageManager.getTempData s1 = (Ok (draftOf s1), s2)
                ∧ drafts s2 = drafts s1 ∧ cloud s2 = cloud s1) as (s2 & E2 & Hd2 & Hc2).
  { unfold StorageManager.getTempData, draftOf, bind, gets, ret, consoleError, modify.
    destruct (tempData s1); simpl; by eexists. }
  exists s1, s2. split; [exact E1|]. rewrite <- Hd. split; [exact E2|].
  split; [|by rewrite Hd2, Hc2].
  intros Hok key. rewrite Hd, Hok, lookup_union. by destruct (data !! key), (draftOf s !! key).
Qed.

(** ** Going back *)

(** X26: the button back does nothing on the first section; on any other
    it merges the values of the page into the form data (and into the
    Draft, when [localStorage] takes the write) and shows the section
    before, without validating: no toast and no error mark, whatever the
    page holds. *)
Theorem navigatePrevious_goes_back w :
  match currentStep w with
  | O => FormGenerator.navigatePrevious w = (Ok tt, w)
  | S before =>
      ∀ section, sections w !! before = Some section →
      ∃ w',
        FormGenerator.navigatePrevious w = (Ok tt, w')
        ∧ currentStep w' = before
        ∧ formData w' = merged w
        ∧ (nextFault (localFaults (storage w)) = None →
           tempData (storage w') = Stored (merged w ∪ draftOf (storage w)))
        ∧ toasts w' = toasts w
        ∧ failures w' = []
  end.
Proof.
  destruct (currentStep w) as [|before] eqn:Hstep.
  { unfold FormGenerator.navigatePrevious, bind, gets, when. by rewrite Hstep. }
  intros section Hsec.
  unfold FormGenerator.navigatePrevious. unfold bind at 1, gets. rewrite Hstep.
  change (0 <? S before) with true. unfold when. unfold bind at 1.
  destruct (saveCurrentSectionData_run w) as (w1 & -> & H1 & H2 & H3 & H4 & H5 & H6).
  replace (S before - 1) with before by lia.
  destruct (loadFormSection_run before w1 section) as (w' & -> & G1 & G2 & G3 & G4 & G5 & G6).
  { by rewrite H2. }
  exists w'. split; [done|]. split; [done|]. split; [by rewrite G3|].
  split; [intros Hok; rewrite G5; by apply H6|]. split; [by rewrite G4|done].
Qed.
Lemma navigatePrevious_goes_back_witness :
  currentStep secondPage = 1
  ∧ ∃ w', FormGenerator.navigatePrevious secondPage = (Ok tt, w')
          ∧ currentStep w' = 0
          ∧ formData w' !! "title" = Some "Payroll system"%string.
Proof.
  assert (currentStep secondPage = 1) as Hstep by (vm_compute; reflexivity).
  split; [exact Hstep|].
  pose proof (navigatePrevious_goes_back secondPage) as H. rewrite Hstep in H.
  destruct (H documentInfo) as (w' & E & Hs & Hfd & _); [vm_compute; reflexivity|].
  exists w'. split; [exact E|]. split; [exact Hs|]. rewrite Hfd. vm_compute. reflexivity.
Defined.

(** ** Clearing the local data *)

(** X27: [clearAllLocalData] removes the local cache and the Draft and
    nothing else: the remote collection is untouched.  Without remote
    storage the next listing is empty; with it, a listing whose fetch
    succeeds returns the remote records and, when [localStorage] takes the
    copy, fills the cache with them again. *)
Theorem clearAllLocalData_forgets_local_data_only s :
  ∃ s1 s2,
    StorageManager.clearAllLocalData s = (Ok tt, s1)
    ∧ localList s1 = [] ∧ draftOf s1 = ∅ ∧ cloud s1 = cloud s
    ∧ StorageManager.loadBRDs s1 = (Ok (shown s1), s2)
    ∧ (cloudAvailable s = false → shown s1 = [])
    ∧ (cloudAvailable s = true → nextFault (remoteFaults s) = None →
       shown s1 ≡ₚ fetched (cloud s)
       ∧ (nextFault (localFaults s) = None → localList s2 = fetched (cloud s))).
Proof.
  set (s1 := set_tempData Absent (set_drafts Absent s)).
  destruct (loadBRDs_run s1) as (s2 & E2 & _ & _ & _ & _ & _ & _ & Hd).
  exists s1, s2. split; [reflexivity|]. split; [reflexivity|]. split; [reflexivity|].
  split; [reflexivity|]. split; [exact E2|]. split.
  - intros Hc. unfold shown. simpl. by rewrite Hc.
  - intros Hc Hr. unfold shown. simpl. rewrite Hc, Hr. split; [apply sort_perm|].
    intros Hl. simpl in Hd. rewrite Hc, Hr, Hl in Hd. unfold localList. by rewrite Hd.
Qed.

(** ** Editing by index when the cache is in the order of the list *)

(** X28: the edit by index replaces the record that was loaded whenever
    the local cache, once the list has been loaded, is in the order of the
    list (as it is after a listing with remote storage has copied to the
    cache records that the sort leaves in place): with no request failing,
    [loadBRD(i)] followed by [saveBRD(record, "edit", i)] puts the new
    version at position [i] in the place of the old one, and the ids of the
    cache are the same as before, in the same order. *)
Theorem saveBRD_edit_in_list_order s i brd id edited :
  localList (StorageManager.loadBRD (StorageManager.Index (Z.of_nat i)) s).2 = shown s →
  allSucceed (remoteFaults s) →
  allSucceed (localFaults s) →
  shown s !! i = Some brd →
  brd !! "id" = Some id →
  id ≠ ""%string →
  edited !! "id" = Some id →
  ∃ s1 s2,
    StorageManager.loadBRD (StorageManager.Index (Z.of_nat i)) s = (Ok (Some brd), s1)
    ∧ StorageManager.saveBRD edited "edit" (Some i) s1 = (Ok id, s2)
    ∧ localList s2 = <[i := StorageManager.brdWithMeta edited id (currentTimeAt s1)]> (shown s)
    ∧ idsOf (localList s2) = idsOf (shown s)
    ∧ ∀ k other, k ≠ i → shown s !! k = Some other → localList s2 !! k = Some other.
Proof.
  intros Horder Hr Hl Hi Hid Hne Hed.
  destruct (loadBRDs_run s) as (s1 & E & _ & _ & _ & _ & Hrf & Hlf & _).
  assert (StorageManager.loadBRD (StorageManager.Index (Z.of_nat i)) s = (Ok (Some brd), s1))
    as E1.
  { unfold StorageManager.loadBRD, tryCatch. unfold bind at 1. rewrite E. unfold ret.
    by rewrite at_of_nat, Hi. }
  rewrite E1 in Horder. simpl in Horder.
  assert (allSucceed (remoteFaults s1)) as Hr1.
  { rewrite Hrf. destruct (cloudAvailable s); [by apply allSucceed_afterRequest|done]. }
  assert (allSucceed (localFaults s1)) as Hl1.
  { rewrite Hlf. destruct (cloudAvailable s); [|done].
    destruct (nextFault (remoteFaults s)); [done|by apply allSucceed_afterRequest]. }
  destruct (saveBRD_all_succeed edited "edit" (Some i) s1 id Hed Hne Hr1 Hl1)
    as (s2 & E2 & Hd2 & _).
  set (saved := StorageManager.brdWithMeta edited id (currentTimeAt s1)) in *.
  assert (localList s2 = <[i := saved]> (shown s)) as Hll.
  { unfold localList at 1. rewrite Hd2, Horder. unfold StorageManager.upsertDraft. simpl.
    rewrite bool_decide_eq_true_2; [done|]. by eexists. }
  exists s1, s2. split; [exact E1|]. split; [exact E2|]. split; [exact Hll|].
  rewrite Hll. split.
  - apply (idsOf_insert_same _ _ brd); [done|]. unfold saved. by rewrite brdWithMeta_id.
  - intros k other Hk Hother. by rewrite list_lookup_insert_ne.
Qed.

Lemma saveBRD_edit_in_list_order_witness :
  localList (StorageManager.loadBRD (StorageManager.Index 0) onlineWithRecords).2
  = shown onlineWithRecords
  ∧ shown onlineWithRecords !! 0 = Some newer
  ∧ ∃ s1 s2,
      StorageManager.loadBRD (StorageManager.Index 0) onlineWithRecords = (Ok (Some newer), s1)
      ∧ StorageManager.saveBRD (<["title" := "Billing v2"%string]> newer) "edit" (Some 0) s1
        = (Ok "b2"%string, s2)
      ∧ idsOf (localList s2) = [Some "b2"; Some "a1"]%string.
Proof.
  assert (localList (StorageManager.loadBRD (StorageManager.Index 0) onlineWithRecords).2
          = shown onlineWithRecords) as Horder by (vm_compute; reflexivity).
  assert (shown onlineWithRecords !! 0 = Some newer) as Hi by (vm_compute; reflexivity).
  split; [exact Horder|]. split; [exact Hi|].
  destruct (saveBRD_edit_in_list_order onlineWithRecords 0 newer "b2"
              (<["title" := "Billing v2"%string]> newer) Horder)
    as (s1 & s2 & E1 & E2 & _ & Hids & _).
  - constructor.
  - constructor.
  - exact Hi.
  - vm_compute. reflexivity.
  - discriminate.
  - vm_compute. reflexivity.
  - exists s1, s2. split; [exact E1|]. split; [exact E2|].
    rewrite Hids. vm_compute. reflexivity.
Defined.
